(** * hmcfgusb.c: the HM-CFG-USB libusb driver, as a shallow embedding

    The driver is sequential C code over two file-scope variables
    ([quit], [debug]) and [errno], heap objects reached through pointers
    (the device handle, the callback context, the libusb transfer) and
    calls into libusb and poll(2).  The embedding threads one [world]
    through every function:

    - C [int], [short], [ssize_t] and [time_t] values are [Z];
    - a pointer is an address ([nat]) into a typed heap ([gmap]), a
      nullable pointer is an [option];
    - the calls that leave the file (libusb, poll, the allocator, stderr,
      the consumer callback) are appended to [trace], and what the
      outside world answers is read from the [environment], a family of
      oracles indexed by the number of answers consumed so far ([tick]);
    - [errno] is written by the driver's own assignments only; every
      return of the driver that the caller inspects [errno] after is
      preceded by such an assignment;
    - dereferencing a dangling pointer, indexing outside an array and
      signed overflow are undefined behaviour: the computation yields
      [None]. *)

From Stdlib Require Import ZArith Lia.
From Stdlib.Strings Require Import Byte.
From stdpp Require Import base option list gmap strings.

Local Open Scope Z_scope.

(** ** Constants *)

Definition USB_TIMEOUT : Z := 10000.
Definition ID_VENDOR : Z := 0x1b1f.
Definition ID_PRODUCT : Z := 0xc00f.
Definition ASYNC_SIZE : Z := 0x0040.
Definition ASYNC_INTERVAL : Z := 32.
Definition EP_OUT : Z := 0x02.
Definition EP_IN : Z := 0x83.
Definition INTERFACE : Z := 0.

(** [EIO] comes from <errno.h>; 5 on Linux. Only [EIO <> 0] matters. *)
Definition EIO : Z := 5.

(** libusb.h: the one error code the driver compares against, and the
    transfer flags it sets. *)
Definition LIBUSB_ERROR_NOT_FOUND : Z := -5.
Definition LIBUSB_TRANSFER_SHORT_NOT_OK : Z := 1.
Definition LIBUSB_TRANSFER_FREE_BUFFER : Z := 2.

(** libusb.h: [enum libusb_transfer_status]. *)
Inductive libusb_transfer_status :=
| LIBUSB_TRANSFER_COMPLETED
| LIBUSB_TRANSFER_ERROR
| LIBUSB_TRANSFER_TIMED_OUT
| LIBUSB_TRANSFER_CANCELLED
| LIBUSB_TRANSFER_STALL
| LIBUSB_TRANSFER_NO_DEVICE
| LIBUSB_TRANSFER_OVERFLOW.

Definition status_code (s : libusb_transfer_status) : Z :=
  match s with
  | LIBUSB_TRANSFER_COMPLETED => 0
  | LIBUSB_TRANSFER_ERROR => 1
  | LIBUSB_TRANSFER_TIMED_OUT => 2
  | LIBUSB_TRANSFER_CANCELLED => 3
  | LIBUSB_TRANSFER_STALL => 4
  | LIBUSB_TRANSFER_NO_DEVICE => 5
  | LIBUSB_TRANSFER_OVERFLOW => 6
  end.

(** Integer widths (LP64): [int] has 32 bits, [long] and [time_t] 64. *)
Definition INT_MAX : Z := 2 ^ 31 - 1.
Definition LONG_MIN : Z := - 2 ^ 63.
Definition LONG_MAX : Z := 2 ^ 63 - 1.

(** Conversion of a [long] to [int] (two's complement wrap), as happens
    to the third argument of poll(2). *)
Definition wrap_int (z : Z) : Z := (z + 2 ^ 31) mod 2 ^ 32 - 2 ^ 31.

(** ** Data *)

(** poll.h: [struct pollfd]. *)
Record pollfd := Pollfd { fd : Z; events : Z; revents : Z }.

(** sys/time.h: [struct timeval]. *)
Record timeval := Timeval { tv_sec : Z; tv_usec : Z }.

(** libusb.h: [struct libusb_pollfd]. *)
Record libusb_pollfd := LibusbPollfd { usb_fd : Z; usb_events : Z }.

(** Modelled from the spec: [struct hmcfgusb_dev] is declared in
    hmcfgusb.h, which is not among the sources.  The fields are the five
    that hmcfgusb.c reads and writes and that the data model of the
    specification lists: the device connection, the outstanding receive
    transfer (nullable), the two counts and the poll descriptor array
    (nullable; [Some l] is an allocated array holding [l]). *)
Record hmcfgusb_dev := Dev {
  usb_devh : option nat;
  transfer : option nat;
  n_usb_pfd : Z;
  n_pfd : Z;
  pfd : option (list pollfd)
}.

(** Modelled from the spec: [hmcfgusb_cb_fn] is declared in hmcfgusb.h,
    which is not among the sources: the consumer callback, called with
    the buffer, its length and the caller's opaque data, answering
    nonzero to accept the buffer and zero to reject it. *)
Definition hmcfgusb_cb_fn : Type := list byte -> Z -> nat -> Z.

Record hmcfgusb_cb_data := CbData {
  dev : option nat;
  cb : option hmcfgusb_cb_fn;
  data : nat
}.

(** libusb.h: the fields of [struct libusb_transfer] that
    [libusb_fill_interrupt_transfer] and the driver set, plus [submitted],
    libusb's own record of whether the transfer is in flight.  The C field
    [length] is [buf_length] here. *)
Record libusb_transfer := Transfer {
  dev_handle : option nat;
  endpoint : Z;
  buf_length : Z;
  user_data : option nat;
  xfer_timeout : Z;
  flags : Z;
  status : libusb_transfer_status;
  buffer : list byte;
  actual_length : Z;
  submitted : bool
}.

(** One attached USB device as [hmcfgusb_find] sees it: the outcome of
    reading its descriptor, and of opening, detaching and claiming it. *)
Record usb_device := UsbDevice {
  descriptor_err : Z;
  idVendor : Z;
  idProduct : Z;
  open_err : Z;
  open_devh : nat;
  detach_err : Z;
  claim_err : Z
}.

(** What libusb hands to a completion callback: the finished transfer,
    its status and the received bytes. *)
Record completion := Completion {
  c_transfer : nat;
  c_status : libusb_transfer_status;
  c_buffer : list byte;
  c_actual_length : Z
}.

(** ** The outside world *)

(** The calls that leave the file, in program order.  [Stderr] carries
    the format string of [fprintf(stderr, ..)] or the prefix of [perror]
    and the integer printed with it (an error code, [errno]); the text
    that [usb_strerror] makes of an error code is not modelled. *)
Inductive event :=
| Hexdump (buf : list byte) (len : Z) (prefix : string)
| Stderr (msg : string) (arg : Z)
| Consumer (buf : list byte) (len : Z) (opaque : nat)
| Libusb_init
| Libusb_exit
| Libusb_get_device_list
| Libusb_get_device_descriptor (d : usb_device)
| Libusb_open (d : usb_device)
| Libusb_detach_kernel_driver (devh : option nat) (iface : Z)
| Libusb_claim_interface (devh : option nat) (iface : Z)
| Libusb_release_interface (devh : option nat) (iface : Z)
| Libusb_close (devh : option nat)
| Libusb_interrupt_transfer (devh : option nat) (ep : Z) (buf : list byte) (len : Z) (timeout : Z)
| Libusb_alloc_transfer
| Libusb_submit_transfer (t : nat)
| Libusb_free_transfer (t : nat)
| Libusb_cancel_transfer (t : nat)
| Libusb_get_pollfds
| Libusb_get_next_timeout
| Libusb_handle_events (tv : timeval)
| Poll (fds : option (list pollfd)) (nfds : Z) (timeout : Z)
| Malloc
| Realloc
| Free.

(** The answers of the outside world; the [nat] is the moment of asking. *)
Record environment := Env {
  env_init : nat -> Z;
  env_device_list : nat -> Z * list usb_device;
  env_alloc : nat -> bool;
  env_realloc : nat -> option pollfd;
  env_interrupt_transfer : nat -> Z * Z;
  env_submit_transfer : nat -> Z;
  env_release_interface : nat -> Z;
  env_pollfds : nat -> option (list libusb_pollfd);
  env_next_timeout : nat -> Z * timeval;
  env_poll : nat -> Z * list Z;
  env_handle_events : nat -> list completion * Z
}.

(** The process state.  [errno] holds what the driver itself assigns to
    it; what a call into libc or libusb leaves there is not modelled, so
    it is meaningful where the driver has just written it. *)
Record world := World {
  quit : Z;
  debug : Z;
  errno : Z;
  devs : gmap nat hmcfgusb_dev;
  cb_datas : gmap nat hmcfgusb_cb_data;
  transfers : gmap nat libusb_transfer;
  brk : nat;
  tick : nat;
  trace : list event;
  env : environment
}.

Definition set_quit (v : Z) (w : world) : world :=
  World v (debug w) (errno w) (devs w) (cb_datas w) (transfers w) (brk w) (tick w) (trace w) (env w).
Definition set_debug (v : Z) (w : world) : world :=
  World (quit w) v (errno w) (devs w) (cb_datas w) (transfers w) (brk w) (tick w) (trace w) (env w).
Definition set_errno (v : Z) (w : world) : world :=
  World (quit w) (debug w) v (devs w) (cb_datas w) (transfers w) (brk w) (tick w) (trace w) (env w).
Definition set_devs (v : gmap nat hmcfgusb_dev) (w : world) : world :=
  World (quit w) (debug w) (errno w) v (cb_datas w) (transfers w) (brk w) (tick w) (trace w) (env w).
Definition set_cb_datas (v : gmap nat hmcfgusb_cb_data) (w : world) : world :=
  World (quit w) (debug w) (errno w) (devs w) v (transfers w) (brk w) (tick w) (trace w) (env w).
Definition set_transfers (v : gmap nat libusb_transfer) (w : world) : world :=
  World (quit w) (debug w) (errno w) (devs w) (cb_datas w) v (brk w) (tick w) (trace w) (env w).
Definition set_brk (v : nat) (w : world) : world :=
  World (quit w) (debug w) (errno w) (devs w) (cb_datas w) (transfers w) v (tick w) (trace w) (env w).
Definition set_tick (v : nat) (w : world) : world :=
  World (quit w) (debug w) (errno w) (devs w) (cb_datas w) (transfers w) (brk w) v (trace w) (env w).
Definition set_trace (v : list event) (w : world) : world :=
  World (quit w) (debug w) (errno w) (devs w) (cb_datas w) (transfers w) (brk w) (tick w) v (env w).

(** ** The monad: state, with [None] for undefined behaviour *)

Definition M (A : Type) : Type := world -> option (A * world).

Global Instance M_ret : MRet M := fun A a w => Some (a, w).
Global Instance M_bind : MBind M := fun A B k m w =>
  match m w with
  | Some (a, w') => k a w'
  | None => None
  end.

Definition undefined {A} : M A := fun _ => None.
Definition gets {A} (f : world -> A) : M A := fun w => Some (f w, w).
Definition modify (f : world -> world) : M unit := fun w => Some (tt, f w).
Definition emit (e : event) : M unit := modify (fun w => set_trace (trace w ++ [e]) w).

(** The next answer of the environment. *)
Definition ask {A} (oracle : environment -> nat -> A) : M A := fun w =>
  Some (oracle (env w) (tick w), set_tick (S (tick w)) w).

(** [if (c) body] for a statement. *)
Definition when (c : bool) (body : M unit) : M unit := if c then body else mret tt.

(** [x != 0] on a C scalar, [!p] on a pointer, and [a != b] on transfer
    statuses (compared as the integers they are). *)
Definition nonzero (z : Z) : bool := negb (z =? 0).
Definition null {A} (p : option A) : bool :=
  match p with Some _ => false | None => true end.
Definition status_ne (a b : libusb_transfer_status) : bool :=
  negb (status_code a =? status_code b).

(** [x + 1] on [int] and [x * y] on [long]: signed overflow is undefined. *)
Definition incr_int (x : Z) : M Z :=
  if x <? INT_MAX then mret (x + 1) else undefined.
Definition mul_long (x y : Z) : M Z :=
  if (LONG_MIN <=? x * y) && (x * y <=? LONG_MAX) then mret (x * y) else undefined.

(** Loads and stores through pointers. *)
Definition load_dev (p : nat) : M hmcfgusb_dev := fun w =>
  match devs w !! p with Some d => Some (d, w) | None => None end.
Definition store_dev (p : nat) (d : hmcfgusb_dev) : M unit := fun w =>
  match devs w !! p with Some _ => Some (tt, set_devs (<[p:=d]> (devs w)) w) | None => None end.
Definition load_cb_data (p : nat) : M hmcfgusb_cb_data := fun w =>
  match cb_datas w !! p with Some c => Some (c, w) | None => None end.
Definition load_transfer (p : nat) : M libusb_transfer := fun w =>
  match transfers w !! p with Some t => Some (t, w) | None => None end.
Definition store_transfer (p : nat) (t : libusb_transfer) : M unit := fun w =>
  match transfers w !! p with Some _ => Some (tt, set_transfers (<[p:=t]> (transfers w)) w) | None => None end.

(** Field updates. *)
Definition set_usb_devh (v : option nat) (d : hmcfgusb_dev) : hmcfgusb_dev :=
  Dev v (transfer d) (n_usb_pfd d) (n_pfd d) (pfd d).
Definition set_transfer (v : option nat) (d : hmcfgusb_dev) : hmcfgusb_dev :=
  Dev (usb_devh d) v (n_usb_pfd d) (n_pfd d) (pfd d).
Definition set_n_usb_pfd (v : Z) (d : hmcfgusb_dev) : hmcfgusb_dev :=
  Dev (usb_devh d) (transfer d) v (n_pfd d) (pfd d).
Definition set_n_pfd (v : Z) (d : hmcfgusb_dev) : hmcfgusb_dev :=
  Dev (usb_devh d) (transfer d) (n_usb_pfd d) v (pfd d).
Definition set_pfd (v : option (list pollfd)) (d : hmcfgusb_dev) : hmcfgusb_dev :=
  Dev (usb_devh d) (transfer d) (n_usb_pfd d) (n_pfd d) v.

Definition set_fd (v : Z) (p : pollfd) : pollfd := Pollfd v (events p) (revents p).
Definition set_events (v : Z) (p : pollfd) : pollfd := Pollfd (fd p) v (revents p).
Definition set_revents (v : Z) (p : pollfd) : pollfd := Pollfd (fd p) (events p) v.

Definition set_tv_sec (v : Z) (tv : timeval) : timeval := Timeval v (tv_usec tv).

Definition set_flags (v : Z) (t : libusb_transfer) : libusb_transfer :=
  Transfer (dev_handle t) (endpoint t) (buf_length t) (user_data t) (xfer_timeout t) v
    (status t) (buffer t) (actual_length t) (submitted t).
Definition set_submitted (v : bool) (t : libusb_transfer) : libusb_transfer :=
  Transfer (dev_handle t) (endpoint t) (buf_length t) (user_data t) (xfer_timeout t) (flags t)
    (status t) (buffer t) (actual_length t) v.

(** The transfer as libusb leaves it when it completes. *)
Definition complete (c : completion) (t : libusb_transfer) : libusb_transfer :=
  Transfer (dev_handle t) (endpoint t) (buf_length t) (user_data t) (xfer_timeout t) (flags t)
    (c_status c) (c_buffer c) (c_actual_length c) false.

(** [dev->pfd[i]]: outside the array, or through a null [pfd], undefined. *)
Definition load_pfd (p : nat) (i : Z) : M pollfd :=
  d ← load_dev p;
  match pfd d with
  | Some l =>
    if i <? 0 then undefined
    else match l !! Z.to_nat i with Some e => mret e | None => undefined end
  | None => undefined
  end.
Definition store_pfd (p : nat) (i : Z) (e : pollfd) : M unit :=
  d ← load_dev p;
  match pfd d with
  | Some l =>
    if (i <? 0) || (Z.of_nat (length l) <=? i) then undefined
    else store_dev p (set_pfd (Some (<[Z.to_nat i:=e]> l)) d)
  | None => undefined
  end.

(** [for (i = lo; i < hi; i++) body(i)], for a body that leaves [i] and
    [hi] alone. *)
Fixpoint for_count (n : nat) (i : Z) (body : Z -> M unit) : M unit :=
  match n with
  | O => mret tt
  | S n' => body i;; for_count n' (i + 1) body
  end.
Definition for_lt (lo hi : Z) (body : Z -> M unit) : M unit :=
  for_count (Z.to_nat (hi - lo)) lo body.

(** ** Collaborators: stderr, hexdump, the allocator, libusb, poll *)

Definition fprintf_stderr (msg : string) (arg : Z) : M unit := emit (Stderr msg arg).
Definition perror (msg : string) : M unit := e ← gets errno; emit (Stderr msg e).

(** Modelled from the spec: [hexdump] comes from hexdump.h, which is not
    among the sources: a diagnostic sink that receives the buffer, its
    length and a direction label, for human inspection only. *)
Definition hexdump (buf : list byte) (len : Z) (prefix : string) : M unit :=
  emit (Hexdump buf len prefix).

(** [malloc] followed by [memset(.., 0, ..)] of a device handle and of a
    callback context: a fresh address holding the all-zero object, or
    null when the allocator refuses. *)
Definition malloc_dev : M (option nat) :=
  emit Malloc;;
  ok ← ask env_alloc;
  if ok : bool then
    p ← gets brk;
    modify (fun w => set_brk (S p) (set_devs (<[p:=Dev None None 0 0 None]> (devs w)) w));;
    mret (Some p)
  else mret None.
Definition malloc_cb_data : M (option nat) :=
  emit Malloc;;
  ok ← ask env_alloc;
  if ok : bool then
    p ← gets brk;
    modify (fun w => set_brk (S p) (set_cb_datas (<[p:=CbData None None 0]> (cb_datas w)) w));;
    mret (Some p)
  else mret None.
Definition store_cb_data (p : nat) (c : hmcfgusb_cb_data) : M unit := fun w =>
  match cb_datas w !! p with
  | Some _ => Some (tt, set_cb_datas (<[p:=c]> (cb_datas w)) w)
  | None => None
  end.
Definition free_dev (p : nat) : M unit :=
  emit Free;;
  _ ← load_dev p;
  modify (fun w => set_devs (delete p (devs w)) w).

(** [realloc(old, n * sizeof(struct pollfd))]: null when the allocator
    refuses, otherwise an array of [n] entries that starts with the old
    contents; entries beyond them hold whatever the allocator left there. *)
Definition realloc_pfd (old : option (list pollfd)) (n : Z) : M (option (list pollfd)) :=
  emit Realloc;;
  r ← ask env_realloc;
  match r with
  | Some junk => mret (Some (resize (Z.to_nat n) junk (default [] old)))
  | None => mret None
  end.

(** Synchronous transfer: the error code and the transferred count. *)
Definition libusb_interrupt_transfer (devh : option nat) (ep : Z) (buf : list byte)
    (len : Z) (timeout : Z) : M (Z * Z) :=
  emit (Libusb_interrupt_transfer devh ep buf len timeout);;
  ask env_interrupt_transfer.

Definition libusb_alloc_transfer : M (option nat) :=
  emit Libusb_alloc_transfer;;
  ok ← ask env_alloc;
  if ok : bool then
    p ← gets brk;
    let t := Transfer None 0 0 None 0 0 LIBUSB_TRANSFER_COMPLETED [] 0 false in
    modify (fun w => set_brk (S p) (set_transfers (<[p:=t]> (transfers w)) w));;
    mret (Some p)
  else mret None.

Definition libusb_fill_interrupt_transfer (t : nat) (devh : option nat) (ep : Z)
    (len : Z) (user : option nat) (timeout : Z) : M unit :=
  tr ← load_transfer t;
  store_transfer t
    (Transfer devh ep len user timeout (flags tr) (status tr) (buffer tr) (actual_length tr)
       (submitted tr)).

(** Submission: libusb's answer; accepted (0) puts the transfer in flight. *)
Definition libusb_submit_transfer (t : nat) : M Z :=
  emit (Libusb_submit_transfer t);;
  tr ← load_transfer t;
  err ← ask env_submit_transfer;
  when (err =? 0) (store_transfer t (set_submitted true tr));;
  mret err.

(** Releases the transfer object (and, with [LIBUSB_TRANSFER_FREE_BUFFER],
    its buffer); freeing what is not allocated is undefined. *)
Definition libusb_free_transfer (t : nat) : M unit :=
  emit (Libusb_free_transfer t);;
  _ ← load_transfer t;
  modify (fun w => set_transfers (delete t (transfers w)) w).

Definition libusb_cancel_transfer (t : nat) : M unit :=
  emit (Libusb_cancel_transfer t);;
  _ ← load_transfer t;
  mret tt.

(** [poll(dev->pfd, dev->n_pfd, timeout)]: the kernel's return value; on
    success it has written the [revents] of the first [n_pfd] entries. *)
Definition write_revents (rev : list Z) (k : nat) (l : list pollfd) : list pollfd :=
  imap (fun i e => set_revents (default 0 (rev !! i)) e) (take k l) ++ drop k l.
Definition poll (p : nat) (timeout : Z) : M Z :=
  d ← load_dev p;
  emit (Poll (pfd d) (n_pfd d) timeout);;
  '(n, rev) ← ask env_poll;
  if n <? 0 then mret n
  else
    match pfd d with
    | Some l =>
      if Z.of_nat (length l) <? n_pfd d then undefined
      else store_dev p (set_pfd (Some (write_revents rev (Z.to_nat (n_pfd d)) l)) d);; mret n
    | None => if 0 <? n_pfd d then undefined else mret n
    end.

(** ** hmcfgusb_find (lines 93-140) *)

Fixpoint hmcfgusb_find_loop (n : nat) (i : Z) (list : list usb_device) : M (option nat) :=
  match n with
  | O => mret None
  | S n' =>
    match (if i <? 0 then None else list !! Z.to_nat i) with
    | None => undefined
    | Some d =>
      emit (Libusb_get_device_descriptor d);;
      if nonzero (descriptor_err d) then hmcfgusb_find_loop n' (i + 1) list
      else if (idVendor d =? ID_VENDOR) && (idProduct d =? ID_PRODUCT) then
        emit (Libusb_open d);;
        if nonzero (open_err d) then
          fprintf_stderr "Can't open device: %s" (open_err d);;
          mret None
        else
          let devh := Some (open_devh d) in
          emit (Libusb_detach_kernel_driver devh INTERFACE);;
          if nonzero (detach_err d) && negb (detach_err d =? LIBUSB_ERROR_NOT_FOUND) then
            fprintf_stderr "Can't detach kernel driver: %s" (detach_err d);;
            mret None
          else
            emit (Libusb_claim_interface devh INTERFACE);;
            if nonzero (claim_err d) then
              fprintf_stderr "Can't claim interface: %s" (claim_err d);;
              mret None
            else mret devh
      else hmcfgusb_find_loop n' (i + 1) list
    end
  end.

Definition hmcfgusb_find : M (option nat) :=
  emit Libusb_get_device_list;;
  '(cnt, list) ← ask env_device_list;
  if cnt <? 0 then
    fprintf_stderr "Can't get USB device list: %d" cnt;;
    mret None
  else hmcfgusb_find_loop (Z.to_nat cnt) 0 list.

(** ** hmcfgusb_send (lines 142-164) *)

Definition hmcfgusb_send (usbdev : nat) (send_data : list byte) (len : Z) (done : Z) : M Z :=
  dbg ← gets debug;
  when (nonzero dbg) (hexdump send_data len "USB < ");;
  d ← load_dev usbdev;
  '(err, cnt) ← libusb_interrupt_transfer (usb_devh d) EP_OUT send_data len USB_TIMEOUT;
  if nonzero err then
    fprintf_stderr "Can't send data: %s" err;;
    mret 0
  else if nonzero done then
    d ← load_dev usbdev;
    '(err, cnt) ← libusb_interrupt_transfer (usb_devh d) EP_OUT send_data 0 USB_TIMEOUT;
    if nonzero err then
      fprintf_stderr "Can't send data: %s" err;;
      mret 0
    else mret 1
  else mret 1.

(** ** hmcfgusb_prepare_int (lines 166-198)

    The callback argument is always [hmcfgusb_interrupt]; the model leaves
    it out and lets event handling call [hmcfgusb_interrupt] directly. *)

Definition hmcfgusb_prepare_int (devh : option nat) (cb_data : option nat) : M (option nat) :=
  emit Malloc;;
  data_buf ← ask env_alloc;
  if negb data_buf then
    fprintf_stderr "Can't allocate memory for data-buffer!" 0;;
    mret None
  else
    t ← libusb_alloc_transfer;
    match t with
    | None =>
      fprintf_stderr "Can't allocate memory for usb-transfer!" 0;;
      emit Free;;
      mret None
    | Some t =>
      libusb_fill_interrupt_transfer t devh EP_IN ASYNC_SIZE cb_data USB_TIMEOUT;;
      tr ← load_transfer t;
      store_transfer t
        (set_flags (Z.lor LIBUSB_TRANSFER_SHORT_NOT_OK LIBUSB_TRANSFER_FREE_BUFFER) tr);;
      err ← libusb_submit_transfer t;
      if nonzero err then
        fprintf_stderr "Can't submit transfer: %s" err;;
        libusb_free_transfer t;;
        mret None
      else mret (Some t)
    end.

(** ** hmcfgusb_interrupt (lines 206-249) *)

(** Lines 218-221 and again 232-235:
    [if (cb_data && cb_data->dev && cb_data->dev->transfer) { ... }]. *)
Definition free_dev_transfer (cb_data : option nat) : M unit :=
  match cb_data with
  | None => mret tt
  | Some c =>
    cd ← load_cb_data c;
    match dev cd with
    | None => mret tt
    | Some p =>
      d ← load_dev p;
      match transfer d with
      | None => mret tt
      | Some t =>
        libusb_free_transfer t;;
        d ← load_dev p;
        store_dev p (set_transfer None d)
      end
    end
  end.

(** Lines 244-248. *)
Definition resubmit (t : nat) : M unit :=
  err ← libusb_submit_transfer t;
  when (nonzero err)
    (fprintf_stderr "Can't re-submit transfer: %s" err;;
     libusb_free_transfer t).

(** [cb_data && cb_data->cb]: the consumer and its opaque data, if any. *)
Definition consumer_of (cb_data : option nat) : M (option (hmcfgusb_cb_fn * nat)) :=
  match cb_data with
  | None => mret None
  | Some c =>
    cd ← load_cb_data c;
    mret (match cb cd with Some f => Some (f, data cd) | None => None end)
  end.

Definition hmcfgusb_interrupt (t : nat) : M unit :=
  tr ← load_transfer t;
  let cb_data := user_data tr in
  if status_ne (status tr) LIBUSB_TRANSFER_COMPLETED then
    if status_ne (status tr) LIBUSB_TRANSFER_TIMED_OUT then
      fprintf_stderr "Interrupt transfer not completed: %d!" (status_code (status tr));;
      modify (set_quit EIO);;
      free_dev_transfer cb_data
    else resubmit t
  else
    consumer ← consumer_of cb_data;
    match consumer with
    | Some (f, opaque) =>
      dbg ← gets debug;
      when (nonzero dbg) (hexdump (buffer tr) (actual_length tr) "USB > ");;
      emit (Consumer (buffer tr) (actual_length tr) opaque);;
      if negb (nonzero (f (buffer tr) (actual_length tr) opaque)) then
        modify (set_quit EIO);;
        free_dev_transfer cb_data
      else resubmit t
    | None =>
      hexdump (buffer tr) (actual_length tr) "> ";;
      resubmit t
    end.

(** [libusb_handle_events_timeout_completed(NULL, &tv, NULL)]: libusb
    completes some of the transfers in flight, calling the completion
    callback of each, and answers an error code.  A completion for a
    transfer that is not in flight is not delivered. *)
Definition deliver (c : completion) : M unit :=
  live ← gets (fun w => transfers w !! c_transfer c);
  match live with
  | Some tr =>
    if submitted tr then
      store_transfer (c_transfer c) (complete c tr);;
      hmcfgusb_interrupt (c_transfer c)
    else mret tt
  | None => mret tt
  end.

Fixpoint dispatch (cs : list completion) : M unit :=
  match cs with
  | [] => mret tt
  | c :: cs' => deliver c;; dispatch cs'
  end.

Definition libusb_handle_events_timeout_completed (tv : timeval) : M Z :=
  emit (Libusb_handle_events tv);;
  '(cs, err) ← ask env_handle_events;
  dispatch cs;;
  mret err.

(** ** hmcfgusb_init (lines 251-331) *)

Definition libusb_get_pollfds : M (option (list libusb_pollfd)) :=
  emit Libusb_get_pollfds;;
  ask env_pollfds.

(** Lines 307-308: [for(i = 0; usb_pfd[i]; i++) dev->n_usb_pfd++;] over
    the null-terminated array. *)
Fixpoint count_usb_pfd (p : nat) (usb_pfd : list libusb_pollfd) : M unit :=
  match usb_pfd with
  | [] => mret tt
  | _ :: rest =>
    d ← load_dev p;
    n ← incr_int (n_usb_pfd d);
    store_dev p (set_n_usb_pfd n d);;
    count_usb_pfd p rest
  end.

(** Lines 310-316: [malloc] and [memset] of the descriptor array. *)
Definition malloc_pfd (n : Z) : M (option (list pollfd)) :=
  emit Malloc;;
  ok ← ask env_alloc;
  mret (if ok : bool then Some (replicate (Z.to_nat n) (Pollfd 0 0 0)) else None).

(** Lines 318-322. *)
Definition copy_usb_pfd (p : nat) (usb_pfd : list libusb_pollfd) (i : Z) : M unit :=
  match (if i <? 0 then None else usb_pfd !! Z.to_nat i) with
  | None => undefined
  | Some u =>
    e ← load_pfd p i; store_pfd p i (set_fd (usb_fd u) e);;
    e ← load_pfd p i; store_pfd p i (set_events (usb_events u) e);;
    e ← load_pfd p i; store_pfd p i (set_revents 0 e)
  end.

Definition hmcfgusb_init (cb : option hmcfgusb_cb_fn) (data : nat) : M (option nat) :=
  emit Libusb_init;;
  err ← ask env_init;
  if nonzero err then
    fprintf_stderr "Can't initialize libusb: %s" err;;
    mret None
  else
  devh ← hmcfgusb_find;
  if null devh then
    fprintf_stderr "Can't find/open hmcfgusb!" 0;;
    mret None
  else
  dev ← malloc_dev;
  match dev with
  | None => perror "Can't allocate memory for hmcfgusb_dev";; mret None
  | Some dev =>
  d ← load_dev dev;
  store_dev dev (set_usb_devh devh d);;
  cb_data ← malloc_cb_data;
  match cb_data with
  | None => perror "Can't allocate memory for hmcfgusb_cb_data";; mret None
  | Some cb_data =>
  store_cb_data cb_data (CbData (Some dev) cb data);;
  t ← hmcfgusb_prepare_int devh (Some cb_data);
  d ← load_dev dev;
  store_dev dev (set_transfer t d);;
  if null t then
    fprintf_stderr "Can't prepare async device io!" 0;;
    mret None
  else
  usb_pfd ← libusb_get_pollfds;
  match usb_pfd with
  | None =>
    fprintf_stderr "Can't get FDset from libusb!" 0;;
    free_dev dev;;
    mret None
  | Some usb_pfd =>
  d ← load_dev dev;
  store_dev dev (set_n_usb_pfd 0 d);;
  count_usb_pfd dev usb_pfd;;
  d ← load_dev dev;
  a ← malloc_pfd (n_usb_pfd d);
  d ← load_dev dev;
  store_dev dev (set_pfd a d);;
  if null a then
    perror "Can't allocate memory for poll-fds";;
    mret None
  else
  d ← load_dev dev;
  for_lt 0 (n_usb_pfd d) (copy_usb_pfd dev usb_pfd);;
  emit Free;;
  d ← load_dev dev;
  store_dev dev (set_n_pfd (n_usb_pfd d) d);;
  modify (set_quit 0);;
  mret (Some dev)
  end end end.

(** ** hmcfgusb_add_pfd (lines 333-347) *)

Definition hmcfgusb_add_pfd (dev : nat) (fd : Z) (events : Z) : M Z :=
  d ← load_dev dev;
  n ← incr_int (n_pfd d);
  store_dev dev (set_n_pfd n d);;
  d ← load_dev dev;
  a ← realloc_pfd (pfd d) (n_pfd d);
  d ← load_dev dev;
  store_dev dev (set_pfd a d);;
  if null a then
    perror "Can't realloc poll-fds";;
    mret 0
  else
    d ← load_dev dev;
    e ← load_pfd dev (n_pfd d - 1); store_pfd dev (n_pfd d - 1) (set_fd fd e);;
    d ← load_dev dev;
    e ← load_pfd dev (n_pfd d - 1); store_pfd dev (n_pfd d - 1) (set_events events e);;
    d ← load_dev dev;
    e ← load_pfd dev (n_pfd d - 1); store_pfd dev (n_pfd d - 1) (set_revents 0 e);;
    mret 1.

(** ** hmcfgusb_poll (lines 349-419) *)

(** What the loop of lines 388-398 ends with: it ran to the end, it left
    by [break] with [usb_event = 1], or it returned a descriptor. *)
Inductive scan := Scan_end | Scan_usb_event | Scan_return (fd : Z).

Fixpoint scan_revents (n : nat) (fd_n : Z) (dev : nat) : M scan :=
  match n with
  | O => mret Scan_end
  | S n' =>
    e ← load_pfd dev fd_n;
    if nonzero (revents e) then
      d ← load_dev dev;
      if fd_n <? n_usb_pfd d then mret Scan_usb_event
      else
        modify (set_errno 0);;
        e ← load_pfd dev fd_n;
        mret (Scan_return (fd e))
    else scan_revents n' (fd_n + 1) dev
  end.

(** Lines 412-418. *)
Definition report_quit : M Z :=
  modify (set_errno 0);;
  q ← gets quit;
  when (nonzero q)
    (fprintf_stderr "closing device-connection due to error %d" q;;
     modify (set_errno q));;
  mret (-1).

(** Lines 402-418, reached with [usb_event] decided. *)
Definition service_and_report (usb_event : bool) : M Z :=
  if usb_event then
    err ← libusb_handle_events_timeout_completed (Timeval 0 0);
    if err <? 0 then
      fprintf_stderr "libusb_handle_events_timeout_completed: %s" err;;
      modify (set_errno EIO);;
      mret (-1)
    else report_quit
  else report_quit.

(** [tv] is the [timeval] as [libusb_get_next_timeout] leaves it (zeroed
    by the [memset] before the call where libusb does not write it). *)
Definition hmcfgusb_poll (dev : nat) (timeout : Z) : M Z :=
  modify (set_errno 0);;
  emit Libusb_get_next_timeout;;
  '(err, tv) ← ask env_next_timeout;
  if err <? 0 then
    fprintf_stderr "libusb_get_next_timeout: %s" err;;
    modify (set_errno EIO);;
    mret (-1)
  else
    let '(tv, usb_event) :=
      if err =? 0 then (set_tv_sec timeout tv, false)
      else (tv, (tv_sec tv =? 0) && (tv_usec tv =? 0)) in
    if negb usb_event then
      d ← load_dev dev;
      for_lt 0 (n_pfd d) (fun i => e ← load_pfd dev i; store_pfd dev i (set_revents 0 e));;
      ms ← mul_long (tv_sec tv) 1000;
      n ← poll dev (wrap_int ms);
      if n <? 0 then
        perror "poll";;
        modify (set_errno 0);;
        mret (-1)
      else if n =? 0 then service_and_report true
      else
        d ← load_dev dev;
        s ← scan_revents (Z.to_nat (n_pfd d)) 0 dev;
        match s with
        | Scan_return fd => mret fd
        | Scan_usb_event => service_and_report true
        | Scan_end => service_and_report usb_event
        end
    else service_and_report usb_event.

(** ** hmcfgusb_close (lines 421-439) and hmcfgusb_set_debug (441-444) *)

Definition hmcfgusb_close (dev : nat) : M unit :=
  d ← load_dev dev;
  match transfer d with
  | Some t => libusb_cancel_transfer t
  | None => mret tt
  end;;
  d ← load_dev dev;
  emit (Libusb_release_interface (usb_devh d) INTERFACE);;
  err ← ask env_release_interface;
  when (nonzero err) (fprintf_stderr "Can't release interface: %s" err);;
  d ← load_dev dev;
  emit (Libusb_close (usb_devh d));;
  emit Free;;
  free_dev dev;;
  emit Libusb_exit.

Definition hmcfgusb_set_debug (d : Z) : M unit := modify (set_debug d).

(** ** The exposed operations *)

Inductive operation :=
| Op_init (cb : option hmcfgusb_cb_fn) (data : nat)
| Op_send (dev : nat) (send_data : list byte) (len : Z) (done : Z)
| Op_add_pfd (dev : nat) (fd : Z) (events : Z)
| Op_poll (dev : nat) (timeout : Z)
| Op_close (dev : nat)
| Op_set_debug (d : Z).

Definition is_init (o : operation) : bool :=
  match o with Op_init _ _ => true | _ => false end.

(** The world an operation leaves behind. *)
Definition run (o : operation) (w : world) : option world :=
  match o with
  | Op_init cb data => snd <$> hmcfgusb_init cb data w
  | Op_send dev send_data len done => snd <$> hmcfgusb_send dev send_data len done w
  | Op_add_pfd dev fd events => snd <$> hmcfgusb_add_pfd dev fd events w
  | Op_poll dev timeout => snd <$> hmcfgusb_poll dev timeout w
  | Op_close dev => snd <$> hmcfgusb_close dev w
  | Op_set_debug d => snd <$> hmcfgusb_set_debug d w
  end.

(** ** The receive engine's two states, read off the heap *)

Inductive engine_state := ARMED | DEAD.

Global Instance engine_state_eq_dec : EqDecision engine_state.
Proof. solve_decision. Defined.

(** ARMED: the handle's transfer is allocated and in flight. *)
Definition engine (p : nat) (w : world) : engine_state :=
  match devs w !! p with
  | Some d =>
    match transfer d with
    | Some t =>
      match transfers w !! t with
      | Some tr => if submitted tr then ARMED else DEAD
      | None => DEAD
      end
    | None => DEAD
    end
  | None => DEAD
  end.

(** * Vocabulary of the statements *)

(** Total correctness: the computation is defined on [w] and its result
    and final world satisfy [Q]. *)
Definition wp {A} (m : M A) (Q : A -> world -> Prop) (w : world) : Prop :=
  match m w with
  | Some (a, w') => Q a w'
  | None => False
  end.

(** A property of the world that a computation cannot destroy. *)
Definition preserves {A} (I : world -> Prop) (m : M A) : Prop :=
  forall w a w', I w -> m w = Some (a, w') -> I w'.

(** The handle's count agrees with the contents of its descriptor array. *)
Definition pfd_consistent (d : hmcfgusb_dev) : Prop :=
  n_pfd d = Z.of_nat (length (default [] (pfd d))).

(** What libusb will answer to the transfers of a send call that starts
    in [w]: to the data transfer, and to the terminator after it. *)
Definition first_transfer_err (w : world) : Z :=
  fst (env_interrupt_transfer (env w) (tick w)).
Definition terminator_err (w : world) : Z :=
  fst (env_interrupt_transfer (env w) (S (tick w))).

(** The quit flag after a computation, related to the one before. *)
Definition relates (R : Z -> Z -> Prop) {A} (m : M A) : Prop :=
  forall w a w', m w = Some (a, w') -> R (quit w) (quit w').

(** Left alone, or set to [EIO]. *)
Definition sticky (q q' : Z) : Prop := q' = q \/ q' = EIO.

(** Relations on the quit flag that compose along a computation. *)
Class QuitRel (R : Z -> Z -> Prop) : Prop := {
  quit_rel_refl : forall q, R q q;
  quit_rel_trans : forall q1 q2 q3, R q1 q2 -> R q2 q3 -> R q1 q3
}.

(** Pointers out of live transfers are valid: the user data of a transfer
    is an allocated callback context, whose device, if set, is allocated
    and holds no transfer other than this one. *)
Definition heap_ok (w : world) : Prop :=
  forall t tr c,
    transfers w !! t = Some tr -> user_data tr = Some c ->
    exists cd,
      cb_datas w !! c = Some cd /\
      forall p, dev cd = Some p ->
        exists d, devs w !! p = Some d /\ (transfer d = None \/ transfer d = Some t).

(** The wiring [hmcfgusb_init] leaves behind: transfer [t] carries the
    callback context [cd], whose device is the handle [p], whose transfer
    is [t] again. *)
Definition wired (p t : nat) (tr : libusb_transfer) (cd : hmcfgusb_cb_data)
    (d : hmcfgusb_dev) (w : world) : Prop :=
  transfers w !! t = Some tr /\
  (exists c, user_data tr = Some c /\ cb_datas w !! c = Some cd) /\
  dev cd = Some p /\
  devs w !! p = Some d /\
  transfer d = Some t.

Definition is_poll (e : event) : bool :=
  match e with Poll _ _ _ => true | _ => false end.
Definition is_consumer (e : event) : bool :=
  match e with Consumer _ _ _ => true | _ => false end.

(** What a completion callback is told: accept or reject. *)
Definition consumer_rejects (cd : hmcfgusb_cb_data) (tr : libusb_transfer) : bool :=
  match cb cd with
  | Some f => negb (nonzero (f (buffer tr) (actual_length tr) (data cd)))
  | None => false
  end.

(** What precedes the consumer's verdict on a completed buffer. *)
Definition handed_over (w : world) (tr : libusb_transfer) (cd : hmcfgusb_cb_data) : list event :=
  (if nonzero (debug w) then [Hexdump (buffer tr) (actual_length tr) "USB > "] else []) ++
  [Consumer (buffer tr) (actual_length tr) (data cd)].

(** The status is neither "completed" nor "timed out". *)
Definition fatal_status (s : libusb_transfer_status) : bool :=
  status_ne s LIBUSB_TRANSFER_COMPLETED && status_ne s LIBUSB_TRANSFER_TIMED_OUT.

(** ** A concrete channel

    One HM-CFG-USB is attached; libusb watches descriptor 3; the caller
    has registered descriptor 20.  Address 0 is the handle, 1 the callback
    context, 2 the receive transfer. *)

Definition accept_all : hmcfgusb_cb_fn := fun _ _ _ => 1.
Definition reject_all : hmcfgusb_cb_fn := fun _ _ _ => 0.

Definition hm_cfg_usb : usb_device :=
  UsbDevice 0 ID_VENDOR ID_PRODUCT 0 7 LIBUSB_ERROR_NOT_FOUND 0.

(** Nothing fails, nothing happens: no timer, no descriptor ready, no
    completion. *)
Definition calm : environment :=
  Env (fun _ => 0) (fun _ => (1, [hm_cfg_usb])) (fun _ => true)
      (fun _ => Some (Pollfd 0 0 0)) (fun _ => (0, 0)) (fun _ => 0) (fun _ => 0)
      (fun _ => Some [LibusbPollfd 3 1]) (fun _ => (0, Timeval 0 0))
      (fun _ => (0, [])) (fun _ => ([], 0)).

Definition with_interrupt_transfer (f : nat -> Z * Z) (e : environment) : environment :=
  Env (env_init e) (env_device_list e) (env_alloc e) (env_realloc e) f
      (env_submit_transfer e) (env_release_interface e) (env_pollfds e)
      (env_next_timeout e) (env_poll e) (env_handle_events e).
Definition with_submit_transfer (f : nat -> Z) (e : environment) : environment :=
  Env (env_init e) (env_device_list e) (env_alloc e) (env_realloc e)
      (env_interrupt_transfer e) f (env_release_interface e) (env_pollfds e)
      (env_next_timeout e) (env_poll e) (env_handle_events e).
Definition with_realloc (f : nat -> option pollfd) (e : environment) : environment :=
  Env (env_init e) (env_device_list e) (env_alloc e) f
      (env_interrupt_transfer e) (env_submit_transfer e) (env_release_interface e)
      (env_pollfds e) (env_next_timeout e) (env_poll e) (env_handle_events e).
Definition with_next_timeout (f : nat -> Z * timeval) (e : environment) : environment :=
  Env (env_init e) (env_device_list e) (env_alloc e) (env_realloc e)
      (env_interrupt_transfer e) (env_submit_transfer e) (env_release_interface e)
      (env_pollfds e) f (env_poll e) (env_handle_events e).
Definition with_poll (f : nat -> Z * list Z) (e : environment) : environment :=
  Env (env_init e) (env_device_list e) (env_alloc e) (env_realloc e)
      (env_interrupt_transfer e) (env_submit_transfer e) (env_release_interface e)
      (env_pollfds e) (env_next_timeout e) f (env_handle_events e).
Definition with_handle_events (f : nat -> list completion * Z) (e : environment) : environment :=
  Env (env_init e) (env_device_list e) (env_alloc e) (env_realloc e)
      (env_interrupt_transfer e) (env_submit_transfer e) (env_release_interface e)
      (env_pollfds e) (env_next_timeout e) (env_poll e) f.

Definition the_dev : hmcfgusb_dev :=
  Dev (Some 7%nat) (Some 2%nat) 1 2 (Some [Pollfd 3 1 0; Pollfd 20 1 0]).
Definition the_cb_data (f : hmcfgusb_cb_fn) : hmcfgusb_cb_data :=
  CbData (Some 0%nat) (Some f) 0.
Definition the_transfer (s : libusb_transfer_status) (in_flight : bool) : libusb_transfer :=
  Transfer (Some 7%nat) EP_IN ASYNC_SIZE (Some 1%nat) USB_TIMEOUT 3 s [x48; x4d] 2 in_flight.

(** The channel between two wait calls: the transfer is in flight. *)
Definition channel (q : Z) (f : hmcfgusb_cb_fn) (e : environment) : world :=
  World q 0 0 {[0%nat := the_dev]} {[1%nat := the_cb_data f]}
        {[2%nat := the_transfer LIBUSB_TRANSFER_COMPLETED true]} 3 0 [] e.

(** The channel as the completion callback finds it: libusb has taken the
    transfer out of flight and filled in status [s]. *)
Definition completed (s : libusb_transfer_status) (f : hmcfgusb_cb_fn) (e : environment) : world :=
  World 0 0 0 {[0%nat := the_dev]} {[1%nat := the_cb_data f]}
        {[2%nat := the_transfer s false]} 3 0 [] e.

(** libusb refuses every submission with [LIBUSB_ERROR_NO_DEVICE]. *)
Definition refusing : environment := with_submit_transfer (fun _ => -4) calm.

(** Before [hmcfgusb_init]. *)
Definition boot (e : environment) : world := World 0 0 0 ∅ ∅ ∅ 0 0 [] e.

(** The quit flag after a computation, related to the one before and to
    the result. *)
Definition relates_result {A} (R : A -> Z -> Z -> Prop) (m : M A) : Prop :=
  forall w a w', m w = Some (a, w') -> R a (quit w) (quit w').

(** Initialisation clears the flag when it succeeds, and only then. *)
Definition init_quit (r : option nat) (q q' : Z) : Prop :=
  match r with Some _ => q' = 0 | None => q' = q end.

(** The trace grew, and not by a call to poll(2). *)
Definition no_poll (l : list event) : Prop := Forall (fun e => is_poll e = false) l.
Definition extends_quietly (w w' : world) : Prop :=
  exists rest, trace w' = trace w ++ rest /\ no_poll rest.

(** What event servicing leaves behind. *)
Definition serviced (w w' : world) : Prop := heap_ok w' /\ extends_quietly w w'.

(** Everything but the heap of handles is as before. *)
Definition frame_devs (w w' : world) : Prop :=
  quit w' = quit w /\ debug w' = debug w /\ errno w' = errno w /\
  cb_datas w' = cb_datas w /\ transfers w' = transfers w /\ brk w' = brk w /\
  tick w' = tick w /\ trace w' = trace w /\ env w' = env w.

(** Lines 361-373 as a function of libusb's answer: the number of seconds
    the poll step will wait, if there is a poll step. *)
Definition wait_bound (timeout : Z) (answer : Z * timeval) : option Z :=
  let '(err, tv) := answer in
  if err <? 0 then None
  else if err =? 0 then Some timeout
  else if (tv_sec tv =? 0) && (tv_usec tv =? 0) then None
  else Some (tv_sec tv).

(** Lines 388-398 as a function of the array poll(2) has filled in. *)
Fixpoint scan_list (n_usb : Z) (fd_n : Z) (l : list pollfd) : scan :=
  match l with
  | [] => Scan_end
  | e :: rest =>
    if nonzero (revents e) then
      if fd_n <? n_usb then Scan_usb_event else Scan_return (fd e)
    else scan_list n_usb (fd_n + 1) rest
  end.

(** The array after the clearing loop and after poll(2) has answered
    [rev]. *)
Definition polled (rev : list Z) (l : list pollfd) : list pollfd :=
  write_revents rev (length l) (map (set_revents 0) l).

(** What a wait call reports after it has given libusb its window: -1,
    with errno [EIO] if libusb failed (it answered [herr]) and the quit
    flag otherwise.  [pre] are the calls of this wait before the window. *)
Definition serviced_report (w : world) (pre : list event) (herr : Z) (r : Z) (w' : world) : Prop :=
  r = -1 /\
  errno w' = (if herr <? 0 then EIO else quit w') /\
  sticky (quit w) (quit w') /\
  exists rest,
    trace w' = trace w ++ pre ++ Libusb_handle_events (Timeval 0 0) :: rest /\
    no_poll rest.

(** What a wait call that polls for [s] seconds does, by what poll(2)
    and the scan of its answer yield. *)
Definition polling_outcome (w : world) (d : hmcfgusb_dev) (l : list pollfd) (s : Z)
    (r : Z) (w' : world) : Prop :=
  let '(n, rev) := env_poll (env w) (S (tick w)) in
  let call :=
    [Libusb_get_next_timeout;
     Poll (Some (map (set_revents 0) l)) (n_pfd d) (wrap_int (s * 1000))] in
  let herr := snd (env_handle_events (env w) (S (S (tick w)))) in
  if n <? 0 then
    r = -1 /\ errno w' = 0 /\ quit w' = quit w /\
    trace w' = trace w ++ call ++ [Stderr "poll" 0]
  else
    match (if n =? 0 then Scan_usb_event else scan_list (n_usb_pfd d) 0 (polled rev l)) with
    | Scan_return fd =>
      r = fd /\ errno w' = 0 /\ quit w' = quit w /\ trace w' = trace w ++ call
    | Scan_usb_event => serviced_report w call herr r w'
    | Scan_end =>
      r = -1 /\ errno w' = quit w' /\ quit w' = quit w /\
      trace w' = trace w ++ call ++
        (if nonzero (quit w)
         then [Stderr "closing device-connection due to error %d" (quit w)] else [])
    end.

(** The wait bounds handed to poll(2), in milliseconds, in call order. *)
Definition poll_bounds (tr : list event) : list Z :=
  omap (fun e => match e with Poll _ _ ms => Some ms | _ => None end) tr.

(** A [timeval] in full, in the unit of poll(2)'s bound: milliseconds. *)
Definition duration_ms (tv : timeval) : Z := tv_sec tv * 1000 + tv_usec tv / 1000.

(** libusb has a timer due in half a second. *)
Definition half_second : environment :=
  with_next_timeout (fun _ => (1, Timeval 0 500000)) calm.

(** libusb has a timer due now. *)
Definition timer_due : environment :=
  with_next_timeout (fun _ => (1, Timeval 0 0)) calm.

(** libusb has a timer due in three seconds. *)
Definition three_seconds : environment :=
  with_next_timeout (fun _ => (1, Timeval 3 250000)) calm.

(** libusb has a timer due in 2147484 seconds. *)
Definition far_timer : environment :=
  with_next_timeout (fun _ => (1, Timeval 2147484 0)) calm.

(** poll(2) reports both descriptors ready: libusb's own 3 and the
    caller's 20. *)
Definition both_ready : environment := with_poll (fun _ => (2, [1; 1])) calm.

(** poll(2) reports the caller's descriptor 20 ready, and only it. *)
Definition caller_ready : environment := with_poll (fun _ => (1, [0; 1])) calm.

(** Operations one after the other. *)
Fixpoint run_all (os : list operation) (w : world) : option world :=
  match os with
  | [] => Some w
  | o :: rest => run o w ≫= run_all rest
  end.

(** The world after [os], when they are all defined. *)
Definition after (os : list operation) (w : world) : world := default w (run_all os w).

(** A wait call on [w], on a handle with array [l], that no early exit
    with errno 0 cuts short.  If it polls (for [s] seconds), the product
    of line 380 does not overflow, poll(2) does not fail, and the first
    entry that poll(2) reports ready, if there is one, is an
    internally-owned one.  The timeout query and event handling may
    fail. *)
Definition not_cut_short (timeout : Z) (d : hmcfgusb_dev) (l : list pollfd) (w : world) : Prop :=
  forall s, wait_bound timeout (env_next_timeout (env w) (tick w)) = Some s ->
    let rev := snd (env_poll (env w) (S (tick w))) in
    LONG_MIN <= s * 1000 <= LONG_MAX /\
    0 <= fst (env_poll (env w) (S (tick w))) /\
    forall k, (k < length l)%nat ->
      default 0 (rev !! k) <> 0 ->
      (forall j, (j < k)%nat -> default 0 (rev !! j) = 0) ->
      Z.of_nat k < n_usb_pfd d.

(** The first wait call (answers 0, 1, 2) times out in poll(2) and finds
    a completed buffer; nothing happens afterwards. *)
Definition one_buffer : environment :=
  with_handle_events
    (fun t => if (t =? 2)%nat
              then ([Completion 2 LIBUSB_TRANSFER_COMPLETED [x48; x4d] 2], 0)
              else ([], 0))
    calm.

(** The same, and event handling fails from then on. *)
Definition events_fail_later : environment :=
  with_handle_events
    (fun t => if (t =? 2)%nat
              then ([Completion 2 LIBUSB_TRANSFER_COMPLETED [x48; x4d] 2], 0)
              else ([], -1))
    calm.

(** The same, and the second wait call (answers 3, 4) finds the caller's
    descriptor 20 ready. *)
Definition one_buffer_then_caller_ready : environment :=
  with_poll (fun t => if (t =? 4)%nat then (1, [0; 1]) else (0, [])) one_buffer.

(** A process in which an earlier channel has left the flag set. *)
Definition stale : world := World EIO 0 0 ∅ ∅ ∅ 0 0 [] calm.

(** The data transfer of a send call is accepted, the terminator (the
    second answer) times out. *)
Definition terminator_fails : environment :=
  with_interrupt_transfer (fun t => if (t =? 1)%nat then (-7, 0) else (0, 1)) calm.

(** The allocator cannot grow anything. *)
Definition out_of_memory : environment := with_realloc (fun _ => None) calm.

(** ** Vocabulary of the further properties *)

(** The synchronous transfers in a trace: endpoint, buffer, length and
    timeout of each, in call order. *)
Definition sent (tr : list event) : list (Z * list byte * Z * Z) :=
  omap (fun e => match e with
                 | Libusb_interrupt_transfer _ ep buf len timeout => Some (ep, buf, len, timeout)
                 | _ => None
                 end) tr.

(** A trace without its diagnostic hex dumps. *)
Definition is_hexdump (e : event) : bool :=
  match e with Hexdump _ _ _ => true | _ => false end.
Definition without_hexdump (tr : list event) : list event :=
  List.filter (fun e => negb (is_hexdump e)) tr.

Definition is_submit (e : event) : bool :=
  match e with Libusb_submit_transfer _ => true | _ => false end.

(** The completion carries status "completed". *)
Definition completed_ok (tr : libusb_transfer) : bool :=
  negb (status_ne (status tr) LIBUSB_TRANSFER_COMPLETED).

(** The completion is one the callback gives up on: a status that is
    neither "completed" nor "timed out", or a completed buffer that the
    consumer rejects. *)
Definition gives_up (cd : hmcfgusb_cb_data) (tr : libusb_transfer) : bool :=
  fatal_status (status tr) || (completed_ok tr && consumer_rejects cd tr).

(** A device that [hmcfgusb_find] stops at: its descriptor can be read
    and carries the vendor and product identifiers of the HM-CFG-USB. *)
Definition is_hmcfgusb (d : usb_device) : bool :=
  negb (nonzero (descriptor_err d)) &&
  ((idVendor d =? ID_VENDOR) && (idProduct d =? ID_PRODUCT)).

(** Opening, detaching the kernel driver (its absence is no error) and
    claiming the interface all work. *)
Definition can_be_claimed (d : usb_device) : bool :=
  (open_err d =? 0) &&
  ((detach_err d =? 0) || (detach_err d =? LIBUSB_ERROR_NOT_FOUND)) &&
  (claim_err d =? 0).

(** The devices opened in a trace. *)
Definition opened (tr : list event) : list usb_device :=
  omap (fun e => match e with Libusb_open d => Some d | _ => None end) tr.

(** Everything but the trace and the count of answers is as before. *)
Definition only_talks (w w' : world) : Prop :=
  quit w' = quit w /\ debug w' = debug w /\ errno w' = errno w /\
  devs w' = devs w /\ cb_datas w' = cb_datas w /\ transfers w' = transfers w /\
  brk w' = brk w /\ env w' = env w.

(** A hub is listed first on the bus, a second HM-CFG-USB whose interface
    is taken comes last; the one in between is free. *)
Definition usb_hub : usb_device := UsbDevice 0 0x1d6b 0x0002 0 4 0 0.
Definition taken_hm_cfg_usb : usb_device :=
  UsbDevice 0 ID_VENDOR ID_PRODUCT 0 9 0 (-6).
Definition behind_a_hub : environment :=
  Env (env_init calm) (fun _ => (3, [usb_hub; hm_cfg_usb; taken_hm_cfg_usb]))
      (env_alloc calm) (env_realloc calm) (env_interrupt_transfer calm)
      (env_submit_transfer calm) (env_release_interface calm) (env_pollfds calm)
      (env_next_timeout calm) (env_poll calm) (env_handle_events calm).

(** The receive transfer as [hmcfgusb_prepare_int] leaves it once libusb
    has accepted it: filled in for the IN endpoint, flagged, in flight. *)
Definition receive_transfer (devh cb_data : option nat) : libusb_transfer :=
  Transfer devh EP_IN ASYNC_SIZE cb_data USB_TIMEOUT
    (Z.lor LIBUSB_TRANSFER_SHORT_NOT_OK LIBUSB_TRANSFER_FREE_BUFFER)
    LIBUSB_TRANSFER_COMPLETED [] 0 true.

(** The buffer and the transfer object can be allocated and libusb accepts
    the submission: the three answers [hmcfgusb_prepare_int] asks for. *)
Definition can_arm (w : world) : bool :=
  env_alloc (env w) (tick w) && env_alloc (env w) (S (tick w)) &&
  (env_submit_transfer (env w) (S (S (tick w))) =? 0).

(** The allocator has no memory left. *)
Definition exhausted : environment :=
  Env (env_init calm) (env_device_list calm) (fun _ => false) (env_realloc calm)
      (env_interrupt_transfer calm) (env_submit_transfer calm)
      (env_release_interface calm) (env_pollfds calm) (env_next_timeout calm)
      (env_poll calm) (env_handle_events calm).

(** The entry [hmcfgusb_init] makes for a descriptor that libusb watches. *)
Definition watched (u : libusb_pollfd) : pollfd := Pollfd (usb_fd u) (usb_events u) 0.

(** The answers that take [hmcfgusb_init] past arming the receive engine,
    in the order it asks: libusb starts; the first HM-CFG-USB on the bus
    is [d] and can be claimed; the handle, the callback context, the data
    buffer and the transfer object can be allocated; the submission is
    accepted. *)
Definition init_can_arm (w : world) (d : usb_device) : Prop :=
  let e := env w in
  let t := tick w in
  env_init e t = 0 /\
  (exists l, env_device_list e (1 + t) = (Z.of_nat (length l), l) /\
             List.find is_hmcfgusb l = Some d) /\
  can_be_claimed d = true /\
  env_alloc e (2 + t) = true /\
  env_alloc e (3 + t) = true /\
  env_alloc e (4 + t) = true /\
  env_alloc e (5 + t) = true /\
  env_submit_transfer e (6 + t) = 0.

(** The answers that let it run to its end: then libusb names the
    descriptors [usb] to watch, and their array can be allocated. *)
Definition init_can_succeed (w : world) (d : usb_device) (usb : list libusb_pollfd) : Prop :=
  init_can_arm w d /\
  env_pollfds (env w) (7 + tick w) = Some usb /\
  Z.of_nat (length usb) <= INT_MAX /\
  env_alloc (env w) (8 + tick w) = true.

(** libusb cannot name its descriptors. *)
Definition no_pollfds : environment :=
  Env (env_init calm) (env_device_list calm) (env_alloc calm) (env_realloc calm)
      (env_interrupt_transfer calm) (env_submit_transfer calm)
      (env_release_interface calm) (fun _ => None) (env_next_timeout calm)
      (env_poll calm) (env_handle_events calm).

(** libusb cannot tell when its next timer is due. *)
Definition no_timeout_answer : environment :=
  with_next_timeout (fun _ => (-99, Timeval 0 0)) calm.

(** poll(2) fails. *)
Definition poll_fails : environment := with_poll (fun _ => (-1, [])) calm.

(** A series of registration requests (descriptor and interest mask) on
    one handle, and the entries they are to make. *)
Definition registrations (dev : nat) (reqs : list (Z * Z)) : list operation :=
  map (fun r => Op_add_pfd dev (fst r) (snd r)) reqs.
Definition registered (reqs : list (Z * Z)) : list pollfd :=
  map (fun r => Pollfd (fst r) (snd r) 0) reqs.

(** What a handle watches: the descriptor and the interest mask of each
    entry of its array. *)
Definition watch_list (d : hmcfgusb_dev) : list (Z * Z) :=
  (fun e => (fd e, events e)) <$> default [] (pfd d).

(** Two states of a handle that differ at most in the readiness of the
    entries and in a transfer pointer that has been cleared. *)
Definition same_registrations (d d' : hmcfgusb_dev) : Prop :=
  usb_devh d' = usb_devh d /\ n_usb_pfd d' = n_usb_pfd d /\ n_pfd d' = n_pfd d /\
  null (pfd d') = null (pfd d) /\ watch_list d' = watch_list d /\
  (transfer d' = transfer d \/ transfer d' = None).

(** Every handle is still allocated, with the registrations it had; the
    callback contexts are as they were; a transfer that is still there
    has the user data it had. *)
Definition keeps_channels (w w' : world) : Prop :=
  (forall p d, devs w !! p = Some d ->
     exists d', devs w' !! p = Some d' /\ same_registrations d d') /\
  cb_datas w' = cb_datas w /\
  (forall t tr', transfers w' !! t = Some tr' ->
     exists tr, transfers w !! t = Some tr /\ user_data tr = user_data tr') /\
  env w' = env w.

(** A relation between the world before and the world after, for every
    outcome of a computation. *)
Definition along (R : world -> world -> Prop) {A} (m : M A) : Prop :=
  forall w a w', m w = Some (a, w') -> R w w'.

(** The answers of libusb and the caller's timeouts stay within what the
    arithmetic of the wait call can hold. *)
Definition timers_in_range (e : environment) : Prop :=
  forall k, LONG_MIN <= tv_sec (snd (env_next_timeout e k)) * 1000 <= LONG_MAX.
Definition is_int (z : Z) : Prop := - INT_MAX - 1 <= z <= INT_MAX.

(** Wait calls on one handle, one for each timeout. *)
Definition waits (dev : nat) (timeouts : list Z) : list operation :=
  map (Op_poll dev) timeouts.

(** The hex dumps of the completion callback: a completed buffer is
    dumped when a consumer is registered and the debug switch is on, and
    always when there is no consumer. *)
Definition dumped (w : world) (cd : hmcfgusb_cb_data) (tr : libusb_transfer) : list event :=
  if completed_ok tr then
    match cb cd with
    | Some _ =>
      if nonzero (debug w) then [Hexdump (buffer tr) (actual_length tr) "USB > "] else []
    | None => [Hexdump (buffer tr) (actual_length tr) "> "]
    end
  else [].

(** The channel of a caller that registered no consumer, as the
    completion callback finds it with a completed buffer. *)
Definition unattended : world :=
  World 0 0 0 {[0%nat := the_dev]} {[1%nat := CbData (Some 0%nat) None 0]}
        {[2%nat := the_transfer LIBUSB_TRANSFER_COMPLETED false]} 3 0 [] calm.

(** The calls that undo what initialisation sets up. *)
Definition is_release (e : event) : bool :=
  match e with
  | Libusb_close _ | Libusb_exit | Libusb_release_interface _ _
  | Libusb_cancel_transfer _ => true
  | _ => false
  end.

(** The trace grew by calls that all satisfy [P]. *)
Definition says (P : event -> Prop) (w w' : world) : Prop :=
  exists rest, trace w' = trace w ++ rest /\ Forall P rest.

(** The first HM-CFG-USB on the bus cannot be claimed. *)
Definition only_taken : environment :=
  Env (env_init calm) (fun _ => (2, [usb_hub; taken_hm_cfg_usb]))
      (env_alloc calm) (env_realloc calm) (env_interrupt_transfer calm)
      (env_submit_transfer calm) (env_release_interface calm) (env_pollfds calm)
      (env_next_timeout calm) (env_poll calm) (env_handle_events calm).

(** The handle that an operation reads before anything else. *)
Definition handle_of (o : operation) : option nat :=
  match o with
  | Op_send dev _ _ _ | Op_add_pfd dev _ _ | Op_close dev => Some dev
  | _ => None
  end.

(** * Reasoning principles *)

Lemma wp_elim {A} (m : M A) Q w :
  wp m Q w -> exists a w', m w = Some (a, w') /\ Q a w'.
Proof.
  unfold wp. destruct (m w) as [[a w']|]; [eauto | tauto].
Qed.

Lemma wp_intro {A} (m : M A) (Q : A -> world -> Prop) w a w' :
  m w = Some (a, w') -> Q a w' -> wp m Q w.
Proof. unfold wp. intros ->. auto. Qed.

Lemma wp_mono {A} (m : M A) (Q Q' : A -> world -> Prop) w :
  (forall a w', Q a w' -> Q' a w') -> wp m Q w -> wp m Q' w.
Proof. unfold wp. destruct (m w) as [[a w']|]; auto. Qed.

Lemma wp_ret {A} (a : A) Q w : Q a w -> wp (mret a) Q w.
Proof. auto. Qed.

Lemma wp_bind {A B} (m : M A) (k : A -> M B) Q w :
  wp m (fun a w' => wp (k a) Q w') w -> wp (m ≫= k) Q w.
Proof.
  unfold wp, mbind, M_bind. destruct (m w) as [[a w']|]; auto.
Qed.

Lemma wp_gets {A} (f : world -> A) Q w : Q (f w) w -> wp (gets f) Q w.
Proof. auto. Qed.

Lemma wp_modify f Q w : Q tt (f w) -> wp (modify f) Q w.
Proof. auto. Qed.

Lemma wp_emit e Q w : Q tt (set_trace (trace w ++ [e]) w) -> wp (emit e) Q w.
Proof. auto. Qed.

Lemma wp_ask {A} (oracle : environment -> nat -> A) Q w :
  Q (oracle (env w) (tick w)) (set_tick (S (tick w)) w) -> wp (ask oracle) Q w.
Proof. auto. Qed.

Lemma wp_load_dev p d Q w : devs w !! p = Some d -> Q d w -> wp (load_dev p) Q w.
Proof. unfold wp, load_dev. intros ->. auto. Qed.

Lemma wp_store_dev p d d' Q w :
  devs w !! p = Some d -> Q tt (set_devs (<[p:=d']> (devs w)) w) -> wp (store_dev p d') Q w.
Proof. unfold wp, store_dev. intros ->. auto. Qed.

Lemma nonzero_true z : nonzero z = true <-> z <> 0.
Proof. unfold nonzero. destruct (Z.eqb_spec z 0); simpl; split; congruence. Qed.

Lemma nonzero_false z : nonzero z = false <-> z = 0.
Proof. unfold nonzero. destruct (Z.eqb_spec z 0); simpl; split; congruence. Qed.

(** Projections of an updated world. *)
Ltac wsimpl :=
  cbn [quit debug errno devs cb_datas transfers brk tick trace env
       set_quit set_debug set_errno set_devs set_cb_datas set_transfers
       set_brk set_tick set_trace fst snd
       usb_devh transfer n_usb_pfd n_pfd pfd
       set_usb_devh set_transfer set_n_usb_pfd set_n_pfd set_pfd
       fd events revents set_fd set_events set_revents] in *.

(** One step of symbolic execution. *)
Ltac wp_prim :=
  lazymatch goal with
  | |- wp (_ ≫= _) _ _ => apply wp_bind
  | |- wp (mret _) _ _ => apply wp_ret
  | |- wp (gets _) _ _ => apply wp_gets
  | |- wp (modify _) _ _ => apply wp_modify
  | |- wp (emit _) _ _ => apply wp_emit
  | |- wp (fprintf_stderr _ _) _ _ => apply wp_emit
  | |- wp (hexdump _ _ _) _ _ => apply wp_emit
  | |- wp (ask _) _ _ => apply wp_ask
  | |- wp (load_dev _) _ _ =>
    eapply wp_load_dev; [wsimpl; first [eassumption | apply lookup_insert_eq] |]
  | |- wp (store_dev _ _) _ _ =>
    eapply wp_store_dev; [wsimpl; first [eassumption | apply lookup_insert_eq] |]
  end.

Ltac wp_go := repeat (wp_prim; wsimpl).

(** * The send path *)

(** What a send call does, case by case. *)
Lemma hmcfgusb_send_spec usbdev send_data len done w d :
  devs w !! usbdev = Some d ->
  let dump := if nonzero (debug w) then [Hexdump send_data len "USB < "] else [] in
  let first := Libusb_interrupt_transfer (usb_devh d) EP_OUT send_data len USB_TIMEOUT in
  let last := Libusb_interrupt_transfer (usb_devh d) EP_OUT send_data 0 USB_TIMEOUT in
  wp (hmcfgusb_send usbdev send_data len done)
     (fun r w' =>
        quit w' = quit w /\ devs w' = devs w /\
        if nonzero (first_transfer_err w) then
          r = 0 /\
          trace w' = trace w ++ dump ++
            [first; Stderr "Can't send data: %s" (first_transfer_err w)]
        else if nonzero done then
          if nonzero (terminator_err w) then
            r = 0 /\
            trace w' = trace w ++ dump ++
              [first; last; Stderr "Can't send data: %s" (terminator_err w)]
          else r = 1 /\ trace w' = trace w ++ dump ++ [first; last]
        else r = 1 /\ trace w' = trace w ++ dump ++ [first]) w.
Proof.
  intros Hd. unfold hmcfgusb_send, first_transfer_err, terminator_err.
  wp_go. unfold when.
  destruct (nonzero (debug w)); wp_go;
    unfold libusb_interrupt_transfer; wp_go;
    destruct (env_interrupt_transfer (env w) (tick w)) as [e1 c1]; wsimpl;
    (destruct (nonzero e1); wp_go;
     [ | destruct (nonzero done); wp_go;
         [ destruct (env_interrupt_transfer (env w) (S (tick w))) as [e2 c2]; wsimpl;
           destruct (nonzero e2); wp_go | ] ]);
    repeat split; rewrite <- ?app_assoc; reflexivity.
Qed.


(** C9. A send call, whatever its outcome, leaves the quit flag as it
    found it: the outcome is in the return value alone. *)
Theorem hmcfgusb_send_keeps_quit usbdev send_data len done w d :
  devs w !! usbdev = Some d ->
  exists r w',
    hmcfgusb_send usbdev send_data len done w = Some (r, w') /\
    (r = 1 \/ r = 0) /\
    quit w' = quit w.
Proof.
  intros Hd.
  destruct (wp_elim _ _ _ (hmcfgusb_send_spec usbdev send_data len done w d Hd))
    as (r & w' & Hrun & Hq & _ & H).
  exists r, w'. repeat split; [exact Hrun | | exact Hq].
  destruct (nonzero (first_transfer_err w)); [tauto|].
  destruct (nonzero done); [destruct (nonzero (terminator_err w))|]; tauto.
Qed.

(** * Descriptor registration *)

Lemma wp_load_pfd p i d l e Q w :
  devs w !! p = Some d -> pfd d = Some l -> 0 <= i ->
  l !! Z.to_nat i = Some e -> Q e w -> wp (load_pfd p i) Q w.
Proof.
  intros Hd Hl Hi He HQ. unfold load_pfd. wp_go. rewrite Hl.
  destruct (Z.ltb_spec i 0); [lia|]. rewrite He. wp_go. exact HQ.
Qed.

Lemma wp_store_pfd p i d l e Q w :
  devs w !! p = Some d -> pfd d = Some l -> 0 <= i < Z.of_nat (length l) ->
  Q tt (set_devs (<[p:=set_pfd (Some (<[Z.to_nat i:=e]> l)) d]> (devs w)) w) ->
  wp (store_pfd p i e) Q w.
Proof.
  intros Hd Hl Hi HQ. unfold store_pfd. wp_go. rewrite Hl.
  destruct (Z.ltb_spec i 0); [lia|].
  destruct (Z.leb_spec (Z.of_nat (length l)) i); [lia|].
  cbn [orb]. wp_go. exact HQ.
Qed.

Lemma wp_incr_int x Q w : x < INT_MAX -> Q (x + 1) w -> wp (incr_int x) Q w.
Proof.
  intros Hx HQ. unfold incr_int. destruct (Z.ltb_spec x INT_MAX); [|lia]. wp_go. exact HQ.
Qed.

(** A refused registration: the count is already incremented and the
    array pointer overwritten when the failure is noticed. *)
Lemma hmcfgusb_add_pfd_refused dev fd events w d :
  devs w !! dev = Some d -> n_pfd d < INT_MAX ->
  env_realloc (env w) (tick w) = None ->
  wp (hmcfgusb_add_pfd dev fd events)
     (fun r w' =>
        r = 0 /\
        devs w' = <[dev:=set_pfd None (set_n_pfd (n_pfd d + 1) d)]> (devs w) /\
        quit w' = quit w /\
        trace w' = trace w ++ [Realloc; Stderr "Can't realloc poll-fds" (errno w)]) w.
Proof.
  intros Hd Hmax Hr.
  unfold hmcfgusb_add_pfd. wp_go. apply wp_incr_int; [exact Hmax|]. wp_go.
  unfold realloc_pfd. wp_go. rewrite Hr. wp_go.
  cbn [null]. unfold perror. wp_go.
  rewrite insert_insert_eq, <- app_assoc. auto.
Qed.

(** An accepted registration: the array is resized to the new count,
    and the three fields of its last entry are written. *)
Lemma hmcfgusb_add_pfd_accepted dev fd events w d junk :
  devs w !! dev = Some d -> 0 <= n_pfd d < INT_MAX ->
  env_realloc (env w) (tick w) = Some junk ->
  wp (hmcfgusb_add_pfd dev fd events)
     (fun r w' =>
        r = 1 /\
        devs w' =
          <[dev:=set_pfd
                   (Some (<[Z.to_nat (n_pfd d):=Pollfd fd events 0]>
                            (resize (Z.to_nat (n_pfd d + 1)) junk (default [] (pfd d)))))
                   (set_n_pfd (n_pfd d + 1) d)]> (devs w) /\
        quit w' = quit w /\
        trace w' = trace w ++ [Realloc]) w.
Proof.
  intros Hd Hn Hr.
  unfold hmcfgusb_add_pfd. wp_go. apply wp_incr_int; [lia|]. wp_go.
  unfold realloc_pfd. wp_go. rewrite Hr. wp_go. cbn [null].
  set (a := resize _ _ _).
  assert (Hlen : length a = Z.to_nat (n_pfd d + 1)) by apply length_resize.
  assert (Hi : 0 <= n_pfd d + 1 - 1 < Z.of_nat (length a)) by lia.
  assert (Hlt : (Z.to_nat (n_pfd d + 1 - 1) < length a)%nat) by lia.
  destruct (lookup_lt_is_Some_2 a _ Hlt) as [e0 He0].
  repeat first
    [ progress wp_go
    | eapply wp_load_pfd;
      [ wsimpl; apply lookup_insert_eq | reflexivity | lia
      | first [ exact He0 | apply list_lookup_insert_eq; rewrite ?length_insert; exact Hlt ] | ]
    | eapply wp_store_pfd;
      [ wsimpl; apply lookup_insert_eq | reflexivity | rewrite ?length_insert; exact Hi | ] ].
  rewrite !insert_insert_eq, !list_insert_insert_eq.
  replace (n_pfd d + 1 - 1) with (n_pfd d) by lia.
  destruct e0; auto.
Qed.

(** C8. A successful registration appends the new entry (descriptor,
    interest mask, readiness cleared) at the end of the descriptor list;
    every entry that was there keeps its value and its position, and the
    count of internally-owned entries is unchanged. *)
Theorem hmcfgusb_add_pfd_appends dev fd events w d r w' :
  devs w !! dev = Some d ->
  Z.of_nat (length (default [] (pfd d))) <= n_pfd d < INT_MAX ->
  hmcfgusb_add_pfd dev fd events w = Some (r, w') ->
  r <> 0 ->
  r = 1 /\
  exists d' l',
    devs w' !! dev = Some d' /\ pfd d' = Some l' /\
    last l' = Some (Pollfd fd events 0) /\
    (forall i e, default [] (pfd d) !! i = Some e -> l' !! i = Some e) /\
    n_usb_pfd d' = n_usb_pfd d /\
    n_pfd d' = n_pfd d + 1 /\
    Z.of_nat (length l') = n_pfd d' /\
    (pfd_consistent d -> l' = default [] (pfd d) ++ [Pollfd fd events 0]).
Proof.
  intros Hd Hn Hrun Hr.
  assert (Hn0 : 0 <= n_pfd d < INT_MAX) by lia.
  assert (Hmax : n_pfd d < INT_MAX) by lia.
  destruct (env_realloc (env w) (tick w)) as [junk|] eqn:Ha.
  - destruct (wp_elim _ _ _ (hmcfgusb_add_pfd_accepted dev fd events w d junk Hd Hn0 Ha))
      as (r0 & w0 & Hrun0 & -> & Hdevs & _).
    rewrite Hrun in Hrun0. injection Hrun0 as -> ->.
    split; [reflexivity|].
    set (l := default [] (pfd d)) in *.
    assert (Hres : resize (Z.to_nat (n_pfd d + 1)) junk l =
                   l ++ replicate (Z.to_nat (n_pfd d) - length l) junk ++ [junk]).
    { rewrite resize_ge by lia.
      replace (Z.to_nat (n_pfd d + 1) - length l)%nat
        with ((Z.to_nat (n_pfd d) - length l) + 1)%nat by lia.
      rewrite replicate_add. reflexivity. }
    assert (Hnew : <[Z.to_nat (n_pfd d):=Pollfd fd events 0]>
                     (resize (Z.to_nat (n_pfd d + 1)) junk l) =
                   l ++ replicate (Z.to_nat (n_pfd d) - length l) junk ++ [Pollfd fd events 0]).
    { rewrite Hres, !app_assoc.
      rewrite insert_app_r_alt by (rewrite length_app, length_replicate; lia).
      rewrite length_app, length_replicate.
      replace (Z.to_nat (n_pfd d) - (length l + (Z.to_nat (n_pfd d) - length l)))%nat
        with 0%nat by lia.
      reflexivity. }
    eexists _, _. rewrite Hdevs, lookup_insert_eq. wsimpl.
    split; [reflexivity|]. split; [reflexivity|].
    rewrite Hnew. repeat split.
    + rewrite app_assoc. apply last_snoc.
    + intros i e Hi. apply lookup_app_l_Some. exact Hi.
    + rewrite !length_app, length_replicate. cbn [length]. wsimpl. lia.
    + unfold pfd_consistent. fold l. intros Hc.
      replace (Z.to_nat (n_pfd d) - length l)%nat with 0%nat by lia. reflexivity.
  - destruct (wp_elim _ _ _ (hmcfgusb_add_pfd_refused dev fd events w d Hd Hmax Ha))
      as (r0 & w0 & Hrun0 & -> & _).
    rewrite Hrun in Hrun0. injection Hrun0 as -> ->. contradiction.
Qed.

(** C10. A registration that fails because the array cannot be grown
    answers 0, yet it has already incremented the handle's count and
    overwritten the array pointer with null: the count no longer matches
    the (now empty) list. *)
Theorem hmcfgusb_add_pfd_failure_breaks_count dev fd events w d :
  devs w !! dev = Some d ->
  0 <= n_pfd d < INT_MAX ->
  env_realloc (env w) (tick w) = None ->
  exists w' d',
    hmcfgusb_add_pfd dev fd events w = Some (0, w') /\
    devs w' !! dev = Some d' /\
    n_pfd d' = n_pfd d + 1 /\
    pfd d' = None /\
    n_usb_pfd d' = n_usb_pfd d /\
    ~ pfd_consistent d'.
Proof.
  intros Hd Hn Ha.
  assert (Hmax : n_pfd d < INT_MAX) by lia.
  destruct (wp_elim _ _ _ (hmcfgusb_add_pfd_refused dev fd events w d Hd Hmax Ha))
    as (r & w' & Hrun & -> & Hdevs & _).
  exists w'. eexists. split; [exact Hrun|].
  rewrite Hdevs, lookup_insert_eq. split; [reflexivity|].
  unfold pfd_consistent. wsimpl. cbn [default length]. repeat split. lia.
Qed.

(** * The receive engine *)

Lemma wp_load_transfer p t Q w :
  transfers w !! p = Some t -> Q t w -> wp (load_transfer p) Q w.
Proof. unfold wp, load_transfer. intros ->. auto. Qed.

Lemma wp_store_transfer p t t' Q w :
  transfers w !! p = Some t -> Q tt (set_transfers (<[p:=t']> (transfers w)) w) ->
  wp (store_transfer p t') Q w.
Proof. unfold wp, store_transfer. intros ->. auto. Qed.

Lemma wp_load_cb_data p c Q w :
  cb_datas w !! p = Some c -> Q c w -> wp (load_cb_data p) Q w.
Proof. unfold wp, load_cb_data. intros ->. auto. Qed.

Ltac wp_heap :=
  lazymatch goal with
  | |- wp (load_transfer _) _ _ =>
    eapply wp_load_transfer; [wsimpl; first [eassumption | apply lookup_insert_eq] |]
  | |- wp (store_transfer _ _) _ _ =>
    eapply wp_store_transfer; [wsimpl; first [eassumption | apply lookup_insert_eq] |]
  | |- wp (load_cb_data _) _ _ =>
    eapply wp_load_cb_data; [wsimpl; eassumption |]
  | |- _ => wp_prim
  end.

Ltac wp_run := repeat (wp_heap; wsimpl).

Lemma wp_free_transfer t tr Q w :
  transfers w !! t = Some tr ->
  Q tt (set_transfers (delete t (transfers w))
          (set_trace (trace w ++ [Libusb_free_transfer t]) w)) ->
  wp (libusb_free_transfer t) Q w.
Proof. intros Ht HQ. unfold libusb_free_transfer. wp_run. exact HQ. Qed.

Lemma wp_submit_transfer t tr Q w :
  transfers w !! t = Some tr ->
  (let err := env_submit_transfer (env w) (tick w) in
   let w1 := set_tick (S (tick w)) (set_trace (trace w ++ [Libusb_submit_transfer t]) w) in
   Q err (if err =? 0
          then set_transfers (<[t:=set_submitted true tr]> (transfers w)) w1
          else w1)) ->
  wp (libusb_submit_transfer t) Q w.
Proof.
  intros Ht HQ. unfold libusb_submit_transfer. wp_run. unfold when.
  cbv zeta in HQ.
  destruct (env_submit_transfer (env w) (tick w) =? 0); wp_run; exact HQ.
Qed.

(** Resubmission (lines 244-248): accepted, the transfer is in flight
    again; refused, it is freed, and nothing else is touched. *)
Lemma wp_resubmit t tr w :
  transfers w !! t = Some tr ->
  wp (resubmit t)
     (fun _ w' =>
        let err := env_submit_transfer (env w) (tick w) in
        quit w' = quit w /\ devs w' = devs w /\ cb_datas w' = cb_datas w /\
        transfers w' =
          (if err =? 0 then <[t:=set_submitted true tr]> (transfers w)
           else delete t (transfers w)) /\
        trace w' = trace w ++ Libusb_submit_transfer t ::
          (if err =? 0 then []
           else [Stderr "Can't re-submit transfer: %s" err; Libusb_free_transfer t])) w.
Proof.
  intros Ht. unfold resubmit. wp_run.
  eapply wp_submit_transfer; [exact Ht|]. cbv zeta. unfold when, nonzero.
  destruct (env_submit_transfer (env w) (tick w) =? 0) eqn:E; cbn [negb]; wp_run.
  - auto 10.
  - eapply wp_free_transfer; [wsimpl; exact Ht|]. wsimpl.
    rewrite <- !app_assoc. auto 10.
Qed.

(** Lines 218-221 and 232-235 on the wiring of [hmcfgusb_init]: the
    handle's transfer is freed and its pointer cleared. *)
Lemma wp_free_dev_transfer p t tr cd d w :
  wired p t tr cd d w ->
  wp (free_dev_transfer (user_data tr))
     (fun _ w' =>
        quit w' = quit w /\ cb_datas w' = cb_datas w /\
        devs w' = <[p:=set_transfer None d]> (devs w) /\
        transfers w' = delete t (transfers w) /\
        trace w' = trace w ++ [Libusb_free_transfer t]) w.
Proof.
  intros (Ht & (c & Hu & Hc) & Hp & Hd & Hdt).
  unfold free_dev_transfer. rewrite Hu. wp_run. rewrite Hp. wp_run. rewrite Hdt.
  wp_run. eapply wp_free_transfer; [exact Ht|]. wp_run. auto 10.
Qed.

Lemma wired_completed s f e :
  wired 0 2 (the_transfer s false) (the_cb_data f) the_dev (completed s f e).
Proof. repeat split. exists 1%nat. split; reflexivity. Qed.

(** A heap with one transfer, wired as [hmcfgusb_init] does, is in order. *)
Lemma heap_ok_single p t tr cd d w :
  transfers w = {[t := tr]} -> wired p t tr cd d w -> heap_ok w.
Proof.
  intros Hm (_ & (c & Hu & Hc) & Hp & Hd & Hdt) t' tr' c' Ht' Hu'.
  rewrite Hm in Ht'. apply lookup_singleton_Some in Ht' as [<- <-].
  rewrite Hu in Hu'. injection Hu' as <-.
  exists cd. split; [exact Hc|].
  intros p' Hp'. rewrite Hp in Hp'. injection Hp' as <-.
  exists d. auto.
Qed.

(** The concrete channel is what initialisation and one registration
    build. *)
Example init_add_pfd_builds_channel :
  exists w1 w2,
    hmcfgusb_init (Some accept_all) 0 (boot calm) = Some (Some 0%nat, w1) /\
    hmcfgusb_add_pfd 0 20 1 w1 = Some (1, w2) /\
    quit w2 = 0 /\
    devs w2 = devs (channel 0 accept_all calm) /\
    cb_datas w2 = cb_datas (channel 0 accept_all calm) /\
    engine 0 w2 = ARMED.
Proof.
  eexists _, _. split; [vm_compute; reflexivity|].
  split; [vm_compute; reflexivity|].
  repeat split.
Qed.

Lemma hmcfgusb_interrupt_unfold t tr w :
  transfers w !! t = Some tr ->
  hmcfgusb_interrupt t w =
  (if status_ne (status tr) LIBUSB_TRANSFER_COMPLETED then
     if status_ne (status tr) LIBUSB_TRANSFER_TIMED_OUT then
       fprintf_stderr "Interrupt transfer not completed: %d!" (status_code (status tr));;
       modify (set_quit EIO);;
       free_dev_transfer (user_data tr)
     else resubmit t
   else
     consumer ← consumer_of (user_data tr);
     match consumer with
     | Some (f, opaque) =>
       dbg ← gets debug;
       when (nonzero dbg) (hexdump (buffer tr) (actual_length tr) "USB > ");;
       emit (Consumer (buffer tr) (actual_length tr) opaque);;
       if negb (nonzero (f (buffer tr) (actual_length tr) opaque)) then
         modify (set_quit EIO);;
         free_dev_transfer (user_data tr)
       else resubmit t
     | None =>
       hexdump (buffer tr) (actual_length tr) "> ";;
       resubmit t
     end) w.
Proof.
  intros Ht. unfold hmcfgusb_interrupt at 1.
  unfold mbind at 1, M_bind at 1, load_transfer at 1. rewrite Ht. reflexivity.
Qed.

(** Transition (a): a completion whose status is neither "completed" nor
    "timed out" latches [EIO], frees the transfer and clears the handle's
    pointer to it. *)
Lemma hmcfgusb_interrupt_fatal_status p t tr cd d w :
  wired p t tr cd d w ->
  fatal_status (status tr) = true ->
  wp (hmcfgusb_interrupt t)
     (fun _ w' =>
        quit w' = EIO /\ cb_datas w' = cb_datas w /\
        devs w' = <[p:=set_transfer None d]> (devs w) /\
        transfers w' = delete t (transfers w) /\
        trace w' = trace w ++
          [Stderr "Interrupt transfer not completed: %d!" (status_code (status tr));
           Libusb_free_transfer t]) w.
Proof.
  intros Hw Hs. pose proof Hw as (Ht & _).
  unfold hmcfgusb_interrupt. wp_run.
  unfold fatal_status in Hs. apply andb_true_iff in Hs as [-> ->].
  wp_run. eapply wp_mono; [|apply (wp_free_dev_transfer p t tr cd d)].
  - intros _ w' (Hq & Hc & Hd & Hts & Htr). wsimpl. rewrite Htr, <- app_assoc. auto 10.
  - destruct Hw as (? & ? & ? & ? & ?). repeat split; assumption.
Qed.

Lemma wp_consumer_of tr c cd Q w :
  user_data tr = Some c -> cb_datas w !! c = Some cd ->
  Q (match cb cd with Some f => Some (f, data cd) | None => None end) w ->
  wp (consumer_of (user_data tr)) Q w.
Proof. intros Hu Hc HQ. unfold consumer_of. rewrite Hu. wp_run. exact HQ. Qed.

(** Transition (b): a completed buffer that the consumer rejects latches
    [EIO], frees the transfer and clears the handle's pointer to it. *)
Lemma hmcfgusb_interrupt_rejected p t tr cd d w :
  wired p t tr cd d w ->
  status tr = LIBUSB_TRANSFER_COMPLETED ->
  consumer_rejects cd tr = true ->
  wp (hmcfgusb_interrupt t)
     (fun _ w' =>
        quit w' = EIO /\ cb_datas w' = cb_datas w /\
        devs w' = <[p:=set_transfer None d]> (devs w) /\
        transfers w' = delete t (transfers w) /\
        trace w' = trace w ++ handed_over w tr cd ++ [Libusb_free_transfer t]) w.
Proof.
  intros Hw Hs Hrej.
  destruct Hw as (Ht & (c & Hu & Hc) & Hp & Hd & Hdt).
  unfold hmcfgusb_interrupt. wp_run.
  rewrite Hs. cbn [status_ne status_code Z.eqb negb].
  wp_run. eapply wp_consumer_of; [exact Hu | exact Hc |].
  unfold consumer_rejects in Hrej. destruct (cb cd) as [f|]; [|discriminate].
  wp_run. rewrite Hrej. unfold when, handed_over.
  destruct (nonzero (debug w)); wp_run;
    (eapply wp_mono; [|apply (wp_free_dev_transfer p t tr cd d);
                        repeat split; wsimpl; eauto]);
    intros _ w' (Hq' & Hc' & Hd' & Ht' & Htr'); wsimpl;
    rewrite Htr', <- !app_assoc; auto 10.
Qed.

(** A timed-out completion goes straight to resubmission. *)
Lemma hmcfgusb_interrupt_timed_out t tr w :
  transfers w !! t = Some tr ->
  status tr = LIBUSB_TRANSFER_TIMED_OUT ->
  hmcfgusb_interrupt t w = resubmit t w.
Proof.
  intros Ht Hs. rewrite (hmcfgusb_interrupt_unfold t tr w Ht), Hs. reflexivity.
Qed.

(** A completed buffer that is accepted, or that nobody consumes, is
    followed by resubmission. *)
Lemma hmcfgusb_interrupt_accepted t tr c cd w :
  transfers w !! t = Some tr ->
  user_data tr = Some c -> cb_datas w !! c = Some cd ->
  status tr = LIBUSB_TRANSFER_COMPLETED ->
  consumer_rejects cd tr = false ->
  wp (hmcfgusb_interrupt t)
     (fun _ w' =>
        let err := env_submit_transfer (env w) (tick w) in
        let pre :=
          match cb cd with
          | Some _ => handed_over w tr cd
          | None => [Hexdump (buffer tr) (actual_length tr) "> "]
          end in
        quit w' = quit w /\ devs w' = devs w /\ cb_datas w' = cb_datas w /\
        transfers w' =
          (if err =? 0 then <[t:=set_submitted true tr]> (transfers w)
           else delete t (transfers w)) /\
        trace w' = trace w ++ pre ++ Libusb_submit_transfer t ::
          (if err =? 0 then []
           else [Stderr "Can't re-submit transfer: %s" err; Libusb_free_transfer t])) w.
Proof.
  intros Ht Hu Hc Hs Hacc.
  unfold hmcfgusb_interrupt. wp_run.
  rewrite Hs. cbn [status_ne status_code Z.eqb negb].
  wp_run. eapply wp_consumer_of; [exact Hu | exact Hc |].
  unfold consumer_rejects in Hacc. unfold handed_over.
  destruct (cb cd) as [f|].
  - wp_run. rewrite Hacc. unfold when.
    destruct (nonzero (debug w)); wp_run;
      (eapply wp_mono; [|apply (wp_resubmit t tr); wsimpl; exact Ht]);
      intros _ w' (Hq' & Hd' & Hc' & Ht' & Htr'); wsimpl;
      rewrite Htr', <- !app_assoc; auto 10.
  - wp_run.
    eapply wp_mono; [|apply (wp_resubmit t tr); wsimpl; exact Ht].
    intros _ w' (Hq' & Hd' & Hc' & Ht' & Htr'); wsimpl.
    rewrite Htr', <- !app_assoc. auto 10.
Qed.




(** The two DEAD transitions that latch the flag, together. *)
Lemma hmcfgusb_interrupt_dead_transition p t tr cd d w :
  wired p t tr cd d w ->
  fatal_status (status tr) = true \/
  (status tr = LIBUSB_TRANSFER_COMPLETED /\ consumer_rejects cd tr = true) ->
  exists w',
    hmcfgusb_interrupt t w = Some (tt, w') /\
    quit w' = EIO /\ quit w' <> 0 /\
    transfers w' !! t = None /\
    devs w' !! p = Some (set_transfer None d) /\
    engine p w' = DEAD.
Proof.
  intros Hw Hcase.
  assert (wp (hmcfgusb_interrupt t)
            (fun _ w' => quit w' = EIO /\ devs w' = <[p:=set_transfer None d]> (devs w) /\
                         transfers w' = delete t (transfers w)) w) as H.
  { destruct Hcase as [Hs | [Hs Hr]].
    - eapply wp_mono; [|apply (hmcfgusb_interrupt_fatal_status p t tr cd d w Hw Hs)].
      cbv beta. tauto.
    - eapply wp_mono; [|apply (hmcfgusb_interrupt_rejected p t tr cd d w Hw Hs Hr)].
      cbv beta. tauto. }
  apply wp_elim in H as ([] & w' & Hrun & Hq & Hd & Ht).
  exists w'. split; [exact Hrun|]. split; [exact Hq|]. split; [rewrite Hq; discriminate|].
  rewrite Ht, Hd, lookup_delete_eq, lookup_insert_eq. repeat split.
  unfold engine. rewrite Hd, lookup_insert_eq. reflexivity.
Qed.

(** C1. The third DEAD transition does not latch the flag.  The channel
    is ARMED with the flag clear; libusb delivers a completed buffer, the
    consumer accepts it, and libusb refuses the resubmission: the transfer
    is freed and the engine is DEAD, but the quit flag is still 0, and the
    handle still points to the freed transfer. *)
Theorem refused_resubmission_leaves_quit_clear :
  exists w',
    engine 0 (channel 0 accept_all refusing) = ARMED /\
    deliver (Completion 2 LIBUSB_TRANSFER_COMPLETED [x48; x4d] 2)
            (channel 0 accept_all refusing) = Some (tt, w') /\
    engine 0 w' = DEAD /\
    transfers w' !! 2%nat = None /\
    quit w' = 0 /\
    transfer <$> devs w' !! 0%nat = Some (Some 2%nat).
Proof.
  eexists. split; [reflexivity|]. split; [vm_compute; reflexivity|].
  repeat split.
Qed.

(** * The quit flag across computations *)

Global Instance eq_quit_rel : QuitRel eq.
Proof. split; congruence. Qed.

Global Instance sticky_quit_rel : QuitRel sticky.
Proof.
  split; unfold sticky; [auto|]. intros q1 q2 q3 [-> | ->] [-> | ->]; auto.
Qed.

Section QuitRelation.
Context (R : Z -> Z -> Prop) `{!QuitRel R}.

Lemma relates_ret {A} (a : A) : relates R (mret a).
Proof. intros w a' w' [= <- <-]. apply quit_rel_refl. Qed.

Lemma relates_bind {A B} (m : M A) (k : A -> M B) :
  relates R m -> (forall a, relates R (k a)) -> relates R (m ≫= k).
Proof.
  intros Hm Hk w b w'. unfold mbind, M_bind.
  destruct (m w) as [[a w1]|] eqn:E; [|discriminate].
  intros Hb. eapply quit_rel_trans; [eapply Hm, E | eapply Hk, Hb].
Qed.

Lemma relates_undefined {A} : relates R (@undefined A).
Proof. intros w a w'. discriminate. Qed.

(** A computation that does not write the flag. *)
Lemma relates_frame {A} (m : M A) :
  (forall w, match m w with Some (_, w') => quit w' = quit w | None => True end) ->
  relates R m.
Proof.
  intros H w a w' E. specialize (H w). rewrite E in H. rewrite H. apply quit_rel_refl.
Qed.

Lemma relates_gets {A} (f : world -> A) : relates R (gets f).
Proof. apply relates_frame. reflexivity. Qed.

Lemma relates_emit e : relates R (emit e).
Proof. apply relates_frame. reflexivity. Qed.

Lemma relates_ask {A} (o : environment -> nat -> A) : relates R (ask o).
Proof. apply relates_frame. reflexivity. Qed.

Lemma relates_modify f : (forall w, quit (f w) = quit w) -> relates R (modify f).
Proof. intros H. apply relates_frame. intros w. apply H. Qed.

Lemma relates_load_dev p : relates R (load_dev p).
Proof. apply relates_frame. intros w. unfold load_dev. destruct (devs w !! p); auto. Qed.

Lemma relates_store_dev p d : relates R (store_dev p d).
Proof. apply relates_frame. intros w. unfold store_dev. destruct (devs w !! p); auto. Qed.

Lemma relates_load_cb_data p : relates R (load_cb_data p).
Proof.
  apply relates_frame. intros w. unfold load_cb_data. destruct (cb_datas w !! p); auto.
Qed.

Lemma relates_store_cb_data p c : relates R (store_cb_data p c).
Proof.
  apply relates_frame. intros w. unfold store_cb_data. destruct (cb_datas w !! p); auto.
Qed.

Lemma relates_load_transfer p : relates R (load_transfer p).
Proof.
  apply relates_frame. intros w. unfold load_transfer. destruct (transfers w !! p); auto.
Qed.

Lemma relates_store_transfer p t : relates R (store_transfer p t).
Proof.
  apply relates_frame. intros w. unfold store_transfer. destruct (transfers w !! p); auto.
Qed.

Lemma relates_for_count n i body :
  (forall j, relates R (body j)) -> relates R (for_count n i body).
Proof.
  intros Hb. revert i. induction n as [|n IH]; intros i; cbn [for_count].
  - apply relates_ret.
  - apply relates_bind; [apply Hb | intros _; apply IH].
Qed.
End QuitRelation.

(** Decomposes a computation along its syntax. *)
Ltac relates_step :=
  first
    [ apply relates_ret; solve [typeclasses eauto]
    | apply relates_undefined
    | apply relates_gets; solve [typeclasses eauto]
    | apply relates_emit; solve [typeclasses eauto]
    | apply relates_ask; solve [typeclasses eauto]
    | apply relates_load_dev; solve [typeclasses eauto]
    | apply relates_store_dev; solve [typeclasses eauto]
    | apply relates_load_cb_data; solve [typeclasses eauto]
    | apply relates_store_cb_data; solve [typeclasses eauto]
    | apply relates_load_transfer; solve [typeclasses eauto]
    | apply relates_store_transfer; solve [typeclasses eauto]
    | apply relates_modify; [solve [typeclasses eauto] | intros; reflexivity]
    | apply relates_for_count; [solve [typeclasses eauto] | intros]
    | apply relates_bind; [solve [typeclasses eauto] | | intros]
    | lazymatch goal with
      | |- relates _ (if ?c then _ else _) => destruct c
      | |- relates _ (match ?x with _ => _ end) => destruct x
      end
    | progress unfold when, perror, hexdump, fprintf_stderr, load_pfd, store_pfd,
        incr_int, mul_long, malloc_dev, malloc_cb_data, malloc_pfd, free_dev,
        realloc_pfd, libusb_interrupt_transfer, libusb_alloc_transfer,
        libusb_fill_interrupt_transfer, libusb_submit_transfer, libusb_free_transfer,
        libusb_cancel_transfer, libusb_get_pollfds, poll, consumer_of,
        free_dev_transfer, resubmit ].

Ltac relates_go := repeat relates_step.

Lemma hmcfgusb_send_relates R `{!QuitRel R} usbdev send_data len done :
  relates R (hmcfgusb_send usbdev send_data len done).
Proof. unfold hmcfgusb_send. relates_go. Qed.

Lemma hmcfgusb_add_pfd_relates R `{!QuitRel R} dev fd events :
  relates R (hmcfgusb_add_pfd dev fd events).
Proof. unfold hmcfgusb_add_pfd. relates_go. Qed.

Lemma hmcfgusb_close_relates R `{!QuitRel R} dev :
  relates R (hmcfgusb_close dev).
Proof. unfold hmcfgusb_close. relates_go. Qed.

Lemma hmcfgusb_set_debug_relates R `{!QuitRel R} d :
  relates R (hmcfgusb_set_debug d).
Proof. unfold hmcfgusb_set_debug. relates_go. Qed.

(** The completion callback writes the flag, and only ever [EIO]. *)
Lemma set_quit_EIO_sticky : relates sticky (modify (set_quit EIO)).
Proof. intros w a w' [= <- <-]. right. reflexivity. Qed.

Lemma hmcfgusb_interrupt_sticky t : relates sticky (hmcfgusb_interrupt t).
Proof.
  unfold hmcfgusb_interrupt.
  repeat first [apply set_quit_EIO_sticky | relates_step].
Qed.

Lemma deliver_sticky c : relates sticky (deliver c).
Proof.
  unfold deliver. repeat first [apply hmcfgusb_interrupt_sticky | relates_step].
Qed.

Lemma dispatch_sticky cs : relates sticky (dispatch cs).
Proof.
  induction cs as [|c cs IH]; cbn [dispatch].
  - relates_go.
  - apply relates_bind; [typeclasses eauto | apply deliver_sticky | intros _; exact IH].
Qed.

Lemma libusb_handle_events_sticky tv :
  relates sticky (libusb_handle_events_timeout_completed tv).
Proof.
  unfold libusb_handle_events_timeout_completed.
  repeat first [apply dispatch_sticky | relates_step].
Qed.

Lemma service_and_report_sticky usb_event : relates sticky (service_and_report usb_event).
Proof.
  unfold service_and_report, report_quit.
  repeat first [apply libusb_handle_events_sticky | relates_step].
Qed.

Lemma scan_revents_relates R `{!QuitRel R} n fd_n dev :
  relates R (scan_revents n fd_n dev).
Proof.
  revert fd_n. induction n as [|n IH]; intros fd_n; cbn [scan_revents].
  - relates_go.
  - repeat first [apply IH | relates_step].
Qed.

Lemma hmcfgusb_poll_sticky dev timeout : relates sticky (hmcfgusb_poll dev timeout).
Proof.
  unfold hmcfgusb_poll.
  repeat first
    [apply service_and_report_sticky | apply (scan_revents_relates sticky) | relates_step].
Qed.

(** No operation but initialisation clears a flag that is set. *)
Lemma run_sticky o w w' :
  is_init o = false -> run o w = Some w' -> sticky (quit w) (quit w').
Proof.
  intros Ho Hrun. destruct o; try discriminate; cbn [run] in Hrun;
    apply fmap_Some in Hrun as ([r w1] & Hrun & ->); cbn [snd].
  - eapply (hmcfgusb_send_relates sticky), Hrun.
  - eapply (hmcfgusb_add_pfd_relates sticky), Hrun.
  - eapply hmcfgusb_poll_sticky, Hrun.
  - eapply (hmcfgusb_close_relates sticky), Hrun.
  - eapply (hmcfgusb_set_debug_relates sticky), Hrun.
Qed.

(** * Initialisation and the quit flag *)

Lemma relates_result_bind {A B} (R : B -> Z -> Z -> Prop) (m : M A) (k : A -> M B) :
  relates eq m -> (forall a, relates_result R (k a)) -> relates_result R (m ≫= k).
Proof.
  intros Hm Hk w b w'. unfold mbind, M_bind.
  destruct (m w) as [[a w1]|] eqn:E; [|discriminate].
  intros Hb. rewrite (Hm _ _ _ E). eapply Hk, Hb.
Qed.

Lemma hmcfgusb_find_loop_frame n i list : relates eq (hmcfgusb_find_loop n i list).
Proof.
  revert i. induction n as [|n IH]; intros i; cbn [hmcfgusb_find_loop].
  - relates_go.
  - repeat first [apply IH | relates_step].
Qed.

Lemma hmcfgusb_find_frame : relates eq hmcfgusb_find.
Proof.
  unfold hmcfgusb_find. repeat first [apply hmcfgusb_find_loop_frame | relates_step].
Qed.

Lemma hmcfgusb_prepare_int_frame devh cb_data :
  relates eq (hmcfgusb_prepare_int devh cb_data).
Proof. unfold hmcfgusb_prepare_int. relates_go. Qed.

Lemma count_usb_pfd_frame p usb_pfd : relates eq (count_usb_pfd p usb_pfd).
Proof.
  induction usb_pfd as [|u rest IH]; cbn [count_usb_pfd].
  - relates_go.
  - repeat first [apply IH | relates_step].
Qed.

Lemma copy_usb_pfd_frame p usb_pfd i : relates eq (copy_usb_pfd p usb_pfd i).
Proof. unfold copy_usb_pfd. relates_go. Qed.

Ltac init_step :=
  first
    [ apply relates_result_bind;
      [ first [ apply hmcfgusb_find_frame | apply hmcfgusb_prepare_int_frame
              | apply count_usb_pfd_frame
              | unfold for_lt; apply relates_for_count;
                [typeclasses eauto | intros; apply copy_usb_pfd_frame]
              | solve [relates_go] ]
      | intros ]
    | lazymatch goal with
      | |- relates_result _ (if ?c then _ else _) => destruct c
      | |- relates_result _ (match ?x with _ => _ end) => destruct x
      end ].

(** [hmcfgusb_init] writes the flag once, as its last step before
    returning the handle; every failure path leaves it alone. *)
Lemma hmcfgusb_init_quit cb data : relates_result init_quit (hmcfgusb_init cb data).
Proof.
  unfold hmcfgusb_init. repeat init_step.
  all: intros w0 r0 w0' H; unfold mbind, M_bind, mret, M_ret, modify in H;
    injection H as <- <-; reflexivity.
Qed.

(** * Event servicing is defined on a heap in order *)

Lemma extends_quietly_refl w : extends_quietly w w.
Proof. exists []. split; [symmetry; apply app_nil_r | constructor]. Qed.

Lemma extends_quietly_trans w1 w2 w3 :
  extends_quietly w1 w2 -> extends_quietly w2 w3 -> extends_quietly w1 w3.
Proof.
  intros (r1 & H1 & Q1) (r2 & H2 & Q2). exists (r1 ++ r2).
  split; [rewrite H2, H1, app_assoc; reflexivity | apply Forall_app; auto].
Qed.

Lemma extends_quietly_by w w' more :
  trace w' = trace w ++ more -> forallb (fun e => negb (is_poll e)) more = true ->
  extends_quietly w w'.
Proof.
  intros H Hq. exists more. split; [exact H|].
  unfold no_poll. rewrite forallb_forall in Hq. apply List.Forall_forall.
  intros e He. specialize (Hq e He). destruct (is_poll e); [discriminate | reflexivity].
Qed.

(** Transfers may disappear or change anything but their user data, and
    handles may drop their transfer: the heap stays in order. *)
Lemma heap_ok_shrink w w' :
  heap_ok w ->
  cb_datas w' = cb_datas w ->
  (forall t tr', transfers w' !! t = Some tr' ->
     exists tr, transfers w !! t = Some tr /\ user_data tr = user_data tr') ->
  (forall p d, devs w !! p = Some d ->
     exists d', devs w' !! p = Some d' /\ (transfer d' = transfer d \/ transfer d' = None)) ->
  heap_ok w'.
Proof.
  intros Hok Hc Ht Hd t tr' c Htr' Hu'.
  destruct (Ht t tr' Htr') as (tr & Htr & Hu).
  destruct (Hok t tr c Htr ltac:(congruence)) as (cd & Hcd & Hdev).
  exists cd. split; [rewrite Hc; exact Hcd|].
  intros p Hp. destruct (Hdev p Hp) as (d & Hdp & Hdt).
  destruct (Hd p d Hdp) as (d' & Hd' & Hdt').
  exists d'. split; [exact Hd'|].
  destruct Hdt' as [-> | ->]; auto.
Qed.

Lemma lookup_insert_same_user_data (m : gmap nat libusb_transfer) t tr tr' t0 tr0 :
  m !! t = Some tr -> user_data tr' = user_data tr ->
  <[t:=tr']> m !! t0 = Some tr0 ->
  exists tr1, m !! t0 = Some tr1 /\ user_data tr1 = user_data tr0.
Proof.
  intros Ht Hu. rewrite lookup_insert. case_decide as E.
  - subst t0. intros [= <-]. eauto.
  - eauto.
Qed.

Lemma lookup_delete_same_user_data (m : gmap nat libusb_transfer) t t0 tr0 :
  delete t m !! t0 = Some tr0 ->
  exists tr1, m !! t0 = Some tr1 /\ user_data tr1 = user_data tr0.
Proof.
  rewrite lookup_delete. case_decide; [discriminate | eauto].
Qed.

Lemma resubmit_serviced t tr w :
  heap_ok w -> transfers w !! t = Some tr ->
  wp (resubmit t) (fun _ w' => serviced w w') w.
Proof.
  intros Hok Ht. eapply wp_mono; [|apply (wp_resubmit t tr w Ht)].
  intros [] w' H. cbv zeta in H. destruct H as (_ & Hd & Hc & Hts & Htr). split.
  - apply (heap_ok_shrink w w' Hok Hc).
    + intros t0 tr0. rewrite Hts.
      destruct (env_submit_transfer (env w) (tick w) =? 0).
      * apply (lookup_insert_same_user_data _ t tr); [exact Ht | reflexivity].
      * apply lookup_delete_same_user_data.
    + intros p d Hp. rewrite Hd. eauto.
  - eapply extends_quietly_by; [exact Htr|].
    destruct (env_submit_transfer (env w) (tick w) =? 0); reflexivity.
Qed.

Lemma free_dev_transfer_serviced t tr w :
  heap_ok w -> transfers w !! t = Some tr ->
  wp (free_dev_transfer (user_data tr)) (fun _ w' => serviced w w') w.
Proof.
  intros Hok Ht. unfold free_dev_transfer.
  destruct (user_data tr) as [c|] eqn:Hu;
    [|wp_run; split; [exact Hok | apply extends_quietly_refl]].
  destruct (Hok t tr c Ht Hu) as (cd & Hcd & Hdev).
  wp_run. destruct (dev cd) as [p|] eqn:Hp;
    [|wp_run; split; [exact Hok | apply extends_quietly_refl]].
  destruct (Hdev p eq_refl) as (d & Hd & Hdt).
  wp_run. destruct Hdt as [Hdt | Hdt]; rewrite Hdt;
    [wp_run; split; [exact Hok | apply extends_quietly_refl]|].
  wp_run. eapply wp_free_transfer; [exact Ht|]. wp_run. split.
  - apply (heap_ok_shrink w _ Hok); wsimpl.
    + reflexivity.
    + intros t0 tr0. apply lookup_delete_same_user_data.
    + intros p0 d0 Hp0. rewrite lookup_insert. case_decide as E.
      * subst p0. eexists. split; [reflexivity|]. right. reflexivity.
      * eauto.
  - eapply extends_quietly_by; [wsimpl; reflexivity | reflexivity].
Qed.

Lemma serviced_after w w1 w' :
  extends_quietly w w1 -> serviced w1 w' -> serviced w w'.
Proof.
  intros H [Hok Hq]. split; [exact Hok | eapply extends_quietly_trans; eassumption].
Qed.

Ltac quiet_prefix := eapply extends_quietly_by; [wsimpl; rewrite <- ?app_assoc; reflexivity | reflexivity].

Lemma hmcfgusb_interrupt_serviced t tr w :
  heap_ok w -> transfers w !! t = Some tr ->
  wp (hmcfgusb_interrupt t) (fun _ w' => serviced w w') w.
Proof.
  intros Hok Ht. unfold hmcfgusb_interrupt. wp_run.
  destruct (status_ne (status tr) LIBUSB_TRANSFER_COMPLETED).
  - destruct (status_ne (status tr) LIBUSB_TRANSFER_TIMED_OUT).
    + wp_run.
      eapply wp_mono; [|apply (free_dev_transfer_serviced t tr); [exact Hok | exact Ht]].
      intros [] w'. apply serviced_after. quiet_prefix.
    + apply (resubmit_serviced t tr w Hok Ht).
  - wp_run. unfold consumer_of.
    destruct (user_data tr) as [c|] eqn:Hu.
    + destruct (Hok t tr c Ht Hu) as (cd & Hcd & _). wp_run.
      destruct (cb cd) as [f|].
      * wp_run. unfold when.
        destruct (nonzero (debug w)); wp_run;
          (destruct (negb (nonzero (f (buffer tr) (actual_length tr) (data cd))));
           [ wp_run; rewrite <- Hu;
             (eapply wp_mono;
              [|apply (free_dev_transfer_serviced t tr); [exact Hok | exact Ht]])
           | eapply wp_mono; [|apply (resubmit_serviced t tr); [exact Hok | exact Ht]] ]);
          intros [] w'; apply serviced_after; quiet_prefix.
      * wp_run.
        eapply wp_mono; [|apply (resubmit_serviced t tr); [exact Hok | exact Ht]].
        intros [] w'. apply serviced_after. quiet_prefix.
    + wp_run.
      eapply wp_mono; [|apply (resubmit_serviced t tr); [exact Hok | exact Ht]].
      intros [] w'. apply serviced_after. quiet_prefix.
Qed.

Lemma deliver_serviced c w :
  heap_ok w -> wp (deliver c) (fun _ w' => serviced w w') w.
Proof.
  intros Hok. unfold deliver. wp_run.
  destruct (transfers w !! c_transfer c) as [tr|] eqn:Ht;
    [|wp_run; split; [exact Hok | apply extends_quietly_refl]].
  destruct (submitted tr);
    [|wp_run; split; [exact Hok | apply extends_quietly_refl]].
  wp_run.
  assert (Hok1 : heap_ok (set_transfers (<[c_transfer c:=complete c tr]> (transfers w)) w)).
  { apply (heap_ok_shrink w _ Hok); wsimpl; [reflexivity | | eauto].
    intros t0 tr0. apply (lookup_insert_same_user_data _ _ tr); [exact Ht | reflexivity]. }
  eapply wp_mono;
    [|apply (hmcfgusb_interrupt_serviced _ (complete c tr) _ Hok1); wsimpl;
      apply lookup_insert_eq].
  intros [] w'. apply serviced_after.
  exists []. split; [wsimpl; symmetry; apply app_nil_r | constructor].
Qed.

Lemma dispatch_serviced cs w :
  heap_ok w -> wp (dispatch cs) (fun _ w' => serviced w w') w.
Proof.
  revert w. induction cs as [|c cs IH]; intros w Hok; cbn [dispatch].
  - wp_run. split; [exact Hok | apply extends_quietly_refl].
  - wp_run. eapply wp_mono; [|apply (deliver_serviced c w Hok)].
    intros [] w1 [Hok1 Hq1]. eapply wp_mono; [|apply (IH w1 Hok1)].
    intros [] w'. apply serviced_after. exact Hq1.
Qed.

(** Lines 402-418 with [usb_event] set: libusb gets its zero-length
    window; unless it fails, the call reports the quit flag in errno. *)
Lemma service_and_report_serviced w :
  heap_ok w ->
  wp (service_and_report true)
     (fun r w' =>
        r = -1 /\
        errno w' = (if snd (env_handle_events (env w) (tick w)) <? 0 then EIO else quit w') /\
        heap_ok w' /\
        exists rest,
          trace w' = trace w ++ Libusb_handle_events (Timeval 0 0) :: rest /\
          no_poll rest) w.
Proof.
  intros Hok. unfold service_and_report, report_quit, libusb_handle_events_timeout_completed.
  wp_run. destruct (env_handle_events (env w) (tick w)) as [cs err]. wsimpl. wp_run.
  eapply wp_mono; [|apply dispatch_serviced; exact Hok].
  intros [] w1 (Hok1 & rest & Htr & Hq). wsimpl. wp_run.
  destruct (err <? 0); wp_run.
  - repeat split; [exact Hok1|].
    exists (rest ++ [Stderr "libusb_handle_events_timeout_completed: %s" err]).
    rewrite Htr, <- !app_assoc. split; [reflexivity|].
    apply Forall_app. split; [exact Hq | repeat constructor].
  - unfold when. destruct (nonzero (quit w1)) eqn:Eq; wp_run.
    + repeat split; [exact Hok1|].
      exists (rest ++ [Stderr "closing device-connection due to error %d" (quit w1)]).
      rewrite Htr, <- !app_assoc. split; [reflexivity|].
      apply Forall_app. split; [exact Hq | repeat constructor].
    + apply nonzero_false in Eq. repeat split; [congruence | exact Hok1|].
      exists rest. rewrite Htr, <- !app_assoc. split; [reflexivity | exact Hq].
Qed.

(** Lines 402-418 with [usb_event] clear: the report alone. *)
Lemma service_and_report_idle w :
  wp (service_and_report false)
     (fun r w' =>
        r = -1 /\ errno w' = quit w' /\ quit w' = quit w /\ devs w' = devs w /\
        trace w' = trace w ++
          (if nonzero (quit w)
           then [Stderr "closing device-connection due to error %d" (quit w)] else [])) w.
Proof.
  unfold service_and_report, report_quit. wp_run.
  unfold when. destruct (nonzero (quit w)) eqn:Eq; wp_run.
  - auto.
  - apply nonzero_false in Eq. rewrite app_nil_r. auto.
Qed.

(** * The multiplexer *)

Lemma frame_devs_refl w : frame_devs w w.
Proof. repeat split. Qed.

Lemma frame_devs_trans w1 w2 w3 : frame_devs w1 w2 -> frame_devs w2 w3 -> frame_devs w1 w3.
Proof. unfold frame_devs. intros H1 H2. intuition congruence. Qed.

Lemma frame_devs_set_devs m w : frame_devs w (set_devs m w).
Proof. repeat split. Qed.

(** Rewriting a handle's descriptor array keeps the heap in order. *)
Lemma heap_ok_set_pfd w w' p d a :
  heap_ok w -> frame_devs w w' -> devs w !! p = Some d ->
  devs w' = <[p:=set_pfd a d]> (devs w) -> heap_ok w'.
Proof.
  intros Hok (_ & _ & _ & Hc & Ht & _) Hd Hds.
  apply (heap_ok_shrink w w' Hok Hc).
  - intros t tr. rewrite Ht. eauto.
  - intros p0 d0 Hp0. rewrite Hds, lookup_insert. case_decide as E.
    + subst p0. rewrite Hd in Hp0. injection Hp0 as <-. eexists. split; [reflexivity|]. auto.
    + eauto.
Qed.

(** Lines 376-378: the loop clears [revents] entry by entry; [done] is
    the part of the array already behind the index. *)
Lemma clear_revents_loop dev todo : forall done w d,
  devs w !! dev = Some d -> pfd d = Some (done ++ todo) ->
  wp (for_count (length todo) (Z.of_nat (length done))
        (fun i => e ← load_pfd dev i; store_pfd dev i (set_revents 0 e)))
     (fun _ w' =>
        frame_devs w w' /\
        devs w' = <[dev:=set_pfd (Some (done ++ map (set_revents 0) todo)) d]> (devs w)) w.
Proof.
  induction todo as [|e todo IH]; intros done w d Hd Hl; cbn [length for_count map].
  - wp_run. split; [apply frame_devs_refl|].
    rewrite <- Hl. destruct d. wsimpl. rewrite insert_id; [reflexivity | exact Hd].
  - wp_run.
    eapply wp_load_pfd; [exact Hd | exact Hl | lia | | ].
    { rewrite Nat2Z.id. apply list_lookup_middle. reflexivity. }
    wp_run.
    eapply wp_store_pfd; [exact Hd | exact Hl | rewrite length_app; cbn [length]; lia | ].
    wp_run. rewrite Nat2Z.id.
    rewrite insert_app_r_alt, Nat.sub_diag by lia. cbn [insert list_insert].
    set (e' := set_revents 0 e).
    set (w1 := set_devs _ w).
    specialize (IH (done ++ [e']) w1 (set_pfd (Some (done ++ e' :: todo)) d)).
    replace (Z.of_nat (length done) + 1) with (Z.of_nat (length (done ++ [e'])))
      by (rewrite length_app; cbn [length]; lia).
    eapply wp_mono; [|apply IH].
    + intros [] w' [Hf Hds]. split.
      * eapply frame_devs_trans; [apply frame_devs_set_devs | exact Hf].
      * rewrite Hds. subst w1. wsimpl. rewrite insert_insert_eq, <- app_assoc. reflexivity.
    + subst w1. wsimpl. apply lookup_insert_eq.
    + wsimpl. rewrite <- app_assoc. reflexivity.
Qed.

Lemma clear_revents_spec dev w d l :
  devs w !! dev = Some d -> pfd d = Some l -> n_pfd d = Z.of_nat (length l) ->
  wp (for_lt 0 (n_pfd d)
        (fun i => e ← load_pfd dev i; store_pfd dev i (set_revents 0 e)))
     (fun _ w' =>
        frame_devs w w' /\
        devs w' = <[dev:=set_pfd (Some (map (set_revents 0) l)) d]> (devs w)) w.
Proof.
  intros Hd Hl Hn. unfold for_lt. rewrite Hn, Z.sub_0_r, Nat2Z.id.
  apply (clear_revents_loop dev l [] w d Hd Hl).
Qed.

(** poll(2) on a consistent array. *)
Lemma wp_poll dev ms w d l Q :
  devs w !! dev = Some d -> pfd d = Some l -> n_pfd d = Z.of_nat (length l) ->
  (let '(n, rev) := env_poll (env w) (tick w) in
   let w1 := set_tick (S (tick w)) (set_trace (trace w ++ [Poll (Some l) (n_pfd d) ms]) w) in
   Q n (if n <? 0 then w1
        else set_devs (<[dev:=set_pfd (Some (write_revents rev (length l) l)) d]> (devs w)) w1)) ->
  wp (poll dev ms) Q w.
Proof.
  intros Hd Hl Hn HQ. unfold poll. wp_run. rewrite Hl.
  destruct (env_poll (env w) (tick w)) as [n rev]. wsimpl.
  destruct (n <? 0); wp_run; [exact HQ|].
  destruct (Z.ltb_spec (Z.of_nat (length l)) (n_pfd d)); [lia|].
  wp_run. rewrite Hn, Nat2Z.id. rewrite Hn in HQ. exact HQ.
Qed.

(** Lines 388-398: the loop agrees with [scan_list] on the entries ahead
    of the index, and writes errno only when it returns a descriptor. *)
Lemma scan_revents_spec dev todo : forall done w d,
  devs w !! dev = Some d -> pfd d = Some (done ++ todo) ->
  wp (scan_revents (length todo) (Z.of_nat (length done)) dev)
     (fun s w' =>
        s = scan_list (n_usb_pfd d) (Z.of_nat (length done)) todo /\
        w' = match s with Scan_return _ => set_errno 0 w | _ => w end) w.
Proof.
  induction todo as [|e todo IH]; intros done w d Hd Hl; cbn [length scan_revents scan_list].
  - wp_run. auto.
  - wp_run.
    eapply wp_load_pfd; [exact Hd | exact Hl | lia | | ].
    { rewrite Nat2Z.id. apply list_lookup_middle. reflexivity. }
    wp_run. destruct (nonzero (revents e)).
    + wp_run. destruct (Z.of_nat (length done) <? n_usb_pfd d); wp_run; [auto|].
      eapply wp_load_pfd; [exact Hd | exact Hl | lia | | ].
      { rewrite Nat2Z.id. apply list_lookup_middle. reflexivity. }
      wp_run. auto.
    + specialize (IH (done ++ [e]) w d Hd).
      replace (Z.of_nat (length done) + 1) with (Z.of_nat (length (done ++ [e])))
        by (rewrite length_app; cbn [length]; lia).
      apply IH. rewrite <- app_assoc. exact Hl.
Qed.

Lemma polled_eq rev l :
  polled rev l = imap (fun i e => Pollfd (fd e) (events e) (default 0 (rev !! i))) l.
Proof.
  unfold polled, write_revents.
  rewrite take_ge, drop_ge, app_nil_r by (rewrite length_map; lia).
  rewrite imap_fmap. apply imap_ext. intros i e _. reflexivity.
Qed.

Lemma polled_length rev l : length (polled rev l) = length l.
Proof. rewrite polled_eq. apply length_imap. Qed.

Lemma polled_lookup rev l i e :
  l !! i = Some e ->
  polled rev l !! i = Some (Pollfd (fd e) (events e) (default 0 (rev !! i))).
Proof. intros H. rewrite polled_eq, list_lookup_imap, H. reflexivity. Qed.

Lemma wp_relates {A} (R : Z -> Z -> Prop) (m : M A) Q w :
  relates R m -> wp m Q w -> wp m (fun a w' => Q a w' /\ R (quit w) (quit w')) w.
Proof.
  intros HR H. destruct (wp_elim _ _ _ H) as (a & w' & Hrun & HQ).
  eapply wp_intro; [exact Hrun|]. split; [exact HQ | eapply HR, Hrun].
Qed.

(** Servicing from a world that differs from [w0] by the calls [pre]. *)
Lemma service_and_report_from w0 pre w :
  heap_ok w -> quit w = quit w0 -> env w = env w0 -> trace w = trace w0 ++ pre ->
  wp (service_and_report true)
     (serviced_report w0 pre (snd (env_handle_events (env w0) (tick w)))) w.
Proof.
  intros Hok Hq He Htr.
  eapply wp_mono;
    [|apply (wp_relates sticky);
      [apply service_and_report_sticky | apply (service_and_report_serviced w Hok)]].
  intros r w' [(-> & Herr & _ & rest & Hrest & Hquiet) Hst].
  rewrite He in Herr. rewrite Hq in Hst. rewrite Htr in Hrest.
  split; [reflexivity|]. split; [exact Herr|]. split; [exact Hst|].
  exists rest. rewrite Hrest, <- app_assoc. auto.
Qed.

(** A wait call that polls: lines 375-418 in full. *)
Lemma hmcfgusb_poll_polling dev timeout w d l s :
  heap_ok w ->
  devs w !! dev = Some d -> pfd d = Some l -> n_pfd d = Z.of_nat (length l) ->
  wait_bound timeout (env_next_timeout (env w) (tick w)) = Some s ->
  LONG_MIN <= s * 1000 <= LONG_MAX ->
  wp (hmcfgusb_poll dev timeout) (polling_outcome w d l s) w.
Proof.
  intros Hok Hd Hl Hn Hb Hs. unfold hmcfgusb_poll, polling_outcome. wp_run.
  unfold wait_bound in Hb.
  destruct (env_next_timeout (env w) (tick w)) as [err tv]. wsimpl.
  destruct (err <? 0); [discriminate|].
  assert (Hev : exists tv',
             (if err =? 0 then (set_tv_sec timeout tv, false)
              else (tv, (tv_sec tv =? 0) && (tv_usec tv =? 0))) = (tv', false)
             /\ tv_sec tv' = s).
  { destruct (err =? 0).
    - injection Hb as <-. eexists. split; reflexivity.
    - destruct ((tv_sec tv =? 0) && (tv_usec tv =? 0)); [discriminate|].
      injection Hb as <-. eexists. split; reflexivity. }
  destruct Hev as (tv' & -> & Hsec). cbn [negb]. rewrite Hsec. clear Hb Hsec tv'.
  wp_run.
  eapply wp_mono; [|apply (clear_revents_spec dev _ d l); wsimpl; assumption].
  intros [] w1 [Hf1 Hds1]. wsimpl.
  destruct Hf1 as (Hq1 & _ & Herrno1 & Hc1 & Ht1 & _ & Htick1 & Htr1 & Henv1). wsimpl.
  wp_run. unfold mul_long.
  destruct (Z.leb_spec LONG_MIN (s * 1000)); [|lia].
  destruct (Z.leb_spec (s * 1000) LONG_MAX); [|lia]. cbn [andb]. wp_run.
  set (d1 := set_pfd (Some (map (set_revents 0) l)) d) in *.
  assert (Hd1 : devs w1 !! dev = Some d1) by (rewrite Hds1; apply lookup_insert_eq).
  eapply (wp_poll dev _ w1 d1 (map (set_revents 0) l));
    [exact Hd1 | reflexivity | subst d1; wsimpl; rewrite length_map; exact Hn |].
  rewrite Henv1, Htick1, Htr1, length_map.
  destruct (env_poll (env w) (S (tick w))) as [n rev]. fold (polled rev l).
  destruct (n <? 0); cbv beta iota zeta.
  { unfold perror. wp_run. rewrite Herrno1, <- !app_assoc. subst d1. wsimpl. auto. }
  set (w2 := set_devs _ _).
  set (d2 := set_pfd (Some (polled rev l)) d1).
  assert (Hd2 : devs w2 !! dev = Some d2) by (subst w2; wsimpl; apply lookup_insert_eq).
  assert (Hok2 : heap_ok w2).
  { apply (heap_ok_shrink w w2 Hok).
    - subst w2. wsimpl. exact Hc1.
    - intros t tr. subst w2. wsimpl. rewrite Ht1. eauto.
    - intros p0 d0 Hp0. subst w2. wsimpl. rewrite Hds1, insert_insert_eq, lookup_insert.
      case_decide as E; [|eauto].
      subst p0. rewrite Hd in Hp0. injection Hp0 as <-.
      eexists. split; [reflexivity|]. auto. }
  assert (Htr2 : trace w2 = trace w ++
            [Libusb_get_next_timeout;
             Poll (Some (map (set_revents 0) l)) (n_pfd d) (wrap_int (s * 1000))]).
  { subst w2 d1. wsimpl. rewrite <- app_assoc. reflexivity. }
  assert (Hq2 : quit w2 = quit w) by (subst w2; wsimpl; exact Hq1).
  assert (He2 : env w2 = env w) by (subst w2; wsimpl; exact Henv1).
  assert (Htick2 : tick w2 = S (S (tick w))) by (subst w2; wsimpl; rewrite ?Htick1; reflexivity).
  destruct (n =? 0).
  { rewrite <- Htick2. apply service_and_report_from; assumption. }
  wp_run.
  replace (Z.to_nat (n_pfd d2)) with (length (polled rev l)).
  2:{ subst d2 d1. wsimpl. rewrite Hn, Nat2Z.id, polled_length. reflexivity. }
  eapply wp_mono; [|apply (scan_revents_spec dev (polled rev l) [] w2 d2 Hd2 eq_refl)].
  intros sc w3 (-> & ->). cbn [length] in *. change (Z.of_nat 0) with 0 in *.
  replace (n_usb_pfd d2) with (n_usb_pfd d) in * by reflexivity.
  destruct (scan_list (n_usb_pfd d) 0 (polled rev l)) as [| |fd0].
  - eapply wp_mono; [|apply service_and_report_idle].
    intros r w4 (-> & He4 & Hq4 & _ & Htr4).
    rewrite Hq4, Hq2 in *. rewrite Htr4, Htr2, <- app_assoc. auto.
  - rewrite <- Htick2. apply service_and_report_from; assumption.
  - wp_run. rewrite Hq2, Htr2. auto.
Qed.

Lemma wrap_int_small z : - 2 ^ 31 <= z < 2 ^ 31 -> wrap_int z = z.
Proof. intros H. unfold wrap_int. rewrite Z.mod_small by lia. lia. Qed.

(** The scan stops at the first entry with readiness set: it breaks out
    for an internally-owned one and returns the descriptor otherwise. *)
Lemma scan_list_first_ready n_usb l : forall i k e,
  l !! k = Some e ->
  (forall j e', (j < k)%nat -> l !! j = Some e' -> revents e' = 0) ->
  revents e <> 0 ->
  scan_list n_usb i l =
    if i + Z.of_nat k <? n_usb then Scan_usb_event else Scan_return (fd e).
Proof.
  induction l as [|x l IH]; intros i k e Hk Hbefore Hready; [discriminate|].
  cbn [scan_list]. destruct k as [|k].
  - injection Hk as ->. apply nonzero_true in Hready. rewrite Hready.
    rewrite Z.add_0_r. reflexivity.
  - assert (Hx : nonzero (revents x) = false).
    { apply nonzero_false. apply (Hbefore 0%nat x); [lia | reflexivity]. }
    rewrite Hx. rewrite (IH (i + 1) k e Hk).
    + replace (i + 1 + Z.of_nat k) with (i + Z.of_nat (S k)) by lia. reflexivity.
    + intros j e' Hj He'. apply (Hbefore (S j) e'); [lia | exact He'].
    + exact Hready.
Qed.

(** With no caller-registered entry ready, the scan returns nothing. *)
Lemma scan_list_no_caller_ready n_usb l : forall i,
  (forall k e, l !! k = Some e -> n_usb <= i + Z.of_nat k -> revents e = 0) ->
  scan_list n_usb i l = Scan_end \/ scan_list n_usb i l = Scan_usb_event.
Proof.
  induction l as [|x l IH]; intros i H; cbn [scan_list]; [auto|].
  destruct (nonzero (revents x)) eqn:Ex.
  - destruct (Z.ltb_spec i n_usb); [auto|].
    apply nonzero_true in Ex. exfalso. apply Ex.
    apply (H 0%nat x); [reflexivity | lia].
  - apply IH. intros k e Hk Hle. apply (H (S k) e); [exact Hk | lia].
Qed.

Lemma poll_bounds_app l1 l2 : poll_bounds (l1 ++ l2) = poll_bounds l1 ++ poll_bounds l2.
Proof. apply omap_app. Qed.

Lemma poll_bounds_no_poll l : no_poll l -> poll_bounds l = [].
Proof.
  induction 1 as [|x l Hx _ IH]; [reflexivity|].
  unfold poll_bounds in *. cbn [omap]. destruct x; try discriminate; exact IH.
Qed.

(** A wait call that finds a timer already due: line 371 sets
    [usb_event], the poll step is not entered. *)
Lemma hmcfgusb_poll_timer_due dev timeout w e :
  heap_ok w ->
  env_next_timeout (env w) (tick w) = (e, Timeval 0 0) -> 0 < e ->
  wp (hmcfgusb_poll dev timeout)
     (serviced_report w [Libusb_get_next_timeout]
        (snd (env_handle_events (env w) (S (tick w))))) w.
Proof.
  intros Hok Ha He. unfold hmcfgusb_poll. wp_run. rewrite Ha. wsimpl.
  destruct (Z.ltb_spec e 0); [lia|].
  destruct (Z.eqb_spec e 0); [lia|]. cbn [negb andb tv_sec tv_usec Z.eqb].
  apply (service_and_report_from w [Libusb_get_next_timeout]); auto.
Qed.

(** C5. When libusb reports a pending timer with zero remaining time,
    the wait call does not poll: after asking for the timeout, its next
    call is libusb's event handling, and no call to poll(2) follows. *)
Theorem hmcfgusb_poll_zero_timer_skips_poll dev timeout w e :
  heap_ok w ->
  env_next_timeout (env w) (tick w) = (e, Timeval 0 0) -> 0 < e ->
  exists w' rest,
    hmcfgusb_poll dev timeout w = Some (-1, w') /\
    trace w' = trace w ++
      Libusb_get_next_timeout :: Libusb_handle_events (Timeval 0 0) :: rest /\
    no_poll rest /\
    poll_bounds (trace w') = poll_bounds (trace w).
Proof.
  intros Hok Ha He.
  destruct (wp_elim _ _ _ (hmcfgusb_poll_timer_due dev timeout w e Hok Ha He))
    as (r & w' & Hrun & -> & _ & _ & rest & Htr & Hq).
  exists w', rest. split; [exact Hrun|]. split; [exact Htr|]. split; [exact Hq|].
  rewrite Htr, poll_bounds_app. cbn [app].
  change (poll_bounds (Libusb_get_next_timeout ::
                       Libusb_handle_events (Timeval 0 0) :: rest))
    with (poll_bounds rest).
  rewrite (poll_bounds_no_poll rest Hq). apply app_nil_r.
Qed.

Lemma wired_channel q f e :
  wired 0 2 (the_transfer LIBUSB_TRANSFER_COMPLETED true) (the_cb_data f) the_dev
        (channel q f e).
Proof. repeat split. exists 1%nat. split; reflexivity. Qed.

Lemma heap_ok_channel q f e : heap_ok (channel q f e).
Proof. eapply heap_ok_single; [reflexivity | apply wired_channel]. Qed.

Lemma hmcfgusb_poll_zero_timer_skips_poll_witness :
  exists w' rest,
    hmcfgusb_poll 0 5 (channel 0 accept_all timer_due) = Some (-1, w') /\
    trace w' = trace (channel 0 accept_all timer_due) ++
      Libusb_get_next_timeout :: Libusb_handle_events (Timeval 0 0) :: rest /\
    no_poll rest /\
    poll_bounds (trace w') = poll_bounds (trace (channel 0 accept_all timer_due)).
Proof.
  apply (hmcfgusb_poll_zero_timer_skips_poll 0 5 (channel 0 accept_all timer_due) 1).
  - apply heap_ok_channel.
  - reflexivity.
  - lia.
Defined.

(** C6, as stated, fails: libusb reports a timer due in 0 s 500000 us,
    and the wait bound handed to poll(2) is 0 ms, not 500. *)
Lemma hmcfgusb_poll_drops_microseconds :
  exists r w',
    env_next_timeout half_second 0 = (1, Timeval 0 500000) /\
    duration_ms (Timeval 0 500000) = 500 /\
    hmcfgusb_poll 0 5 (channel 0 accept_all half_second) = Some (r, w') /\
    poll_bounds (trace w') = [0].
Proof.
  eexists _, _. split; [reflexivity|]. split; [reflexivity|].
  split; [vm_compute; reflexivity|]. reflexivity.
Qed.

(** C6, amended. When libusb reports a pending timer with nonzero
    remaining time, the wait bound handed to poll(2) is the whole seconds
    of that remaining time in milliseconds, [tv_sec * 1000], as the
    conversion to the int that poll(2) takes leaves it: the product
    itself while it fits an int, that is up to 2147483 s, and the product
    reduced modulo 2^32 beyond.  The microseconds are dropped, and the
    caller's timeout is not used. *)
Theorem hmcfgusb_poll_timer_bound_whole_seconds dev timeout w d l e tv :
  heap_ok w ->
  devs w !! dev = Some d -> pfd d = Some l -> n_pfd d = Z.of_nat (length l) ->
  env_next_timeout (env w) (tick w) = (e, tv) -> 0 < e ->
  tv_sec tv <> 0 \/ tv_usec tv <> 0 ->
  LONG_MIN <= tv_sec tv * 1000 <= LONG_MAX ->
  exists r w' rest,
    hmcfgusb_poll dev timeout w = Some (r, w') /\
    trace w' = trace w ++
      Libusb_get_next_timeout ::
      Poll (Some (map (set_revents 0) l)) (n_pfd d) (wrap_int (tv_sec tv * 1000)) :: rest /\
    no_poll rest /\
    poll_bounds (trace w') = poll_bounds (trace w) ++ [wrap_int (tv_sec tv * 1000)] /\
    (- 2 ^ 31 <= tv_sec tv * 1000 < 2 ^ 31 ->
     wrap_int (tv_sec tv * 1000) = tv_sec tv * 1000).
Proof.
  intros Hok Hd Hl Hn Ha He Hnz Hlong.
  assert (Hb : wait_bound timeout (env_next_timeout (env w) (tick w)) = Some (tv_sec tv)).
  { rewrite Ha. unfold wait_bound.
    destruct (Z.ltb_spec e 0); [lia|]. destruct (Z.eqb_spec e 0); [lia|].
    destruct (Z.eqb_spec (tv_sec tv) 0); destruct (Z.eqb_spec (tv_usec tv) 0);
      cbn [andb]; try reflexivity. lia. }
  destruct (wp_elim _ _ _ (hmcfgusb_poll_polling dev timeout w d l _ Hok Hd Hl Hn Hb Hlong))
    as (r & w' & Hrun & Hout).
  unfold polling_outcome in Hout.
  assert (exists rest,
             trace w' = trace w ++
               [Libusb_get_next_timeout;
                Poll (Some (map (set_revents 0) l)) (n_pfd d)
                     (wrap_int (tv_sec tv * 1000))] ++ rest /\
             no_poll rest) as (rest & Htr & Hq).
  { destruct (env_poll (env w) (S (tick w))) as [n rev].
    destruct (n <? 0).
    - destruct Hout as (_ & _ & _ & Htr). eexists. split; [exact Htr|]. repeat constructor.
    - destruct (if n =? 0 then Scan_usb_event
                else scan_list (n_usb_pfd d) 0 (polled rev l)).
      + destruct Hout as (_ & _ & _ & Htr). eexists. split; [exact Htr|].
        destruct (nonzero (quit w)); repeat constructor.
      + destruct Hout as (_ & _ & _ & rest & Htr & Hq).
        eexists. split; [exact Htr|]. constructor; [reflexivity | exact Hq].
      + destruct Hout as (_ & _ & _ & Htr). exists []. rewrite app_nil_r.
        split; [exact Htr | constructor]. }
  exists r, w', rest. split; [exact Hrun|]. split; [exact Htr|]. split; [exact Hq|].
  split; [|apply wrap_int_small].
  rewrite Htr, !poll_bounds_app, (poll_bounds_no_poll rest Hq), app_nil_r. reflexivity.
Qed.

(** libusb has a timer due in 2147484 s: the product no longer fits. *)
Lemma hmcfgusb_poll_timer_bound_whole_seconds_witness :
  (exists r w' rest,
     hmcfgusb_poll 0 5 (channel 0 accept_all three_seconds) = Some (r, w') /\
     trace w' = trace (channel 0 accept_all three_seconds) ++
       Libusb_get_next_timeout ::
       Poll (Some (map (set_revents 0) [Pollfd 3 1 0; Pollfd 20 1 0])) 2
            (wrap_int (3 * 1000)) :: rest /\
     no_poll rest /\
     poll_bounds (trace w') =
       poll_bounds (trace (channel 0 accept_all three_seconds)) ++ [wrap_int (3 * 1000)] /\
     (- 2 ^ 31 <= 3 * 1000 < 2 ^ 31 -> wrap_int (3 * 1000) = 3 * 1000)) /\
  (exists r w' rest,
     hmcfgusb_poll 0 5 (channel 0 accept_all far_timer) = Some (r, w') /\
     trace w' = trace (channel 0 accept_all far_timer) ++
       Libusb_get_next_timeout ::
       Poll (Some (map (set_revents 0) [Pollfd 3 1 0; Pollfd 20 1 0])) 2
            (wrap_int (2147484 * 1000)) :: rest /\
     no_poll rest /\
     poll_bounds (trace w') =
       poll_bounds (trace (channel 0 accept_all far_timer)) ++ [wrap_int (2147484 * 1000)] /\
     (- 2 ^ 31 <= 2147484 * 1000 < 2 ^ 31 ->
      wrap_int (2147484 * 1000) = 2147484 * 1000)) /\
  wrap_int (2147484 * 1000) = -2147483296.
Proof.
  split; [|split].
  - apply (hmcfgusb_poll_timer_bound_whole_seconds 0 5 (channel 0 accept_all three_seconds)
             the_dev [Pollfd 3 1 0; Pollfd 20 1 0] 1 (Timeval 3 250000)).
    + apply heap_ok_channel.
    + reflexivity.
    + reflexivity.
    + reflexivity.
    + reflexivity.
    + lia.
    + left. discriminate.
    + cbn [tv_sec]. unfold LONG_MIN, LONG_MAX. lia.
  - apply (hmcfgusb_poll_timer_bound_whole_seconds 0 5 (channel 0 accept_all far_timer)
             the_dev [Pollfd 3 1 0; Pollfd 20 1 0] 1 (Timeval 2147484 0)).
    + apply heap_ok_channel.
    + reflexivity.
    + reflexivity.
    + reflexivity.
    + reflexivity.
    + lia.
    + left. discriminate.
    + cbn [tv_sec]. unfold LONG_MIN, LONG_MAX. lia.
  - reflexivity.
Defined.

(** C2, as stated, fails: poll(2) reports both libusb's descriptor and
    the caller's descriptor 20 ready; the scan meets libusb's first and
    breaks out, events are serviced, and the wait call answers -1. *)
Lemma hmcfgusb_poll_internal_ready_first :
  exists w',
    env_poll both_ready 1 = (2, [1; 1]) /\
    polled [1; 1] [Pollfd 3 1 0; Pollfd 20 1 0] !! 1%nat = Some (Pollfd 20 1 1) /\
    hmcfgusb_poll 0 5 (channel 0 accept_all both_ready) = Some (-1, w') /\
    trace w' =
      [Libusb_get_next_timeout;
       Poll (Some [Pollfd 3 1 0; Pollfd 20 1 0]) 2 5000;
       Libusb_handle_events (Timeval 0 0)].
Proof.
  eexists. split; [reflexivity|]. split; [reflexivity|].
  split; [vm_compute; reflexivity|]. reflexivity.
Qed.

(** C2, amended. When the poll step runs and the first entry that
    poll(2) reports ready is a caller-registered one (so no
    internally-owned descriptor is ready in that result), the wait call
    returns that entry's descriptor at once, with errno 0 and without
    servicing libusb. *)
Theorem hmcfgusb_poll_returns_first_ready_caller_fd dev timeout w d l s n rev k e :
  heap_ok w ->
  devs w !! dev = Some d -> pfd d = Some l -> n_pfd d = Z.of_nat (length l) ->
  wait_bound timeout (env_next_timeout (env w) (tick w)) = Some s ->
  LONG_MIN <= s * 1000 <= LONG_MAX ->
  env_poll (env w) (S (tick w)) = (n, rev) -> 0 < n ->
  l !! k = Some e -> n_usb_pfd d <= Z.of_nat k ->
  (forall j, (j < k)%nat -> default 0 (rev !! j) = 0) ->
  default 0 (rev !! k) <> 0 ->
  exists w',
    hmcfgusb_poll dev timeout w = Some (fd e, w') /\
    errno w' = 0 /\ quit w' = quit w /\
    trace w' = trace w ++
      [Libusb_get_next_timeout;
       Poll (Some (map (set_revents 0) l)) (n_pfd d) (wrap_int (s * 1000))].
Proof.
  intros Hok Hd Hl Hn Hb Hs Hp Hpos Hk Hcaller Hbefore Hready.
  destruct (wp_elim _ _ _ (hmcfgusb_poll_polling dev timeout w d l s Hok Hd Hl Hn Hb Hs))
    as (r & w' & Hrun & Hout).
  unfold polling_outcome in Hout. rewrite Hp in Hout.
  destruct (Z.ltb_spec n 0); [lia|]. destruct (Z.eqb_spec n 0); [lia|].
  rewrite (scan_list_first_ready (n_usb_pfd d) (polled rev l) 0 k
             (Pollfd (fd e) (events e) (default 0 (rev !! k)))) in Hout.
  - destruct (Z.ltb_spec (0 + Z.of_nat k) (n_usb_pfd d)); [lia|].
    destruct Hout as (-> & He & Hq & Htr). exists w'. auto.
  - apply polled_lookup. exact Hk.
  - intros j e' Hj He'.
    destruct (lookup_lt_is_Some_2 l j) as [x Hx].
    { apply lookup_lt_Some in Hk. lia. }
    rewrite (polled_lookup rev l j x Hx) in He'. injection He' as <-.
    apply Hbefore. exact Hj.
  - exact Hready.
Qed.

Lemma hmcfgusb_poll_returns_first_ready_caller_fd_witness :
  exists w',
    hmcfgusb_poll 0 5 (channel 0 accept_all caller_ready) = Some (20, w') /\
    errno w' = 0 /\ quit w' = quit (channel 0 accept_all caller_ready) /\
    trace w' = trace (channel 0 accept_all caller_ready) ++
      [Libusb_get_next_timeout;
       Poll (Some (map (set_revents 0) [Pollfd 3 1 0; Pollfd 20 1 0])) 2
            (wrap_int (5 * 1000))].
Proof.
  apply (hmcfgusb_poll_returns_first_ready_caller_fd 0 5 (channel 0 accept_all caller_ready)
           the_dev [Pollfd 3 1 0; Pollfd 20 1 0] 5 1 [0; 1] 1 (Pollfd 20 1 0)).
  - apply heap_ok_channel.
  - reflexivity.
  - reflexivity.
  - reflexivity.
  - reflexivity.
  - unfold LONG_MIN, LONG_MAX. lia.
  - reflexivity.
  - lia.
  - reflexivity.
  - cbn [n_usb_pfd the_dev]. lia.
  - intros j Hj. assert (j = 0%nat) as -> by lia. reflexivity.
  - discriminate.
Defined.

(** * The life of the quit flag *)

Lemma run_all_sticky os : forall w w',
  Forall (fun o => is_init o = false) os -> run_all os w = Some w' ->
  sticky (quit w) (quit w').
Proof.
  induction os as [|o os IH]; intros w w' Hos Hrun; cbn [run_all] in Hrun.
  - injection Hrun as <-. left. reflexivity.
  - apply bind_Some in Hrun as (w1 & Ho & Hrest).
    apply Forall_cons in Hos as [Hinit Hos].
    eapply quit_rel_trans; [eapply run_sticky; eassumption | eapply IH; eassumption].
Qed.

Lemma sticky_EIO q : sticky EIO q -> q = EIO.
Proof. intros [-> | ->]; reflexivity. Qed.

Lemma heap_ok_no_transfers w : transfers w = ∅ -> heap_ok w.
Proof. intros H t tr c Ht. rewrite H, lookup_empty in Ht. discriminate. Qed.

(** A descriptor returned by the scan is that of the first ready entry,
    which is not an internally-owned one. *)
Lemma scan_list_return n_usb l : forall i fd0,
  scan_list n_usb i l = Scan_return fd0 ->
  exists k e,
    l !! k = Some e /\ n_usb <= i + Z.of_nat k /\ revents e <> 0 /\ fd e = fd0 /\
    forall j e', (j < k)%nat -> l !! j = Some e' -> revents e' = 0.
Proof.
  induction l as [|x l IH]; intros i fd0; cbn [scan_list]; [discriminate|].
  destruct (nonzero (revents x)) eqn:Ex.
  - destruct (Z.ltb_spec i n_usb); [discriminate|]. intros [= <-].
    exists 0%nat, x. split; [reflexivity|]. split; [lia|].
    split; [apply nonzero_true; exact Ex|]. split; [reflexivity|]. intros j e' Hj. lia.
  - intros H. destruct (IH _ _ H) as (k & e & Hk & Hle & Hr & Hfd & Hbefore).
    exists (S k), e. split; [exact Hk|]. split; [lia|]. split; [exact Hr|].
    split; [exact Hfd|]. intros [|j] e' Hj He'.
    + injection He' as <-. apply nonzero_false. exact Ex.
    + apply (Hbefore j e'); [lia | exact He'].
Qed.

(** When the first entry that poll(2) reports ready is an
    internally-owned one, the scan returns no descriptor. *)
Lemma scan_list_internal_first n_usb rev l fd0 :
  (forall k, (k < length l)%nat ->
     default 0 (rev !! k) <> 0 ->
     (forall j, (j < k)%nat -> default 0 (rev !! j) = 0) ->
     Z.of_nat k < n_usb) ->
  scan_list n_usb 0 (polled rev l) <> Scan_return fd0.
Proof.
  intros H Hscan.
  destruct (scan_list_return _ _ _ _ Hscan) as (k & e & Hk & Hle & Hr & _ & Hbefore).
  assert (Hlt : (k < length l)%nat).
  { apply lookup_lt_Some in Hk. rewrite polled_length in Hk. exact Hk. }
  destruct (lookup_lt_is_Some_2 l k Hlt) as [x Hx].
  rewrite (polled_lookup rev l k x Hx) in Hk. injection Hk as <-.
  cbn [revents] in Hr.
  assert (Z.of_nat k < n_usb); [|lia].
  apply (H k Hlt Hr). intros j Hj.
  destruct (lookup_lt_is_Some_2 l j) as [y Hy]; [lia|].
  apply (Hbefore j _ Hj (polled_lookup rev l j y Hy)).
Qed.

(** Lines 362-366: the timeout query fails. *)
Lemma hmcfgusb_poll_query_fails dev timeout w err tv :
  env_next_timeout (env w) (tick w) = (err, tv) -> err < 0 ->
  wp (hmcfgusb_poll dev timeout)
     (fun r w' =>
        r = -1 /\ errno w' = EIO /\
        trace w' = trace w ++ [Libusb_get_next_timeout; Stderr "libusb_get_next_timeout: %s" err] /\
        quit w' = quit w /\ debug w' = debug w /\ devs w' = devs w /\
        cb_datas w' = cb_datas w /\ transfers w' = transfers w) w.
Proof.
  intros Ha He. unfold hmcfgusb_poll. wp_run. rewrite Ha. wsimpl.
  destruct (Z.ltb_spec err 0); [|lia]. wp_run.
  rewrite <- app_assoc. repeat apply conj; reflexivity.
Qed.

(** A wait call on a channel whose flag holds [EIO] answers -1 with errno
    [EIO] on every path but the two that leave with errno 0: the flag is
    reported at the end (lines 412-418), and the exits for a failed
    timeout query (line 364) and for failed event handling (line 407)
    assign [EIO] themselves. *)
Lemma hmcfgusb_poll_reports_quit dev timeout w d l :
  heap_ok w ->
  devs w !! dev = Some d -> pfd d = Some l -> n_pfd d = Z.of_nat (length l) ->
  quit w = EIO ->
  not_cut_short timeout d l w ->
  exists w',
    hmcfgusb_poll dev timeout w = Some (-1, w') /\
    errno w' = EIO /\ quit w' = EIO.
Proof.
  intros Hok Hd Hl Hn Hquit Hshort.
  assert (Hrep : forall pre herr r w',
            serviced_report w pre herr r w' ->
            r = -1 /\ errno w' = EIO /\ quit w' = EIO).
  { intros pre herr r w' (-> & He & Hst & _).
    rewrite Hquit in Hst. apply sticky_EIO in Hst.
    split; [reflexivity|]. split; [|exact Hst].
    rewrite He. destruct (herr <? 0); [reflexivity | exact Hst]. }
  destruct (wait_bound timeout (env_next_timeout (env w) (tick w))) as [s|] eqn:Hb.
  - destruct (Hshort s Hb) as (Hlong & Hpoll & Hfirst).
    destruct (wp_elim _ _ _
                (hmcfgusb_poll_polling dev timeout w d l s Hok Hd Hl Hn Hb Hlong))
      as (r & w' & Hrun & Hout).
    unfold polling_outcome in Hout.
    destruct (env_poll (env w) (S (tick w))) as [n rev]. cbn [fst snd] in *.
    destruct (Z.ltb_spec n 0); [lia|].
    destruct (n =? 0).
    { destruct (Hrep _ _ _ _ Hout) as (-> & He & Hq). exists w'. auto. }
    pose proof (fun fd0 => scan_list_internal_first (n_usb_pfd d) rev l fd0 Hfirst) as Hno.
    destruct (scan_list (n_usb_pfd d) 0 (polled rev l)) as [| |fd0].
    + destruct Hout as (-> & He & Hq & _). exists w'.
      split; [exact Hrun|]. split; congruence.
    + destruct (Hrep _ _ _ _ Hout) as (-> & He & Hq). exists w'. auto.
    + exfalso. apply (Hno fd0). reflexivity.
  - unfold wait_bound in Hb.
    destruct (env_next_timeout (env w) (tick w)) as [e tv] eqn:Ha.
    destruct (Z.ltb_spec e 0).
    + destruct (wp_elim _ _ _ (hmcfgusb_poll_query_fails dev timeout w e tv Ha H))
        as (r & w' & Hrun & -> & He & _ & Hq & _).
      exists w'. split; [exact Hrun|]. split; [exact He | congruence].
    + destruct (Z.eqb_spec e 0); [discriminate|].
      destruct (Z.eqb_spec (tv_sec tv) 0); destruct (Z.eqb_spec (tv_usec tv) 0);
        cbn [andb] in Hb; try discriminate.
      assert (tv = Timeval 0 0) as -> by (destruct tv; cbn in *; congruence).
      assert (He : 0 < e) by lia.
      destruct (wp_elim _ _ _ (hmcfgusb_poll_timer_due dev timeout w e Hok Ha He))
        as (r & w' & Hrun & Hout).
      destruct (Hrep _ _ _ _ Hout) as (-> & Herr & Hq). exists w'. auto.
Qed.

(** C4, as stated, fails: a rejected buffer has set the flag to [EIO];
    the next wait call finds the caller's descriptor 20 ready and returns
    it with errno 0, reporting no failure. *)
Lemma hmcfgusb_poll_returns_fd_with_quit_set :
  exists w w',
    run (Op_poll 0 5) (channel 0 reject_all one_buffer_then_caller_ready) = Some w /\
    quit w = EIO /\
    hmcfgusb_poll 0 5 w = Some (20, w') /\
    errno w' = 0 /\ quit w' = EIO.
Proof.
  eexists _, _. split; [vm_compute; reflexivity|]. split; [reflexivity|].
  split; [vm_compute; reflexivity|]. split; reflexivity.
Qed.

(** C4, amended. Successful initialisation sets the quit flag to zero,
    and a failed one leaves it alone.  Once an operation has set the flag
    (to [EIO], the only value ever stored), no sequence of operations
    other than initialisation changes it, and every later wait call
    answers -1 with errno equal to the stored code, whether or not its
    timeout query or its event handling fails, unless poll(2) fails or
    the first descriptor that poll(2) reports ready is a
    caller-registered one. *)
Theorem quit_flag_lifecycle :
  (forall cb data w r w',
     hmcfgusb_init cb data w = Some (r, w') -> init_quit r (quit w) (quit w')) /\
  (forall w0 o w os w1 dev timeout d l,
     quit w0 = 0 -> is_init o = false -> run o w0 = Some w -> quit w <> 0 ->
     Forall (fun o' => is_init o' = false) os -> run_all os w = Some w1 ->
     heap_ok w1 ->
     devs w1 !! dev = Some d -> pfd d = Some l -> n_pfd d = Z.of_nat (length l) ->
     not_cut_short timeout d l w1 ->
     quit w = EIO /\ quit w1 = quit w /\
     exists w2,
       hmcfgusb_poll dev timeout w1 = Some (-1, w2) /\
       errno w2 = quit w /\ quit w2 = quit w).
Proof.
  split.
  - intros cb data w r w' Hrun. exact (hmcfgusb_init_quit cb data w r w' Hrun).
  - intros w0 o w os w1 dev timeout d l Hq0 Ho Hrun Hset Hos Hall Hok Hd Hl Hn Hshort.
    assert (Hq : quit w = EIO).
    { destruct (run_sticky o w0 w Ho Hrun) as [H | H]; [congruence | exact H]. }
    assert (Hq1 : quit w1 = EIO).
    { apply sticky_EIO. rewrite <- Hq. apply (run_all_sticky os w w1 Hos Hall). }
    destruct (hmcfgusb_poll_reports_quit dev timeout w1 d l Hok Hd Hl Hn Hq1 Hshort)
      as (w2 & Hwait & He & Hq2).
    split; [exact Hq|]. split; [congruence|].
    exists w2. split; [exact Hwait|]. split; congruence.
Qed.

(** * The statements at the concrete channel *)

(** A rejected buffer sets the flag in the first wait call; a send and a
    registration follow; in the wait call after them libusb's event
    handling fails, and the call still answers -1 with errno [EIO]. *)
Lemma quit_flag_lifecycle_witness :
  init_quit (Some 0%nat) (quit stale) (quit (after [Op_init (Some accept_all) 0] stale)) /\
  (quit (after [Op_poll 0 5] (channel 0 reject_all events_fail_later)) = EIO /\
   quit (after [Op_send 0 [x01] 1 1; Op_add_pfd 0 21 1]
           (after [Op_poll 0 5] (channel 0 reject_all events_fail_later))) =
     quit (after [Op_poll 0 5] (channel 0 reject_all events_fail_later)) /\
   exists w2,
     hmcfgusb_poll 0 7
       (after [Op_send 0 [x01] 1 1; Op_add_pfd 0 21 1]
          (after [Op_poll 0 5] (channel 0 reject_all events_fail_later))) = Some (-1, w2) /\
     errno w2 = quit (after [Op_poll 0 5] (channel 0 reject_all events_fail_later)) /\
     quit w2 = quit (after [Op_poll 0 5] (channel 0 reject_all events_fail_later))).
Proof.
  split.
  - apply (proj1 quit_flag_lifecycle (Some accept_all) 0%nat stale). vm_compute. reflexivity.
  - apply (proj2 quit_flag_lifecycle (channel 0 reject_all events_fail_later) (Op_poll 0 5)
             (after [Op_poll 0 5] (channel 0 reject_all events_fail_later))
             [Op_send 0 [x01] 1 1; Op_add_pfd 0 21 1]
             (after [Op_send 0 [x01] 1 1; Op_add_pfd 0 21 1]
                (after [Op_poll 0 5] (channel 0 reject_all events_fail_later)))
             0%nat 7
             (Dev (Some 7%nat) None 1 3 (Some [Pollfd 3 1 0; Pollfd 20 1 0; Pollfd 21 1 0]))
             [Pollfd 3 1 0; Pollfd 20 1 0; Pollfd 21 1 0]).
    + reflexivity.
    + reflexivity.
    + vm_compute. reflexivity.
    + vm_compute. discriminate.
    + repeat constructor.
    + vm_compute. reflexivity.
    + apply heap_ok_no_transfers. vm_compute. reflexivity.
    + vm_compute. reflexivity.
    + reflexivity.
    + reflexivity.
    + intros s Hs. vm_compute in Hs. injection Hs as <-. cbv zeta.
      split; [vm_compute; split; discriminate|].
      split; [vm_compute; discriminate|].
      intros k _ Hne. exfalso. apply Hne. vm_compute. destruct k; reflexivity.
Defined.


(** Scenario C of the specification, evaluated: the data transfer is
    accepted, the terminator is refused, the call answers 0. *)
Example hmcfgusb_send_terminator_fails :
  exists w',
    hmcfgusb_send 0 [x01] 1 1 (channel 0 accept_all terminator_fails) = Some (0, w') /\
    trace w' =
      [Libusb_interrupt_transfer (Some 7%nat) EP_OUT [x01] 1 USB_TIMEOUT;
       Libusb_interrupt_transfer (Some 7%nat) EP_OUT [x01] 0 USB_TIMEOUT;
       Stderr "Can't send data: %s" (-7)] /\
    quit w' = 0.
Proof. eexists. split; [vm_compute; reflexivity|]. split; reflexivity. Qed.

Lemma hmcfgusb_send_keeps_quit_witness :
  exists r w',
    hmcfgusb_send 0 [x01] 1 1 (channel EIO accept_all terminator_fails) = Some (r, w') /\
    (r = 1 \/ r = 0) /\
    quit w' = quit (channel EIO accept_all terminator_fails).
Proof.
  apply (hmcfgusb_send_keeps_quit 0 [x01] 1 1 (channel EIO accept_all terminator_fails) the_dev).
  reflexivity.
Defined.

Lemma hmcfgusb_add_pfd_appends_witness :
  1 = 1 /\
  exists d' l',
    devs (after [Op_add_pfd 0 21 1] (channel 0 accept_all calm)) !! 0%nat = Some d' /\
    pfd d' = Some l' /\
    last l' = Some (Pollfd 21 1 0) /\
    (forall i e, default [] (pfd the_dev) !! i = Some e -> l' !! i = Some e) /\
    n_usb_pfd d' = n_usb_pfd the_dev /\
    n_pfd d' = n_pfd the_dev + 1 /\
    Z.of_nat (length l') = n_pfd d' /\
    (pfd_consistent the_dev -> l' = default [] (pfd the_dev) ++ [Pollfd 21 1 0]).
Proof.
  apply (hmcfgusb_add_pfd_appends 0 21 1 (channel 0 accept_all calm) the_dev 1
           (after [Op_add_pfd 0 21 1] (channel 0 accept_all calm))).
  - reflexivity.
  - vm_compute. split; [discriminate | reflexivity].
  - vm_compute. reflexivity.
  - discriminate.
Defined.

Lemma hmcfgusb_add_pfd_failure_breaks_count_witness :
  exists w' d',
    hmcfgusb_add_pfd 0 21 1 (channel 0 accept_all out_of_memory) = Some (0, w') /\
    devs w' !! 0%nat = Some d' /\
    n_pfd d' = n_pfd the_dev + 1 /\
    pfd d' = None /\
    n_usb_pfd d' = n_usb_pfd the_dev /\
    ~ pfd_consistent d'.
Proof.
  apply (hmcfgusb_add_pfd_failure_breaks_count 0 21 1 (channel 0 accept_all out_of_memory)
           the_dev).
  - reflexivity.
  - vm_compute. split; [discriminate | reflexivity].
  - reflexivity.
Defined.

(** The defect behind C1, end to end: the wait call in which the
    resubmission is refused, and every wait call after it, answer -1 with
    errno 0 ("no external event") although the engine is DEAD. *)
Example refused_resubmission_goes_unreported :
  exists w1 w2,
    engine 0 (channel 0 accept_all (with_submit_transfer (fun _ => -4) one_buffer)) = ARMED /\
    hmcfgusb_poll 0 5 (channel 0 accept_all (with_submit_transfer (fun _ => -4) one_buffer)) =
      Some (-1, w1) /\
    engine 0 w1 = DEAD /\ quit w1 = 0 /\ errno w1 = 0 /\
    hmcfgusb_poll 0 5 w1 = Some (-1, w2) /\
    engine 0 w2 = DEAD /\ quit w2 = 0 /\ errno w2 = 0.
Proof.
  eexists _, _. split; [reflexivity|]. split; [vm_compute; reflexivity|].
  split; [reflexivity|]. split; [reflexivity|]. split; [reflexivity|].
  split; [vm_compute; reflexivity|]. repeat split.
Qed.

(** Scenario B of the specification, evaluated: a completed buffer is
    rejected, the flag becomes [EIO], and the next wait call answers -1
    with errno [EIO]. *)
Example rejected_buffer_is_reported :
  exists w1 w2,
    hmcfgusb_poll 0 5 (channel 0 reject_all one_buffer) = Some (-1, w1) /\
    quit w1 = EIO /\ engine 0 w1 = DEAD /\
    hmcfgusb_poll 0 5 w1 = Some (-1, w2) /\
    errno w2 = EIO.
Proof.
  eexists _, _. split; [vm_compute; reflexivity|].
  split; [reflexivity|]. split; [reflexivity|].
  split; [vm_compute; reflexivity|]. reflexivity.
Qed.

(** The other side of C2: when the first entry that poll(2) reports
    ready is internally owned, the scan breaks out (line 392), libusb is
    serviced and the wait call answers -1, whatever else is ready. *)
Lemma hmcfgusb_poll_internal_first_services dev timeout w d l s n rev k e :
  heap_ok w ->
  devs w !! dev = Some d -> pfd d = Some l -> n_pfd d = Z.of_nat (length l) ->
  wait_bound timeout (env_next_timeout (env w) (tick w)) = Some s ->
  LONG_MIN <= s * 1000 <= LONG_MAX ->
  env_poll (env w) (S (tick w)) = (n, rev) -> 0 < n ->
  l !! k = Some e -> Z.of_nat k < n_usb_pfd d ->
  (forall j, (j < k)%nat -> default 0 (rev !! j) = 0) ->
  default 0 (rev !! k) <> 0 ->
  exists w' rest,
    hmcfgusb_poll dev timeout w = Some (-1, w') /\
    trace w' = trace w ++
      [Libusb_get_next_timeout;
       Poll (Some (map (set_revents 0) l)) (n_pfd d) (wrap_int (s * 1000));
       Libusb_handle_events (Timeval 0 0)] ++ rest.
Proof.
  intros Hok Hd Hl Hn Hb Hs Hp Hpos Hk Hinternal Hbefore Hready.
  destruct (wp_elim _ _ _ (hmcfgusb_poll_polling dev timeout w d l s Hok Hd Hl Hn Hb Hs))
    as (r & w' & Hrun & Hout).
  unfold polling_outcome in Hout. rewrite Hp in Hout.
  destruct (Z.ltb_spec n 0); [lia|]. destruct (Z.eqb_spec n 0); [lia|].
  rewrite (scan_list_first_ready (n_usb_pfd d) (polled rev l) 0 k
             (Pollfd (fd e) (events e) (default 0 (rev !! k)))) in Hout.
  - destruct (Z.ltb_spec (0 + Z.of_nat k) (n_usb_pfd d)); [|lia].
    destruct Hout as (-> & _ & _ & rest & Htr & _).
    exists w', rest. split; [exact Hrun|]. rewrite Htr. reflexivity.
  - apply polled_lookup. exact Hk.
  - intros j e' Hj He'.
    destruct (lookup_lt_is_Some_2 l j) as [x Hx].
    { apply lookup_lt_Some in Hk. lia. }
    rewrite (polled_lookup rev l j x Hx) in He'. injection He' as <-.
    apply Hbefore. exact Hj.
  - exact Hready.
Qed.

(** Scenario A of the specification, evaluated: a completed buffer of
    2 bytes is accepted; the transfer is resubmitted, the flag stays 0,
    and the following wait call reports no event. *)
Example accepted_buffer_rearms :
  exists w1 w2,
    hmcfgusb_poll 0 5 (channel 0 accept_all one_buffer) = Some (-1, w1) /\
    trace w1 =
      [Libusb_get_next_timeout;
       Poll (Some [Pollfd 3 1 0; Pollfd 20 1 0]) 2 5000;
       Libusb_handle_events (Timeval 0 0);
       Consumer [x48; x4d] 2 0;
       Libusb_submit_transfer 2] /\
    quit w1 = 0 /\ errno w1 = 0 /\ engine 0 w1 = ARMED /\
    hmcfgusb_poll 0 5 w1 = Some (-1, w2) /\
    quit w2 = 0 /\ errno w2 = 0 /\ engine 0 w2 = ARMED.
Proof.
  eexists _, _. split; [vm_compute; reflexivity|].
  split; [reflexivity|]. split; [reflexivity|]. split; [reflexivity|].
  split; [reflexivity|]. split; [vm_compute; reflexivity|]. repeat split.
Qed.

(** * Further properties of the send path *)

(** A send call in full: result, calls and everything it leaves alone. *)
Lemma hmcfgusb_send_frame usbdev send_data len done w d :
  devs w !! usbdev = Some d ->
  let dump := if nonzero (debug w) then [Hexdump send_data len "USB < "] else [] in
  let first := Libusb_interrupt_transfer (usb_devh d) EP_OUT send_data len USB_TIMEOUT in
  let last := Libusb_interrupt_transfer (usb_devh d) EP_OUT send_data 0 USB_TIMEOUT in
  wp (hmcfgusb_send usbdev send_data len done)
     (fun r w' =>
        quit w' = quit w /\ debug w' = debug w /\
        devs w' = devs w /\ cb_datas w' = cb_datas w /\ transfers w' = transfers w /\
        env w' = env w /\
        if nonzero (first_transfer_err w) then
          r = 0 /\ tick w' = S (tick w) /\
          trace w' = trace w ++ dump ++
            [first; Stderr "Can't send data: %s" (first_transfer_err w)]
        else if nonzero done then
          tick w' = S (S (tick w)) /\
          if nonzero (terminator_err w) then
            r = 0 /\
            trace w' = trace w ++ dump ++
              [first; last; Stderr "Can't send data: %s" (terminator_err w)]
          else r = 1 /\ trace w' = trace w ++ dump ++ [first; last]
        else r = 1 /\ tick w' = S (tick w) /\ trace w' = trace w ++ dump ++ [first]) w.
Proof.
  intros Hd. unfold hmcfgusb_send, first_transfer_err, terminator_err.
  wp_go. unfold when.
  destruct (nonzero (debug w)); wp_go;
    unfold libusb_interrupt_transfer; wp_go;
    destruct (env_interrupt_transfer (env w) (tick w)) as [e1 c1]; wsimpl;
    (destruct (nonzero e1); wp_go;
     [ | destruct (nonzero done); wp_go;
         [ destruct (env_interrupt_transfer (env w) (S (tick w))) as [e2 c2]; wsimpl;
           destruct (nonzero e2); wp_go | ] ]);
    repeat split; rewrite <- ?app_assoc; reflexivity.
Qed.

Lemma sent_app l1 l2 : sent (l1 ++ l2) = sent l1 ++ sent l2.
Proof. apply omap_app. Qed.

(** X1. A send call issues the data transfer once, on the OUT endpoint
    with the fixed timeout, and never retries it; the zero-length
    terminator follows only if finalize is requested and the data
    transfer was accepted.  The call does not touch the heap (handle,
    callback context, transfer), so the receive engine is in the state it
    was in. *)
Theorem hmcfgusb_send_transfers usbdev send_data len done w d :
  devs w !! usbdev = Some d ->
  exists r w',
    hmcfgusb_send usbdev send_data len done w = Some (r, w') /\
    sent (trace w') = sent (trace w) ++
      (EP_OUT, send_data, len, USB_TIMEOUT) ::
      (if nonzero done && (first_transfer_err w =? 0)
       then [(EP_OUT, send_data, 0, USB_TIMEOUT)] else []) /\
    devs w' = devs w /\ cb_datas w' = cb_datas w /\ transfers w' = transfers w /\
    engine usbdev w' = engine usbdev w.
Proof.
  intros Hd.
  destruct (wp_elim _ _ _ (hmcfgusb_send_frame usbdev send_data len done w d Hd))
    as (r & w' & Hrun & _ & _ & Hds & Hcs & Hts & _ & H).
  exists r, w'. split; [exact Hrun|].
  split; [|unfold engine; rewrite Hds, Hts; auto].
  assert (Hdump : sent (if nonzero (debug w)
                        then [Hexdump send_data len "USB < "] else []) = [])
    by (destruct (nonzero (debug w)); reflexivity).
  unfold nonzero in *.
  destruct (first_transfer_err w =? 0); cbn [negb andb] in *.
  - destruct (done =? 0); cbn [negb andb] in *.
    + destruct H as (_ & _ & ->). rewrite !sent_app, Hdump. reflexivity.
    + destruct H as (_ & H). destruct (terminator_err w =? 0); cbn [negb] in H;
        destruct H as (_ & ->); rewrite !sent_app, Hdump; reflexivity.
  - destruct H as (_ & _ & ->). rewrite !sent_app, Hdump, andb_false_r. reflexivity.
Qed.

Lemma hmcfgusb_send_transfers_witness :
  exists r w',
    hmcfgusb_send 0 [x01] 1 1 (channel 0 accept_all terminator_fails) = Some (r, w') /\
    sent (trace w') = sent (trace (channel 0 accept_all terminator_fails)) ++
      (EP_OUT, [x01], 1, USB_TIMEOUT) ::
      (if nonzero 1 && (first_transfer_err (channel 0 accept_all terminator_fails) =? 0)
       then [(EP_OUT, [x01], 0, USB_TIMEOUT)] else []) /\
    devs w' = devs (channel 0 accept_all terminator_fails) /\
    cb_datas w' = cb_datas (channel 0 accept_all terminator_fails) /\
    transfers w' = transfers (channel 0 accept_all terminator_fails) /\
    engine 0 w' = engine 0 (channel 0 accept_all terminator_fails).
Proof.
  apply (hmcfgusb_send_transfers 0 [x01] 1 1 (channel 0 accept_all terminator_fails) the_dev).
  reflexivity.
Defined.

Lemma without_hexdump_app l1 l2 :
  without_hexdump (l1 ++ l2) = without_hexdump l1 ++ without_hexdump l2.
Proof. apply List.filter_app. Qed.

(** X2. The debug switch changes nothing of a send call but the hex
    dump: with any value of [debug] set beforehand, the call returns the
    same result, makes the same calls apart from [hexdump], and leaves
    the same quit flag and heap. *)
Theorem hmcfgusb_send_debug_independent v usbdev send_data len done w d :
  devs w !! usbdev = Some d ->
  exists r w1 w2,
    hmcfgusb_send usbdev send_data len done w = Some (r, w1) /\
    (hmcfgusb_set_debug v;; hmcfgusb_send usbdev send_data len done) w = Some (r, w2) /\
    without_hexdump (trace w2) = without_hexdump (trace w1) /\
    quit w2 = quit w1 /\ devs w2 = devs w1 /\ transfers w2 = transfers w1.
Proof.
  intros Hd.
  destruct (wp_elim _ _ _ (hmcfgusb_send_frame usbdev send_data len done w d Hd))
    as (r1 & w1 & Hrun1 & Hq1 & _ & Hds1 & _ & Hts1 & _ & H1).
  destruct (wp_elim _ _ _
              (hmcfgusb_send_frame usbdev send_data len done (set_debug v w) d Hd))
    as (r2 & w2 & Hrun2 & Hq2 & _ & Hds2 & _ & Hts2 & _ & H2).
  wsimpl. unfold first_transfer_err, terminator_err in *. wsimpl.
  assert (Hdump : forall b : bool,
             without_hexdump (if b then [Hexdump send_data len "USB < "] else []) = [])
    by (intros []; reflexivity).
  assert (r2 = r1 /\ without_hexdump (trace w2) = without_hexdump (trace w1)) as [-> Htr].
  { destruct (nonzero (fst (env_interrupt_transfer (env w) (tick w)))).
    - destruct H1 as (-> & _ & ->), H2 as (-> & _ & ->).
      rewrite !without_hexdump_app, !Hdump. auto.
    - destruct (nonzero done).
      + destruct H1 as (_ & H1), H2 as (_ & H2).
        destruct (nonzero (fst (env_interrupt_transfer (env w) (S (tick w)))));
          destruct H1 as (-> & ->), H2 as (-> & ->);
          rewrite !without_hexdump_app, !Hdump; auto.
      + destruct H1 as (-> & _ & ->), H2 as (-> & _ & ->).
        rewrite !without_hexdump_app, !Hdump. auto. }
  exists r1, w1, w2. split; [exact Hrun1|]. split; [exact Hrun2|].
  split; [exact Htr|]. repeat split; congruence.
Qed.

Lemma hmcfgusb_send_debug_independent_witness :
  exists r w1 w2,
    hmcfgusb_send 0 [x01] 1 1 (channel 0 accept_all calm) = Some (r, w1) /\
    (hmcfgusb_set_debug 1;; hmcfgusb_send 0 [x01] 1 1) (channel 0 accept_all calm) =
      Some (r, w2) /\
    without_hexdump (trace w2) = without_hexdump (trace w1) /\
    quit w2 = quit w1 /\ devs w2 = devs w1 /\ transfers w2 = transfers w1.
Proof.
  apply (hmcfgusb_send_debug_independent 1 0 [x01] 1 1 (channel 0 accept_all calm) the_dev).
  reflexivity.
Defined.

(** * Closing the channel *)

Lemma wp_cancel_transfer t tr Q w :
  transfers w !! t = Some tr ->
  Q tt (set_trace (trace w ++ [Libusb_cancel_transfer t]) w) ->
  wp (libusb_cancel_transfer t) Q w.
Proof. intros Ht HQ. unfold libusb_cancel_transfer. wp_run. exact HQ. Qed.

(** Lines 421-439 on a handle whose transfer pointer is null or valid. *)
Lemma hmcfgusb_close_spec p d w :
  devs w !! p = Some d ->
  (forall t, transfer d = Some t -> is_Some (transfers w !! t)) ->
  wp (hmcfgusb_close p)
     (fun _ w' =>
        trace w' = trace w ++
          (match transfer d with Some t => [Libusb_cancel_transfer t] | None => [] end) ++
          Libusb_release_interface (usb_devh d) INTERFACE ::
          (if nonzero (env_release_interface (env w) (tick w))
           then [Stderr "Can't release interface: %s"
                   (env_release_interface (env w) (tick w))]
           else []) ++
          [Libusb_close (usb_devh d); Free; Free; Libusb_exit] /\
        devs w' = delete p (devs w) /\
        transfers w' = transfers w /\ cb_datas w' = cb_datas w /\
        quit w' = quit w) w.
Proof.
  intros Hd Hlive. unfold hmcfgusb_close, free_dev. wp_run.
  destruct (transfer d) as [t|] eqn:Ht.
  - destruct (Hlive t eq_refl) as [tr Htr].
    eapply wp_cancel_transfer; [exact Htr|]. wp_run. unfold when.
    destruct (nonzero (env_release_interface (env w) (tick w))); wp_run;
      rewrite <- !app_assoc; auto.
  - wp_run. unfold when.
    destruct (nonzero (env_release_interface (env w) (tick w))); wp_run;
      rewrite <- !app_assoc; auto.
Qed.

(** X3. Closing a handle whose transfer pointer is null or points to an
    allocated transfer cancels that transfer if there is one, releases the
    interface, closes the device, frees the descriptor array and the
    handle and shuts libusb down, in this order; a failure to release the
    interface is printed and changes nothing else.  The handle is gone
    from the heap; the transfer object and the callback context are not
    freed, and the quit flag is not touched. *)
Theorem hmcfgusb_close_tears_down p d w :
  devs w !! p = Some d ->
  (forall t, transfer d = Some t -> is_Some (transfers w !! t)) ->
  exists w',
    hmcfgusb_close p w = Some (tt, w') /\
    trace w' = trace w ++
      (match transfer d with Some t => [Libusb_cancel_transfer t] | None => [] end) ++
      Libusb_release_interface (usb_devh d) INTERFACE ::
      (if nonzero (env_release_interface (env w) (tick w))
       then [Stderr "Can't release interface: %s" (env_release_interface (env w) (tick w))]
       else []) ++
      [Libusb_close (usb_devh d); Free; Free; Libusb_exit] /\
    devs w' = delete p (devs w) /\
    transfers w' = transfers w /\ cb_datas w' = cb_datas w /\
    quit w' = quit w.
Proof.
  intros Hd Hlive.
  destruct (wp_elim _ _ _ (hmcfgusb_close_spec p d w Hd Hlive)) as ([] & w' & Hrun & H).
  exists w'. auto.
Qed.

Lemma hmcfgusb_close_tears_down_witness :
  exists w',
    hmcfgusb_close 0 (channel 0 accept_all calm) = Some (tt, w') /\
    trace w' = trace (channel 0 accept_all calm) ++
      (match transfer the_dev with Some t => [Libusb_cancel_transfer t] | None => [] end) ++
      Libusb_release_interface (usb_devh the_dev) INTERFACE ::
      (if nonzero (env_release_interface (env (channel 0 accept_all calm))
                     (tick (channel 0 accept_all calm)))
       then [Stderr "Can't release interface: %s"
               (env_release_interface (env (channel 0 accept_all calm))
                  (tick (channel 0 accept_all calm)))]
       else []) ++
      [Libusb_close (usb_devh the_dev); Free; Free; Libusb_exit] /\
    devs w' = delete 0%nat (devs (channel 0 accept_all calm)) /\
    transfers w' = transfers (channel 0 accept_all calm) /\
    cb_datas w' = cb_datas (channel 0 accept_all calm) /\
    quit w' = quit (channel 0 accept_all calm).
Proof.
  apply (hmcfgusb_close_tears_down 0 the_dev (channel 0 accept_all calm)).
  - reflexivity.
  - intros t Ht. injection Ht as <-. eexists. reflexivity.
Defined.

(** * Further properties of the completion callback *)

Lemma fatal_status_false s :
  fatal_status s = false -> s = LIBUSB_TRANSFER_COMPLETED \/ s = LIBUSB_TRANSFER_TIMED_OUT.
Proof. destruct s; cbn; intros H; try discriminate; auto. Qed.

(** The callback on the wiring of [hmcfgusb_init], every case at once. *)
Lemma hmcfgusb_interrupt_cases p t tr cd d w :
  wired p t tr cd d w ->
  wp (hmcfgusb_interrupt t)
     (fun _ w' =>
        let err := env_submit_transfer (env w) (tick w) in
        cb_datas w' = cb_datas w /\
        quit w' = (if gives_up cd tr then EIO else quit w) /\
        devs w' = (if gives_up cd tr then <[p:=set_transfer None d]> (devs w) else devs w) /\
        transfers w' =
          (if gives_up cd tr then delete t (transfers w)
           else if err =? 0 then <[t:=set_submitted true tr]> (transfers w)
           else delete t (transfers w)) /\
        exists rest,
          trace w' = trace w ++ rest /\
          List.filter is_consumer rest =
            (if completed_ok tr && negb (null (cb cd))
             then [Consumer (buffer tr) (actual_length tr) (data cd)] else []) /\
          List.filter is_submit rest =
            (if gives_up cd tr then [] else [Libusb_submit_transfer t]) /\
          List.filter is_hexdump rest = dumped w cd tr) w.
Proof.
  intros Hw. unfold dumped, gives_up, completed_ok.
  destruct (fatal_status (status tr)) eqn:Hf.
  - eapply wp_mono; [|apply (hmcfgusb_interrupt_fatal_status p t tr cd d w Hw Hf)].
    intros [] w' (Hq & Hc & Hd & Ht & Htr). cbv zeta. cbn [orb].
    repeat (split; [assumption|]). eexists. split; [exact Htr|].
    unfold fatal_status in Hf. apply andb_true_iff in Hf as [-> _]. (split; [|split]); reflexivity.
  - cbn [orb]. pose proof Hw as (Ht & (c & Hu & Hc) & _).
    destruct (fatal_status_false _ Hf) as [Hs | Hs].
    + rewrite Hs. cbn [status_ne status_code Z.eqb negb andb].
      destruct (consumer_rejects cd tr) eqn:Hr.
      * eapply wp_mono; [|apply (hmcfgusb_interrupt_rejected p t tr cd d w Hw Hs Hr)].
        intros [] w' (Hq & Hc' & Hd & Ht' & Htr). cbv zeta.
        repeat (split; [assumption|]). eexists. split; [exact Htr|].
        unfold consumer_rejects in Hr. unfold handed_over.
        destruct (cb cd); [|discriminate]. cbn [null negb].
        destruct (nonzero (debug w)); (split; [|split]); reflexivity.
      * eapply wp_mono; [|apply (hmcfgusb_interrupt_accepted t tr c cd w Ht Hu Hc Hs Hr)].
        intros [] w' H. cbv zeta in *. destruct H as (Hq & Hd & Hc' & Ht' & Htr).
        repeat (split; [assumption|]). eexists. split; [exact Htr|].
        unfold handed_over.
        destruct (cb cd); cbn [null negb];
          destruct (nonzero (debug w));
          destruct (env_submit_transfer (env w) (tick w) =? 0); (split; [|split]); reflexivity.
    + rewrite Hs. cbn [status_ne status_code Z.eqb negb andb].
      unfold wp. rewrite (hmcfgusb_interrupt_timed_out t tr w Ht Hs).
      pose proof (wp_resubmit t tr w Ht) as H. unfold wp in H.
      destruct (resubmit t w) as [[[] w']|]; [|contradiction].
      cbv zeta in *. destruct H as (Hq & Hd & Hc' & Ht' & Htr).
      repeat (split; [assumption|]). eexists. split; [exact Htr|].
      destruct (env_submit_transfer (env w) (tick w) =? 0); (split; [|split]); reflexivity.
Qed.

(** X4. The transition of the receive engine.  A completion is given up
    on exactly when its status is neither "completed" nor "timed out", or
    it is completed and the consumer rejects the buffer.  Then the quit
    flag becomes [EIO], the transfer is freed, the handle's pointer to it
    is cleared and nothing is resubmitted.  Otherwise the quit flag is
    unchanged, the transfer is submitted again exactly once, and the
    engine is ARMED if libusb accepts it and DEAD if not. *)
Theorem hmcfgusb_interrupt_transition p t tr cd d w :
  wired p t tr cd d w ->
  exists w' rest,
    hmcfgusb_interrupt t w = Some (tt, w') /\
    trace w' = trace w ++ rest /\
    if gives_up cd tr then
      quit w' = EIO /\ transfers w' !! t = None /\
      devs w' !! p = Some (set_transfer None d) /\
      engine p w' = DEAD /\ List.filter is_submit rest = []
    else
      quit w' = quit w /\ devs w' = devs w /\
      List.filter is_submit rest = [Libusb_submit_transfer t] /\
      engine p w' = (if env_submit_transfer (env w) (tick w) =? 0 then ARMED else DEAD).
Proof.
  intros Hw.
  destruct (wp_elim _ _ _ (hmcfgusb_interrupt_cases p t tr cd d w Hw))
    as ([] & w' & Hrun & H).
  cbv zeta in H. destruct H as (_ & Hq & Hd & Ht & rest & Htr & _ & Hsub & _).
  exists w', rest. split; [exact Hrun|]. split; [exact Htr|].
  destruct Hw as (_ & _ & _ & Hdp & Hdt).
  unfold engine. rewrite Hd, Ht. destruct (gives_up cd tr).
  - rewrite lookup_delete_eq, lookup_insert_eq. auto.
  - rewrite Hdp, Hdt. repeat (split; [assumption || reflexivity|]).
    destruct (env_submit_transfer (env w) (tick w) =? 0).
    + rewrite lookup_insert_eq. reflexivity.
    + rewrite lookup_delete_eq. reflexivity.
Qed.

Lemma hmcfgusb_interrupt_transition_witness :
  exists w' rest,
    hmcfgusb_interrupt 2 (completed LIBUSB_TRANSFER_STALL accept_all calm) = Some (tt, w') /\
    trace w' = trace (completed LIBUSB_TRANSFER_STALL accept_all calm) ++ rest /\
    (quit w' = EIO /\ transfers w' !! 2%nat = None /\
     devs w' !! 0%nat = Some (set_transfer None the_dev) /\
     engine 0 w' = DEAD /\ List.filter is_submit rest = []).
Proof.
  apply (hmcfgusb_interrupt_transition 0 2 (the_transfer LIBUSB_TRANSFER_STALL false)
           (the_cb_data accept_all) the_dev).
  apply wired_completed.
Defined.

(** X5. The consumer is called for a completion exactly when the status
    is "completed" and a consumer is registered, and then once, with the
    transfer's buffer, its actual length (zero included) and the caller's
    opaque data; no other status reaches it. *)
Theorem hmcfgusb_interrupt_consumer_calls p t tr cd d w :
  wired p t tr cd d w ->
  exists w' rest,
    hmcfgusb_interrupt t w = Some (tt, w') /\
    trace w' = trace w ++ rest /\
    List.filter is_consumer rest =
      (if completed_ok tr && negb (null (cb cd))
       then [Consumer (buffer tr) (actual_length tr) (data cd)] else []).
Proof.
  intros Hw.
  destruct (wp_elim _ _ _ (hmcfgusb_interrupt_cases p t tr cd d w Hw))
    as ([] & w' & Hrun & H).
  cbv zeta in H. destruct H as (_ & _ & _ & _ & rest & Htr & Hcons & _ & _).
  exists w', rest. auto.
Qed.

Lemma hmcfgusb_interrupt_consumer_calls_witness :
  exists w' rest,
    hmcfgusb_interrupt 2 (completed LIBUSB_TRANSFER_COMPLETED reject_all calm) = Some (tt, w') /\
    trace w' = trace (completed LIBUSB_TRANSFER_COMPLETED reject_all calm) ++ rest /\
    List.filter is_consumer rest = [Consumer [x48; x4d] 2 0].
Proof.
  apply (hmcfgusb_interrupt_consumer_calls 0 2 (the_transfer LIBUSB_TRANSFER_COMPLETED false)
           (the_cb_data reject_all) the_dev).
  apply wired_completed.
Defined.

(** X6. After a completion that is not given up on but whose
    resubmission libusb refuses, the handle still points to the transfer
    that the callback has freed, and closing the channel hands that
    pointer to [libusb_cancel_transfer]: the close call is undefined. *)
Theorem hmcfgusb_close_after_refused_resubmission p t tr cd d w :
  wired p t tr cd d w ->
  gives_up cd tr = false ->
  env_submit_transfer (env w) (tick w) <> 0 ->
  exists w',
    hmcfgusb_interrupt t w = Some (tt, w') /\
    devs w' !! p = Some d /\ transfer d = Some t /\ transfers w' !! t = None /\
    hmcfgusb_close p w' = None.
Proof.
  intros Hw Hg Herr.
  destruct (wp_elim _ _ _ (hmcfgusb_interrupt_cases p t tr cd d w Hw))
    as ([] & w' & Hrun & H).
  cbv zeta in H. rewrite Hg in H. destruct H as (_ & _ & Hd & Ht & _).
  destruct (Z.eqb_spec (env_submit_transfer (env w) (tick w)) 0); [contradiction|].
  destruct Hw as (_ & _ & _ & Hdp & Hdt).
  assert (Hd' : devs w' !! p = Some d) by (rewrite Hd; exact Hdp).
  assert (Ht' : transfers w' !! t = None) by (rewrite Ht; apply lookup_delete_eq).
  exists w'. repeat (split; [assumption|]).
  unfold hmcfgusb_close, mbind, M_bind, load_dev. rewrite Hd', Hdt.
  unfold libusb_cancel_transfer, mbind, M_bind, emit, modify, load_transfer.
  wsimpl. rewrite Ht'. reflexivity.
Qed.

Lemma hmcfgusb_close_after_refused_resubmission_witness :
  exists w',
    hmcfgusb_interrupt 2 (completed LIBUSB_TRANSFER_TIMED_OUT accept_all refusing) =
      Some (tt, w') /\
    devs w' !! 0%nat = Some the_dev /\ transfer the_dev = Some 2%nat /\
    transfers w' !! 2%nat = None /\
    hmcfgusb_close 0 w' = None.
Proof.
  apply (hmcfgusb_close_after_refused_resubmission 0 2
           (the_transfer LIBUSB_TRANSFER_TIMED_OUT false) (the_cb_data accept_all) the_dev).
  - apply wired_completed.
  - reflexivity.
  - discriminate.
Defined.

(** * Device discovery *)

Lemma opened_app l1 l2 : opened (l1 ++ l2) = opened l1 ++ opened l2.
Proof. apply omap_app. Qed.

Lemma opened_cons e l :
  opened (e :: l) = match e with Libusb_open d => d :: opened l | _ => opened l end.
Proof. destruct e; reflexivity. Qed.

Ltac opened_simpl :=
  rewrite ?opened_app, ?opened_cons; change (opened []) with (@nil usb_device);
  rewrite ?app_nil_r, <- ?app_assoc.

Lemma only_talks_refl w : only_talks w w.
Proof. repeat split. Qed.

Lemma only_talks_trans w1 w2 w3 : only_talks w1 w2 -> only_talks w2 w3 -> only_talks w1 w3.
Proof. unfold only_talks. intros H1 H2. intuition congruence. Qed.

(** The loop of lines 106-137 over the devices ahead of the index. *)
Lemma hmcfgusb_find_loop_spec todo : forall done w,
  wp (hmcfgusb_find_loop (length todo) (Z.of_nat (length done)) (done ++ todo))
     (fun r w' =>
        r = match List.find is_hmcfgusb todo with
            | Some d => if can_be_claimed d then Some (open_devh d) else None
            | None => None
            end /\
        opened (trace w') = opened (trace w) ++
          match List.find is_hmcfgusb todo with Some d => [d] | None => [] end /\
        only_talks w w') w.
Proof.
  induction todo as [|x todo IH]; intros done w; cbn [length hmcfgusb_find_loop List.find].
  - wp_run. rewrite app_nil_r. auto using only_talks_refl.
  - destruct (Z.ltb_spec (Z.of_nat (length done)) 0); [lia|].
    rewrite Nat2Z.id, list_lookup_middle by reflexivity.
    wp_run. unfold is_hmcfgusb at 1 2 3.
    assert (Hnext : wp (hmcfgusb_find_loop (length todo) (Z.of_nat (length done) + 1)
                          (done ++ x :: todo))
              (fun r w' =>
                 r = match List.find is_hmcfgusb todo with
                     | Some d => if can_be_claimed d then Some (open_devh d) else None
                     | None => None
                     end /\
                 opened (trace w') = opened (trace w) ++
                   match List.find is_hmcfgusb todo with Some d => [d] | None => [] end /\
                 only_talks w w')
              (set_trace (trace w ++ [Libusb_get_device_descriptor x]) w)).
    { replace (Z.of_nat (length done) + 1) with (Z.of_nat (length (done ++ [x])))
        by (rewrite length_app; cbn [length]; lia).
      replace (done ++ x :: todo) with ((done ++ [x]) ++ todo)
        by (rewrite <- app_assoc; reflexivity).
      eapply wp_mono; [|apply IH].
      intros r w' (Hr & Ho & Hf). wsimpl. split; [exact Hr|]. split.
      - rewrite Ho. opened_simpl. reflexivity.
      - eapply only_talks_trans; [|exact Hf]. repeat split. }
    destruct (nonzero (descriptor_err x)); cbn [negb andb]; [exact Hnext|].
    destruct ((idVendor x =? ID_VENDOR) && (idProduct x =? ID_PRODUCT)); [|exact Hnext].
    clear Hnext. wp_run. unfold can_be_claimed, nonzero.
    destruct (open_err x =? 0); cbn [negb andb]; wp_run.
    2:{ opened_simpl. repeat split. }
    destruct (detach_err x =? 0); cbn [negb andb orb];
      [|destruct (detach_err x =? LIBUSB_ERROR_NOT_FOUND); cbn [negb andb orb]]; wp_run;
      try (destruct (claim_err x =? 0); cbn [negb]; wp_run);
      opened_simpl; repeat split.
Qed.

Lemma hmcfgusb_find_spec w cnt l :
  env_device_list (env w) (tick w) = (cnt, l) ->
  cnt < 0 \/ cnt = Z.of_nat (length l) ->
  wp hmcfgusb_find
     (fun r w' =>
        r = match (if cnt <? 0 then None else List.find is_hmcfgusb l) with
            | Some d => if can_be_claimed d then Some (open_devh d) else None
            | None => None
            end /\
        opened (trace w') = opened (trace w) ++
          match (if cnt <? 0 then None else List.find is_hmcfgusb l) with
          | Some d => [d] | None => [] end /\
        only_talks w w') w.
Proof.
  intros Ha Hcnt. unfold hmcfgusb_find. wp_run. rewrite Ha. wsimpl.
  destruct (Z.ltb_spec cnt 0).
  - wp_run. opened_simpl. repeat split.
  - destruct Hcnt as [? | ->]; [lia|]. rewrite Nat2Z.id.
    eapply wp_mono; [|apply (hmcfgusb_find_loop_spec l [])].
    intros r w' (Hr & Ho & Hf). wsimpl. split; [exact Hr|]. split.
    + rewrite Ho. opened_simpl. reflexivity.
    + eapply only_talks_trans; [|exact Hf]. repeat split.
Qed.

(** X7. Discovery settles on the first attached device whose descriptor
    can be read and shows the HM-CFG-USB identifiers, and opens no other
    device: it returns that device's handle if opening, detaching the
    kernel driver (a missing driver is tolerated) and claiming the
    interface succeed, and null if any of them fails, without trying a
    later device.  Without such a device, or when the device list cannot
    be had, it returns null and opens nothing.  It changes nothing in the
    heap or the quit flag. *)
Theorem hmcfgusb_find_first_match w cnt l :
  env_device_list (env w) (tick w) = (cnt, l) ->
  cnt < 0 \/ cnt = Z.of_nat (length l) ->
  let first := if cnt <? 0 then None else List.find is_hmcfgusb l in
  exists w',
    hmcfgusb_find w =
      Some (match first with
            | Some d => if can_be_claimed d then Some (open_devh d) else None
            | None => None
            end, w') /\
    opened (trace w') = opened (trace w) ++
      match first with Some d => [d] | None => [] end /\
    only_talks w w'.
Proof.
  intros Ha Hcnt. cbv zeta.
  destruct (wp_elim _ _ _ (hmcfgusb_find_spec w cnt l Ha Hcnt))
    as (r & w' & Hrun & -> & Ho & Hf).
  exists w'. auto.
Qed.

Lemma hmcfgusb_find_first_match_witness :
  exists w',
    hmcfgusb_find (boot behind_a_hub) = Some (Some 7%nat, w') /\
    opened (trace w') = [hm_cfg_usb] /\
    only_talks (boot behind_a_hub) w'.
Proof.
  apply (hmcfgusb_find_first_match (boot behind_a_hub) 3
           [usb_hub; hm_cfg_usb; taken_hm_cfg_usb]).
  - reflexivity.
  - right. reflexivity.
Defined.

(** * Arming the receive engine *)

Ltac prepare_int_done :=
  wsimpl; repeat apply conj; wsimpl; try reflexivity; try lia;
  eexists; split; [rewrite <- ?app_assoc; reflexivity | repeat constructor].

Lemma hmcfgusb_prepare_int_spec devh cb_data w :
  transfers w !! brk w = None ->
  wp (hmcfgusb_prepare_int devh cb_data)
     (fun r w' =>
        r = (if can_arm w then Some (brk w) else None) /\
        transfers w' =
          (if can_arm w then <[brk w:=receive_transfer devh cb_data]> (transfers w)
           else transfers w) /\
        devs w' = devs w /\ cb_datas w' = cb_datas w /\ quit w' = quit w /\
        errno w' = errno w /\ debug w' = debug w /\ env w' = env w /\
        (brk w <= brk w')%nat /\
        (exists rest, trace w' = trace w ++ rest /\ no_poll rest)) w.
Proof.
  intros Hfresh. unfold hmcfgusb_prepare_int, can_arm. wp_run.
  destruct (env_alloc (env w) (tick w)); cbn [negb andb]; wp_run.
  2:{ prepare_int_done. }
  unfold libusb_alloc_transfer. wp_run.
  destruct (env_alloc (env w) (S (tick w))); cbn [negb andb]; wp_run.
  2:{ prepare_int_done. }
  unfold libusb_fill_interrupt_transfer. wp_run.
  cbn [flags status buffer actual_length submitted set_flags dev_handle endpoint
       buf_length user_data xfer_timeout].
  eapply wp_submit_transfer; [wsimpl; apply lookup_insert_eq|]. cbv zeta. wsimpl.
  unfold nonzero.
  destruct (env_submit_transfer (env w) (S (S (tick w))) =? 0); cbn [negb]; wp_run.
  - rewrite !insert_insert_eq. prepare_int_done.
  - eapply wp_free_transfer; [wsimpl; apply lookup_insert_eq|]. wsimpl.
    rewrite !insert_insert_eq, delete_insert_eq, delete_id by exact Hfresh.
    prepare_int_done.
Qed.

(** X8. Arming succeeds exactly when the data buffer and the transfer
    object can be allocated and libusb accepts the submission.  It then
    returns a new transfer, in flight, for the IN endpoint with the
    64-byte buffer, the 10 s timeout, both flags and the caller's context
    as user data.  In every other case it returns null and leaves no
    transfer behind: the set of allocated transfers is what it was. *)
Theorem hmcfgusb_prepare_int_arms devh cb_data w :
  transfers w !! brk w = None ->
  exists w',
    hmcfgusb_prepare_int devh cb_data w =
      Some (if can_arm w then Some (brk w) else None, w') /\
    transfers w' =
      (if can_arm w then <[brk w:=receive_transfer devh cb_data]> (transfers w)
       else transfers w) /\
    devs w' = devs w /\ cb_datas w' = cb_datas w /\ quit w' = quit w.
Proof.
  intros Hfresh.
  destruct (wp_elim _ _ _ (hmcfgusb_prepare_int_spec devh cb_data w Hfresh))
    as (r & w' & Hrun & -> & Ht & Hd & Hc & Hq & _).
  exists w'. auto.
Qed.

Lemma hmcfgusb_prepare_int_arms_witness :
  (exists w',
     hmcfgusb_prepare_int (Some 7%nat) (Some 1%nat) (boot calm) = Some (Some 0%nat, w') /\
     transfers w' = {[0%nat := receive_transfer (Some 7%nat) (Some 1%nat)]} /\
     devs w' = ∅ /\ cb_datas w' = ∅ /\ quit w' = 0) /\
  (exists w',
     hmcfgusb_prepare_int (Some 7%nat) (Some 1%nat) (boot refusing) = Some (None, w') /\
     transfers w' = ∅ /\
     devs w' = ∅ /\ cb_datas w' = ∅ /\ quit w' = 0).
Proof.
  split.
  - apply (hmcfgusb_prepare_int_arms (Some 7%nat) (Some 1%nat) (boot calm)). reflexivity.
  - apply (hmcfgusb_prepare_int_arms (Some 7%nat) (Some 1%nat) (boot refusing)). reflexivity.
Defined.

(** * Initialisation *)

Lemma hmcfgusb_find_loop_tick n : forall i l w r w',
  hmcfgusb_find_loop n i l w = Some (r, w') -> tick w' = tick w.
Proof.
  induction n as [|n IH]; intros i l w r w'; cbn [hmcfgusb_find_loop].
  - intros [= <- <-]. reflexivity.
  - destruct (if i <? 0 then None else l !! Z.to_nat i) as [d|]; [|discriminate].
    unfold mbind, M_bind, emit, modify, fprintf_stderr, emit, modify, mret, M_ret.
    repeat match goal with
           | |- context [if ?b then _ else _] => destruct b
           end;
      intros H; first [apply IH in H; exact H | injection H as <- <-; reflexivity].
Qed.

Lemma hmcfgusb_find_tick w r w' :
  hmcfgusb_find w = Some (r, w') -> tick w' = S (tick w).
Proof.
  unfold hmcfgusb_find, mbind, M_bind, emit, modify, ask, fprintf_stderr, emit, modify,
    mret, M_ret. wsimpl.
  destruct (env_device_list (env w) (tick w)) as [cnt l].
  destruct (cnt <? 0).
  - intros [= <- <-]. reflexivity.
  - intros H. apply hmcfgusb_find_loop_tick in H. exact H.
Qed.

(** Lines 307-308: the loop counts the entries of libusb's array. *)
Lemma count_usb_pfd_spec p usb : forall w d,
  devs w !! p = Some d -> n_usb_pfd d + Z.of_nat (length usb) <= INT_MAX ->
  wp (count_usb_pfd p usb)
     (fun _ w' =>
        frame_devs w w' /\
        devs w' = <[p:=set_n_usb_pfd (n_usb_pfd d + Z.of_nat (length usb)) d]> (devs w)) w.
Proof.
  induction usb as [|u usb IH]; intros w d Hd Hn; cbn [count_usb_pfd length].
  - wp_run. split; [apply frame_devs_refl|].
    rewrite Z.add_0_r. destruct d. wsimpl. rewrite insert_id; [reflexivity | exact Hd].
  - cbn [length] in Hn. wp_run.
    apply wp_incr_int; [lia|]. wp_run.
    set (w1 := set_devs _ w).
    eapply wp_mono; [|apply (IH w1 (set_n_usb_pfd (n_usb_pfd d + 1) d))].
    + intros [] w' [Hf Hds]. split.
      * eapply frame_devs_trans; [apply frame_devs_set_devs | exact Hf].
      * rewrite Hds. subst w1. wsimpl. rewrite insert_insert_eq.
        f_equal. unfold set_n_usb_pfd. wsimpl. f_equal. lia.
    + subst w1. wsimpl. apply lookup_insert_eq.
    + wsimpl. lia.
Qed.

(** Lines 319-321: one entry of the array is filled in. *)
Lemma wp_copy_usb_pfd p usb i d l u e Q w :
  devs w !! p = Some d -> pfd d = Some l -> 0 <= i ->
  usb !! Z.to_nat i = Some u -> l !! Z.to_nat i = Some e ->
  Q tt (set_devs (<[p:=set_pfd (Some (<[Z.to_nat i:=watched u]> l)) d]> (devs w)) w) ->
  wp (copy_usb_pfd p usb i) Q w.
Proof.
  intros Hd Hl Hi Hu He HQ. unfold copy_usb_pfd.
  destruct (Z.ltb_spec i 0); [lia|]. rewrite Hu.
  assert (Hlen : (Z.to_nat i < length l)%nat) by (eapply lookup_lt_Some; exact He).
  wp_run.
  eapply wp_load_pfd; [exact Hd | exact Hl | lia | exact He |].
  wp_run.
  eapply wp_store_pfd; [exact Hd | exact Hl | lia |].
  wp_run.
  eapply wp_load_pfd;
    [wsimpl; apply lookup_insert_eq | reflexivity | lia
    | apply list_lookup_insert_eq; exact Hlen |].
  wp_run.
  eapply wp_store_pfd;
    [wsimpl; apply lookup_insert_eq | reflexivity | rewrite length_insert; lia |].
  wp_run.
  eapply wp_load_pfd;
    [wsimpl; apply lookup_insert_eq | reflexivity | lia
    | apply list_lookup_insert_eq; rewrite !length_insert; exact Hlen |].
  wp_run.
  eapply wp_store_pfd;
    [wsimpl; apply lookup_insert_eq | reflexivity | rewrite !length_insert; lia |].
  wsimpl. rewrite !insert_insert_eq, !list_insert_insert_eq.
  unfold set_pfd in *. wsimpl. exact HQ.
Qed.

(** Lines 318-322: [done] and [usb_done] are the entries behind the index. *)
Lemma copy_usb_pfd_loop p usb_todo : forall usb_done done todo w d,
  devs w !! p = Some d -> pfd d = Some (done ++ todo) ->
  length usb_done = length done -> length usb_todo = length todo ->
  wp (for_count (length usb_todo) (Z.of_nat (length done))
        (copy_usb_pfd p (usb_done ++ usb_todo)))
     (fun _ w' =>
        frame_devs w w' /\
        devs w' = <[p:=set_pfd (Some (done ++ map watched usb_todo)) d]> (devs w)) w.
Proof.
  induction usb_todo as [|u usb_todo IH]; intros usb_done done todo w d Hd Hl Hn Hm;
    cbn [length for_count map].
  - destruct todo; [|discriminate Hm]. wp_run. split; [apply frame_devs_refl|].
    rewrite <- Hl. destruct d. wsimpl. rewrite insert_id; [reflexivity | exact Hd].
  - destruct todo as [|e todo]; [discriminate Hm|]. cbn [length] in Hm.
    wp_run.
    eapply wp_copy_usb_pfd; [exact Hd | exact Hl | lia | | |].
    { rewrite Nat2Z.id, <- Hn. apply list_lookup_middle. reflexivity. }
    { rewrite Nat2Z.id. apply list_lookup_middle. reflexivity. }
    rewrite Nat2Z.id, insert_app_r_alt, Nat.sub_diag by lia. cbn [insert list_insert].
    set (w1 := set_devs _ w).
    specialize (IH (usb_done ++ [u]) (done ++ [watched u]) todo w1
                  (set_pfd (Some (done ++ watched u :: todo)) d)).
    replace (Z.of_nat (length done) + 1) with (Z.of_nat (length (done ++ [watched u])))
      by (rewrite length_app; cbn [length]; lia).
    replace (usb_done ++ u :: usb_todo) with ((usb_done ++ [u]) ++ usb_todo)
      by (rewrite <- app_assoc; reflexivity).
    eapply wp_mono; [|apply IH].
    + intros [] w' [Hf Hds]. split.
      * eapply frame_devs_trans; [apply frame_devs_set_devs | exact Hf].
      * rewrite Hds. subst w1. wsimpl. rewrite insert_insert_eq, <- app_assoc. reflexivity.
    + subst w1. wsimpl. apply lookup_insert_eq.
    + wsimpl. rewrite <- app_assoc. reflexivity.
    + rewrite !length_app. cbn [length]. lia.
    + lia.
Qed.

Lemma wp_store_cb_data p c c' Q w :
  cb_datas w !! p = Some c -> Q tt (set_cb_datas (<[p:=c']> (cb_datas w)) w) ->
  wp (store_cb_data p c') Q w.
Proof. unfold wp, store_cb_data. intros ->. auto. Qed.

(** [hmcfgusb_init] up to the call of [libusb_get_pollfds], for answers
    named as in [init_can_arm]. *)
Ltac init_until_pollfds w Hi Hl Hfind Hclaim Ha2 Ha3 Ha4 Ha5 Hs :=
  cbv zeta in *; cbn [Nat.add] in *; unfold hmcfgusb_init; wp_run; rewrite Hi;
  change (nonzero 0) with false; cbv iota; wp_run;
  let w1 := fresh "w1" in
  match goal with |- wp _ _ ?w0 => set (w1 := w0) end;
  let r := fresh "r" in
  let w2 := fresh "w2" in
  let Hrun := fresh "Hrun" in
  let Hr := fresh "Hr" in
  let Ho := fresh "Ho" in
  let Hf := fresh "Hf" in
  let Ht2 := fresh "Ht2" in
  destruct (wp_elim _ _ _ (hmcfgusb_find_spec w1 _ _ Hl (or_intror eq_refl)))
    as (r & w2 & Hrun & Hr & Ho & Hf);
  pose proof (hmcfgusb_find_tick _ _ _ Hrun) as Ht2;
  eapply wp_intro; [exact Hrun|];
  match type of Hr with
  | context [Z.of_nat (length ?l) <? 0] =>
    destruct (Z.ltb_spec (Z.of_nat (length l)) 0); [lia|]
  end;
  rewrite Hfind, Hclaim in Hr; subst r; cbn [null];
  destruct Hf as (Hq2 & Hdbg2 & Herr2 & Hd2 & Hc2 & Htr2 & Hb2 & He2);
  subst w1; wsimpl;
  unfold malloc_dev; wp_run; rewrite He2, Ht2, Ha2; wp_run;
  unfold malloc_cb_data; wp_run; rewrite ?He2, ?Ht2, Ha3; wp_run;
  (eapply wp_store_cb_data; [wsimpl; apply lookup_insert_eq|]); wp_run;
  unfold hmcfgusb_prepare_int; wp_run; rewrite ?He2, ?Ht2, Ha4; cbn [negb]; wp_run;
  unfold libusb_alloc_transfer; wp_run; rewrite ?He2, ?Ht2, Ha5; wp_run;
  unfold libusb_fill_interrupt_transfer; wp_run;
  cbn [flags status buffer actual_length submitted set_flags dev_handle endpoint
       buf_length user_data xfer_timeout];
  (eapply wp_submit_transfer; [wsimpl; apply lookup_insert_eq|]); cbv zeta; wsimpl;
  rewrite ?He2, ?Ht2, Hs; change (nonzero 0) with false; cbv iota;
  change (0 =? 0) with true; cbv iota; wp_run; cbn [null];
  unfold libusb_get_pollfds; wp_run; rewrite ?He2, ?Ht2;
  rewrite !insert_insert_eq;
  cbn [set_flags set_submitted flags status buffer actual_length submitted dev_handle
       endpoint buf_length user_data xfer_timeout].

(** With every answer favourable, initialisation runs to its end; the
    heap it leaves, in full. *)
Lemma hmcfgusb_init_spec cb data w d usb :
  init_can_succeed w d usb ->
  wp (hmcfgusb_init cb data)
     (fun r w' =>
        let p := brk w in
        let n := Z.of_nat (length usb) in
        r = Some p /\ quit w' = 0 /\
        devs w' =
          <[p:=Dev (Some (open_devh d)) (Some (S (S p))) n n (Some (map watched usb))]>
            (devs w) /\
        cb_datas w' = <[S p:=CbData (Some p) cb data]> (cb_datas w) /\
        transfers w' =
          <[S (S p):=receive_transfer (Some (open_devh d)) (Some (S p))]> (transfers w) /\
        brk w' = S (S (S p)) /\ tick w' = (9 + tick w)%nat /\ env w' = env w /\
        debug w' = debug w /\ errno w' = errno w) w.
Proof.
  intros ((Hi & (l & Hl & Hfind) & Hclaim & Ha2 & Ha3 & Ha4 & Ha5 & Hs) & Hp & Hlen & Ha8).
  init_until_pollfds w Hi Hl Hfind Hclaim Ha2 Ha3 Ha4 Ha5 Hs.
  rewrite Hp. wp_run.
  fold (receive_transfer (Some (open_devh d)) (Some (S (brk w2)))).
  match goal with |- wp _ _ ?w1 => set (w3 := w1) end.
  set (d3 := Dev (Some (open_devh d)) (Some (S (S (brk w2)))) 0 0 None).
  assert (Hd3 : devs w3 !! brk w2 = Some d3) by (subst w3; wsimpl; apply lookup_insert_eq).
  eapply wp_mono; [|apply (count_usb_pfd_spec (brk w2) usb w3 d3 Hd3); subst d3; wsimpl; lia].
  intros [] w4 [Hf4 Hd4].
  destruct Hf4 as (Hq4 & Hdbg4 & Herr4 & Hc4 & Htr4 & Hb4 & Ht4 & Htrace4 & He4).
  assert (Hl4 : devs w4 !! brk w2 =
                Some (set_n_usb_pfd (n_usb_pfd d3 + Z.of_nat (length usb)) d3))
    by (rewrite Hd4; apply lookup_insert_eq).
  subst d3. wsimpl. wp_run.
  unfold malloc_pfd. wp_run. rewrite He4, Ht4. subst w3. wsimpl.
  rewrite ?He2, ?Ht2, Ha8. wp_run. cbn [null]. wp_run.
  unfold for_lt. rewrite Z.add_0_l, Z.sub_0_r, Nat2Z.id.
  match goal with |- wp _ _ ?w1 => set (w5 := w1) end.
  set (d5 := Dev (Some (open_devh d)) (Some (S (S (brk w2)))) (Z.of_nat (length usb)) 0
               (Some (replicate (length usb) (Pollfd 0 0 0)))).
  assert (Hd5 : devs w5 !! brk w2 = Some d5) by (subst w5; wsimpl; apply lookup_insert_eq).
  eapply wp_mono;
    [|apply (copy_usb_pfd_loop (brk w2) usb [] [] (replicate (length usb) (Pollfd 0 0 0))
               w5 d5 Hd5);
      [reflexivity | reflexivity | rewrite length_replicate; reflexivity]].
  intros [] w6 [Hf6 Hd6].
  destruct Hf6 as (Hq6 & Hdbg6 & Herr6 & Hc6 & Htr6 & Hb6 & Ht6 & Htrace6 & He6).
  assert (Hl6 : devs w6 !! brk w2 = Some (set_pfd (Some ([] ++ map watched usb)) d5))
    by (rewrite Hd6; apply lookup_insert_eq).
  subst d5. wsimpl. wp_run.
  rewrite Hd6, Hc6, Htr6, Hb6, Ht6, He6, Hdbg6, Herr6. subst w5. wsimpl.
  rewrite Hd4, Hc4, Htr4, Hb4, He4, Hdbg4, Herr4. wsimpl.
  rewrite Hd2, Hc2, Htr2, Hb2, He2, Hdbg2, Herr2.
  rewrite !insert_insert_eq. unfold set_n_pfd, set_pfd. wsimpl.
  repeat apply conj; reflexivity.
Qed.

(** X9. When libusb starts, the first HM-CFG-USB on the bus can be
    claimed, every allocation succeeds, the submission is accepted and
    libusb names its descriptors, initialisation returns a new handle and
    clears the quit flag.  It adds three objects to the heap and changes
    nothing else of it: the handle (connection, transfer, one array entry
    per libusb descriptor with cleared result, both counts equal to their
    number), the callback context (handle, consumer, opaque data) and the
    receive transfer in flight; handle, context and transfer point to one
    another, and the engine is ARMED. *)
Theorem hmcfgusb_init_establishes cb data w d usb :
  init_can_succeed w d usb ->
  let p := brk w in
  let n := Z.of_nat (length usb) in
  let h := Dev (Some (open_devh d)) (Some (S (S p))) n n (Some (map watched usb)) in
  let c := CbData (Some p) cb data in
  let tr := receive_transfer (Some (open_devh d)) (Some (S p)) in
  exists w',
    hmcfgusb_init cb data w = Some (Some p, w') /\
    quit w' = 0 /\
    devs w' = <[p:=h]> (devs w) /\
    cb_datas w' = <[S p:=c]> (cb_datas w) /\
    transfers w' = <[S (S p):=tr]> (transfers w) /\
    wired p (S (S p)) tr c h w' /\
    pfd_consistent h /\
    engine p w' = ARMED.
Proof.
  intros Hok. cbv zeta.
  destruct (wp_elim _ _ _ (hmcfgusb_init_spec cb data w d usb Hok))
    as (r & w' & Hrun & -> & Hq & Hd & Hc & Ht & _).
  exists w'. split; [exact Hrun|]. split; [exact Hq|].
  split; [exact Hd|]. split; [exact Hc|]. split; [exact Ht|].
  split; [|split].
  - unfold wired. rewrite Hd, Hc, Ht, !lookup_insert_eq.
    split; [reflexivity|]. split; [|auto].
    eexists. split; [reflexivity | apply lookup_insert_eq].
  - unfold pfd_consistent, default. cbn [n_pfd pfd from_option id]. rewrite length_map. reflexivity.
  - unfold engine. rewrite Hd, Ht, lookup_insert_eq. cbn [transfer].
    rewrite lookup_insert_eq. reflexivity.
Qed.

Lemma hmcfgusb_init_establishes_witness :
  exists w',
    hmcfgusb_init (Some accept_all) 0 (boot behind_a_hub) = Some (Some 0%nat, w') /\
    quit w' = 0 /\
    devs w' = <[0%nat:=Dev (Some 7%nat) (Some 2%nat) 1 1 (Some [Pollfd 3 1 0])]> ∅ /\
    cb_datas w' = <[1%nat:=CbData (Some 0%nat) (Some accept_all) 0]> ∅ /\
    transfers w' = <[2%nat:=receive_transfer (Some 7%nat) (Some 1%nat)]> ∅ /\
    wired 0 2 (receive_transfer (Some 7%nat) (Some 1%nat))
      (CbData (Some 0%nat) (Some accept_all) 0)
      (Dev (Some 7%nat) (Some 2%nat) 1 1 (Some [Pollfd 3 1 0])) w' /\
    pfd_consistent (Dev (Some 7%nat) (Some 2%nat) 1 1 (Some [Pollfd 3 1 0])) /\
    engine 0 w' = ARMED.
Proof.
  apply (hmcfgusb_init_establishes (Some accept_all) 0 (boot behind_a_hub) hm_cfg_usb
           [LibusbPollfd 3 1]).
  unfold init_can_succeed, init_can_arm.
  repeat split; try reflexivity; try (vm_compute; discriminate).
  exists [usb_hub; hm_cfg_usb; taken_hm_cfg_usb]. split; reflexivity.
Defined.

(** X10. When the receive engine is armed but libusb cannot name its
    descriptors, initialisation frees the handle and returns null with
    the quit flag untouched.  The callback context and the receive
    transfer stay behind, the transfer in flight, and the context still
    points to the freed handle: the heap is no longer in order. *)
Theorem hmcfgusb_init_without_pollfds cb data w d :
  init_can_arm w d ->
  env_pollfds (env w) (7 + tick w) = None ->
  let p := brk w in
  exists w',
    hmcfgusb_init cb data w = Some (None, w') /\
    quit w' = quit w /\
    devs w' = delete p (devs w) /\
    cb_datas w' = <[S p:=CbData (Some p) cb data]> (cb_datas w) /\
    transfers w' =
      <[S (S p):=receive_transfer (Some (open_devh d)) (Some (S p))]> (transfers w) /\
    ~ heap_ok w'.
Proof.
  intros (Hi & (l & Hl & Hfind) & Hclaim & Ha2 & Ha3 & Ha4 & Ha5 & Hs) Hp.
  assert (wp (hmcfgusb_init cb data)
            (fun r w' =>
               r = None /\ quit w' = quit w /\
               devs w' = delete (brk w) (devs w) /\
               cb_datas w' = <[S (brk w):=CbData (Some (brk w)) cb data]> (cb_datas w) /\
               transfers w' =
                 <[S (S (brk w)):=receive_transfer (Some (open_devh d)) (Some (S (brk w)))]>
                   (transfers w)) w) as H.
  { init_until_pollfds w Hi Hl Hfind Hclaim Ha2 Ha3 Ha4 Ha5 Hs.
    rewrite Hp. wp_run. unfold free_dev. wp_run.
    rewrite delete_insert_eq.
    rewrite Hd2, Hc2, Htr2, Hb2, Hq2.
    repeat apply conj; reflexivity. }
  cbv zeta. apply wp_elim in H as (r & w' & Hrun & -> & Hq & Hd & Hc & Ht).
  exists w'. split; [exact Hrun|]. split; [exact Hq|].
  split; [exact Hd|]. split; [exact Hc|]. split; [exact Ht|].
  intros Hok.
  destruct (Hok (S (S (brk w))) (receive_transfer (Some (open_devh d)) (Some (S (brk w))))
              (S (brk w))) as (cd & Hcd & Hdev).
  - rewrite Ht. apply lookup_insert_eq.
  - reflexivity.
  - rewrite Hc, lookup_insert_eq in Hcd. injection Hcd as <-.
    destruct (Hdev (brk w) eq_refl) as (d' & Hd' & _).
    rewrite Hd, lookup_delete_eq in Hd'. discriminate.
Qed.

Lemma hmcfgusb_init_without_pollfds_witness :
  exists w',
    hmcfgusb_init (Some accept_all) 0 (boot no_pollfds) = Some (None, w') /\
    quit w' = 0 /\
    devs w' = delete 0%nat ∅ /\
    cb_datas w' = <[1%nat:=CbData (Some 0%nat) (Some accept_all) 0]> ∅ /\
    transfers w' = <[2%nat:=receive_transfer (Some 7%nat) (Some 1%nat)]> ∅ /\
    ~ heap_ok w'.
Proof.
  apply (hmcfgusb_init_without_pollfds (Some accept_all) 0 (boot no_pollfds) hm_cfg_usb).
  - unfold init_can_arm. repeat split; try reflexivity.
    exists [hm_cfg_usb]. split; reflexivity.
  - reflexivity.
Defined.

(** * What a wait call can answer *)

(** X11. On a handle whose count matches its array, a wait call is
    defined and answers either -1 or the descriptor of a
    caller-registered entry that poll(2) has just reported ready, the
    first ready entry of the array; in the latter case errno is 0 and the
    quit flag is as before.  An internally-owned descriptor is never
    returned as such, and the quit flag is left alone or set to EIO. *)
Theorem hmcfgusb_poll_answer dev timeout w d l :
  heap_ok w ->
  devs w !! dev = Some d -> pfd d = Some l -> n_pfd d = Z.of_nat (length l) ->
  (forall s, wait_bound timeout (env_next_timeout (env w) (tick w)) = Some s ->
             LONG_MIN <= s * 1000 <= LONG_MAX) ->
  exists r w',
    hmcfgusb_poll dev timeout w = Some (r, w') /\
    sticky (quit w) (quit w') /\
    (r = -1 \/
     exists k e,
       l !! k = Some e /\ n_usb_pfd d <= Z.of_nat k /\ r = fd e /\
       default 0 (snd (env_poll (env w) (S (tick w))) !! k) <> 0 /\
       (forall j, (j < k)%nat -> default 0 (snd (env_poll (env w) (S (tick w))) !! j) = 0) /\
       errno w' = 0 /\ quit w' = quit w).
Proof.
  intros Hok Hd Hl Hn Hs.
  assert (Hgoal : forall r w',
            hmcfgusb_poll dev timeout w = Some (r, w') ->
            (r = -1 \/
             exists k e,
               l !! k = Some e /\ n_usb_pfd d <= Z.of_nat k /\ r = fd e /\
               default 0 (snd (env_poll (env w) (S (tick w))) !! k) <> 0 /\
               (forall j, (j < k)%nat ->
                          default 0 (snd (env_poll (env w) (S (tick w))) !! j) = 0) /\
               errno w' = 0 /\ quit w' = quit w) ->
            exists r w',
              hmcfgusb_poll dev timeout w = Some (r, w') /\
              sticky (quit w) (quit w') /\
              (r = -1 \/
               exists k e,
                 l !! k = Some e /\ n_usb_pfd d <= Z.of_nat k /\ r = fd e /\
                 default 0 (snd (env_poll (env w) (S (tick w))) !! k) <> 0 /\
                 (forall j, (j < k)%nat ->
                            default 0 (snd (env_poll (env w) (S (tick w))) !! j) = 0) /\
                 errno w' = 0 /\ quit w' = quit w)).
  { intros r w' Hrun H. exists r, w'. split; [exact Hrun|]. split; [|exact H].
    exact (hmcfgusb_poll_sticky dev timeout w r w' Hrun). }
  destruct (wait_bound timeout (env_next_timeout (env w) (tick w))) as [s|] eqn:Hb.
  - destruct (wp_elim _ _ _
                (hmcfgusb_poll_polling dev timeout w d l s Hok Hd Hl Hn Hb (Hs s eq_refl)))
      as (r & w' & Hrun & Hout).
    apply (Hgoal r w' Hrun). unfold polling_outcome in Hout.
    destruct (env_poll (env w) (S (tick w))) as [n rev]. cbn [snd].
    destruct (n <? 0); [left; apply Hout|].
    destruct (n =? 0); [left; apply Hout|].
    destruct (scan_list (n_usb_pfd d) 0 (polled rev l)) as [| |fd0] eqn:Hscan;
      [left; apply Hout | left; apply Hout |].
    right. destruct Hout as (-> & He & Hq & _).
    destruct (scan_list_return _ _ _ _ Hscan) as (k & e & Hk & Hle & Hr & Hfd & Hbefore).
    assert (Hlt : (k < length l)%nat).
    { apply lookup_lt_Some in Hk. rewrite polled_length in Hk. exact Hk. }
    destruct (lookup_lt_is_Some_2 l k Hlt) as [x Hx].
    rewrite (polled_lookup rev l k x Hx) in Hk. injection Hk as <-.
    cbn [fd revents] in *.
    exists k, x. split; [exact Hx|]. split; [lia|]. split; [auto|]. split; [exact Hr|].
    split; [|auto].
    intros j Hj.
    destruct (lookup_lt_is_Some_2 l j) as [y Hy]; [lia|].
    apply (Hbefore j _ Hj (polled_lookup rev l j y Hy)).
  - unfold wait_bound in Hb.
    destruct (env_next_timeout (env w) (tick w)) as [err tv] eqn:Ha.
    destruct (Z.ltb_spec err 0).
    + destruct (wp_elim _ _ _ (hmcfgusb_poll_query_fails dev timeout w err tv Ha H))
        as (r & w' & Hrun & -> & _).
      apply (Hgoal _ w' Hrun). left. reflexivity.
    + destruct (Z.eqb_spec err 0); [discriminate|].
      destruct tv as [sec usec]. cbn [tv_sec tv_usec] in Hb.
      destruct (Z.eqb_spec sec 0); [|discriminate].
      destruct (Z.eqb_spec usec 0); [|discriminate]. subst sec usec.
      assert (Hpos : 0 < err) by lia.
      destruct (wp_elim _ _ _ (hmcfgusb_poll_timer_due dev timeout w err Hok Ha Hpos))
        as (r & w' & Hrun & -> & _).
      apply (Hgoal _ w' Hrun). left. reflexivity.
Qed.

Lemma hmcfgusb_poll_answer_witness :
  exists r w',
    hmcfgusb_poll 0 5 (channel 0 accept_all caller_ready) = Some (r, w') /\
    sticky 0 (quit w') /\
    (r = -1 \/
     exists k e,
       [Pollfd 3 1 0; Pollfd 20 1 0] !! k = Some e /\ 1 <= Z.of_nat k /\ r = fd e /\
       default 0 ([0; 1] !! k) <> 0 /\
       (forall j, (j < k)%nat -> default 0 ([0; 1] !! j) = 0) /\
       errno w' = 0 /\ quit w' = 0).
Proof.
  apply (hmcfgusb_poll_answer 0 5 (channel 0 accept_all caller_ready) the_dev
           [Pollfd 3 1 0; Pollfd 20 1 0]).
  - apply heap_ok_channel.
  - reflexivity.
  - reflexivity.
  - reflexivity.
  - intros s [= <-]. unfold LONG_MIN, LONG_MAX. lia.
Defined.

(** * The early exits of a wait call *)

(** X12. When libusb cannot tell its next timeout, the wait call answers
    -1 with errno EIO after that one query: it does not poll, does not
    service events, and leaves the quit flag and the heap, the handle
    included, as they are. *)
Theorem hmcfgusb_poll_timeout_query_failure dev timeout w err tv :
  env_next_timeout (env w) (tick w) = (err, tv) -> err < 0 ->
  exists w',
    hmcfgusb_poll dev timeout w = Some (-1, w') /\
    errno w' = EIO /\
    trace w' = trace w ++
      [Libusb_get_next_timeout; Stderr "libusb_get_next_timeout: %s" err] /\
    quit w' = quit w /\ devs w' = devs w /\
    cb_datas w' = cb_datas w /\ transfers w' = transfers w.
Proof.
  intros Ha He.
  destruct (wp_elim _ _ _ (hmcfgusb_poll_query_fails dev timeout w err tv Ha He))
    as (r & w' & Hrun & -> & Herrno & Htr & Hq & _ & Hd & Hc & Ht).
  exists w'. auto 10.
Qed.

Lemma hmcfgusb_poll_timeout_query_failure_witness :
  exists w',
    hmcfgusb_poll 0 5 (channel 0 accept_all no_timeout_answer) = Some (-1, w') /\
    errno w' = EIO /\
    trace w' = [] ++ [Libusb_get_next_timeout; Stderr "libusb_get_next_timeout: %s" (-99)] /\
    quit w' = 0 /\ devs w' = {[0%nat := the_dev]} /\
    cb_datas w' = {[1%nat := the_cb_data accept_all]} /\
    transfers w' = {[2%nat := the_transfer LIBUSB_TRANSFER_COMPLETED true]}.
Proof.
  apply (hmcfgusb_poll_timeout_query_failure 0 5 (channel 0 accept_all no_timeout_answer)
           (-99) (Timeval 0 0)).
  - reflexivity.
  - lia.
Defined.

(** X13. When poll(2) fails, the wait call answers -1 with errno 0 and
    returns at once: libusb's events are not serviced, and a quit flag
    that is set is neither reported in errno nor changed.  The answer is
    the one of a wait in which nothing happened. *)
Theorem hmcfgusb_poll_failure_is_silent dev timeout w d l s n rev :
  heap_ok w ->
  devs w !! dev = Some d -> pfd d = Some l -> n_pfd d = Z.of_nat (length l) ->
  wait_bound timeout (env_next_timeout (env w) (tick w)) = Some s ->
  LONG_MIN <= s * 1000 <= LONG_MAX ->
  env_poll (env w) (S (tick w)) = (n, rev) -> n < 0 ->
  exists w' code,
    hmcfgusb_poll dev timeout w = Some (-1, w') /\
    errno w' = 0 /\ quit w' = quit w /\
    trace w' = trace w ++
      [Libusb_get_next_timeout;
       Poll (Some (map (set_revents 0) l)) (n_pfd d) (wrap_int (s * 1000));
       Stderr "poll" code].
Proof.
  intros Hok Hd Hl Hn Hb Hs Hp Hneg.
  destruct (wp_elim _ _ _ (hmcfgusb_poll_polling dev timeout w d l s Hok Hd Hl Hn Hb Hs))
    as (r & w' & Hrun & Hout).
  unfold polling_outcome in Hout. rewrite Hp in Hout.
  destruct (Z.ltb_spec n 0); [|lia].
  destruct Hout as (-> & He & Hq & Htr). exists w', 0. auto.
Qed.

Lemma hmcfgusb_poll_failure_is_silent_witness :
  exists w' code,
    hmcfgusb_poll 0 5 (channel EIO accept_all poll_fails) = Some (-1, w') /\
    errno w' = 0 /\ quit w' = EIO /\
    trace w' = [] ++
      [Libusb_get_next_timeout;
       Poll (Some (map (set_revents 0) [Pollfd 3 1 0; Pollfd 20 1 0])) 2
            (wrap_int (5 * 1000));
       Stderr "poll" code].
Proof.
  apply (hmcfgusb_poll_failure_is_silent 0 5 (channel EIO accept_all poll_fails)
           the_dev [Pollfd 3 1 0; Pollfd 20 1 0] 5 (-1) []).
  - apply heap_ok_channel.
  - reflexivity.
  - reflexivity.
  - reflexivity.
  - reflexivity.
  - unfold LONG_MIN, LONG_MAX. lia.
  - reflexivity.
  - lia.
Defined.

(** * Registrations in sequence, and after a refusal *)

Lemma bind_Some {A B} (m : M A) (k : A -> M B) w a w' :
  m w = Some (a, w') -> (m ≫= k) w = k a w'.
Proof. unfold mbind, M_bind. intros ->. reflexivity. Qed.

Lemma bind_None {A B} (m : M A) (k : A -> M B) w :
  m w = None -> (m ≫= k) w = None.
Proof. unfold mbind, M_bind. intros ->. reflexivity. Qed.

(** The clearing loop of lines 376-378 on a handle whose array pointer is
    null while its count is positive dereferences the null pointer. *)
Lemma hmcfgusb_poll_null_array dev timeout w d s :
  devs w !! dev = Some d -> pfd d = None -> 0 < n_pfd d ->
  wait_bound timeout (env_next_timeout (env w) (tick w)) = Some s ->
  hmcfgusb_poll dev timeout w = None.
Proof.
  intros Hd Hp Hn Hb. unfold hmcfgusb_poll.
  rewrite (bind_Some _ _ w tt (set_errno 0 w)) by reflexivity.
  rewrite (bind_Some _ _ _ tt (set_trace (trace w ++ [Libusb_get_next_timeout]) (set_errno 0 w)))
    by reflexivity.
  match goal with
  | |- (ask env_next_timeout ≫= _) ?w0 = _ =>
    rewrite (bind_Some _ _ w0 (env_next_timeout (env w) (tick w)) (set_tick (S (tick w)) w0))
      by reflexivity
  end.
  unfold wait_bound in Hb.
  destruct (env_next_timeout (env w) (tick w)) as [err tv].
  destruct (err <? 0); [discriminate|].
  assert (Hev : exists tv',
             (if err =? 0 then (set_tv_sec timeout tv, false)
              else (tv, (tv_sec tv =? 0) && (tv_usec tv =? 0))) = (tv', false)).
  { destruct (err =? 0); [eauto|].
    destruct ((tv_sec tv =? 0) && (tv_usec tv =? 0)); [discriminate | eauto]. }
  destruct Hev as (tv' & ->). cbn [negb].
  match goal with
  | |- (load_dev dev ≫= _) ?w0 = _ =>
    rewrite (bind_Some _ _ w0 d w0) by (unfold load_dev; wsimpl; rewrite Hd; reflexivity)
  end.
  apply bind_None. unfold for_lt.
  destruct (Z.to_nat (n_pfd d - 0)) as [|k] eqn:Hk; [lia|].
  cbn [for_count]. apply bind_None. apply bind_None.
  unfold load_pfd.
  match goal with
  | |- (load_dev dev ≫= _) ?w0 = _ =>
    rewrite (bind_Some _ _ w0 d w0) by (unfold load_dev; wsimpl; rewrite Hd; reflexivity)
  end.
  rewrite Hp. reflexivity.
Qed.

(** A refused registration, with what it leaves of the world. *)
Lemma hmcfgusb_add_pfd_refused_frame dev fd events w d :
  devs w !! dev = Some d -> n_pfd d < INT_MAX ->
  env_realloc (env w) (tick w) = None ->
  wp (hmcfgusb_add_pfd dev fd events)
     (fun r w' =>
        r = 0 /\
        devs w' = <[dev:=set_pfd None (set_n_pfd (n_pfd d + 1) d)]> (devs w) /\
        tick w' = S (tick w) /\ env w' = env w) w.
Proof.
  intros Hd Hmax Hr.
  unfold hmcfgusb_add_pfd. wp_go. apply wp_incr_int; [exact Hmax|]. wp_go.
  unfold realloc_pfd. wp_go. rewrite Hr. wp_go.
  cbn [null]. unfold perror. wp_go.
  rewrite insert_insert_eq. auto.
Qed.

(** X14. After a registration that failed for lack of memory, the next
    wait call that reaches its poll step has no defined behaviour: the
    clearing loop runs up to the incremented count and writes through the
    array pointer, which the failed call has left null. *)
Theorem hmcfgusb_poll_after_refused_add_pfd dev fd events timeout w d s :
  devs w !! dev = Some d -> 0 <= n_pfd d < INT_MAX ->
  env_realloc (env w) (tick w) = None ->
  wait_bound timeout (env_next_timeout (env w) (S (tick w))) = Some s ->
  exists w1,
    hmcfgusb_add_pfd dev fd events w = Some (0, w1) /\
    hmcfgusb_poll dev timeout w1 = None /\
    run_all [Op_add_pfd dev fd events; Op_poll dev timeout] w = None.
Proof.
  intros Hd Hn Hr Hb.
  destruct (wp_elim _ _ _
              (hmcfgusb_add_pfd_refused_frame dev fd events w d Hd (proj2 Hn) Hr))
    as (r & w1 & Hrun & -> & Hd1 & Ht1 & He1).
  assert (Hpoll : hmcfgusb_poll dev timeout w1 = None).
  { apply (hmcfgusb_poll_null_array dev timeout w1
             (set_pfd None (set_n_pfd (n_pfd d + 1) d)) s).
    - rewrite Hd1. apply lookup_insert_eq.
    - reflexivity.
    - wsimpl. lia.
    - rewrite He1, Ht1. exact Hb. }
  exists w1. split; [exact Hrun|]. split; [exact Hpoll|].
  cbn [run_all run]. rewrite Hrun. cbn [fmap option_fmap option_map snd mbind option_bind].
  rewrite Hpoll. reflexivity.
Qed.

Lemma hmcfgusb_poll_after_refused_add_pfd_witness :
  exists w1,
    hmcfgusb_add_pfd 0 21 1 (channel 0 accept_all out_of_memory) = Some (0, w1) /\
    hmcfgusb_poll 0 5 w1 = None /\
    run_all [Op_add_pfd 0 21 1; Op_poll 0 5] (channel 0 accept_all out_of_memory) = None.
Proof.
  apply (hmcfgusb_poll_after_refused_add_pfd 0 21 1 5 (channel 0 accept_all out_of_memory)
           the_dev 5).
  - reflexivity.
  - cbn [n_pfd the_dev]. unfold INT_MAX. lia.
  - reflexivity.
  - reflexivity.
Defined.

(** An accepted registration on a handle whose count matches its array,
    with what it leaves of the world. *)
Lemma hmcfgusb_add_pfd_accepted_frame dev fd0 ev0 w d junk :
  devs w !! dev = Some d -> pfd_consistent d -> n_pfd d < INT_MAX ->
  env_realloc (env w) (tick w) = Some junk ->
  wp (hmcfgusb_add_pfd dev fd0 ev0)
     (fun r w' =>
        r = 1 /\
        devs w' =
          <[dev:=set_pfd (Some (default [] (pfd d) ++ [Pollfd fd0 ev0 0]))
                   (set_n_pfd (n_pfd d + 1) d)]> (devs w) /\
        quit w' = quit w /\ cb_datas w' = cb_datas w /\ transfers w' = transfers w /\
        tick w' = S (tick w) /\ env w' = env w) w.
Proof.
  intros Hd Hc Hmax Hr. unfold pfd_consistent in Hc.
  assert (Hn : 0 <= n_pfd d) by lia.
  unfold hmcfgusb_add_pfd. wp_go. apply wp_incr_int; [lia|]. wp_go.
  unfold realloc_pfd. wp_go. rewrite Hr. wp_go. cbn [null].
  set (l := default [] (pfd d)) in *.
  assert (Hres : resize (Z.to_nat (n_pfd d + 1)) junk l = l ++ [junk]).
  { rewrite resize_ge by lia.
    replace (Z.to_nat (n_pfd d + 1) - length l)%nat with 1%nat by lia. reflexivity. }
  rewrite Hres.
  assert (Hlen : length (l ++ [junk]) = Z.to_nat (n_pfd d + 1))
    by (rewrite length_app; cbn [length]; lia).
  assert (Hi : 0 <= n_pfd d + 1 - 1 < Z.of_nat (length (l ++ [junk]))) by lia.
  assert (Hlt : (Z.to_nat (n_pfd d + 1 - 1) < length (l ++ [junk]))%nat) by lia.
  destruct (lookup_lt_is_Some_2 (l ++ [junk]) _ Hlt) as [e0 He0].
  repeat first
    [ progress wp_go
    | eapply wp_load_pfd;
      [ wsimpl; apply lookup_insert_eq | reflexivity | lia
      | first [ exact He0 | apply list_lookup_insert_eq; rewrite ?length_insert; exact Hlt ] | ]
    | eapply wp_store_pfd;
      [ wsimpl; apply lookup_insert_eq | reflexivity | rewrite ?length_insert; exact Hi | ] ].
  rewrite !insert_insert_eq, !list_insert_insert_eq.
  replace (Z.to_nat (n_pfd d + 1 - 1)) with (length l + 0)%nat by lia.
  rewrite insert_app_r. cbn [insert list_insert].
  destruct e0. cbn [set_fd set_events set_revents fd events revents]. auto 10.
Qed.

(** X15. Registrations made one after the other on a handle whose count
    matches its array, each granted its memory, append their entries in
    the order of the calls, with cleared readiness, behind the entries
    that were there.  The count grows by their number; the count of
    internally-owned entries, the connection, the transfer, every other
    handle and the quit flag stay as they are. *)
Theorem hmcfgusb_add_pfd_in_sequence dev reqs : forall w d,
  devs w !! dev = Some d -> pfd_consistent d ->
  n_pfd d + Z.of_nat (length reqs) <= INT_MAX ->
  (forall i, (i < length reqs)%nat -> env_realloc (env w) (tick w + i) <> None) ->
  exists w' d',
    run_all (registrations dev reqs) w = Some w' /\
    devs w' !! dev = Some d' /\
    default [] (pfd d') = default [] (pfd d) ++ registered reqs /\
    n_pfd d' = n_pfd d + Z.of_nat (length reqs) /\
    pfd_consistent d' /\
    n_usb_pfd d' = n_usb_pfd d /\ usb_devh d' = usb_devh d /\ transfer d' = transfer d /\
    (forall p, p <> dev -> devs w' !! p = devs w !! p) /\
    quit w' = quit w.
Proof.
  induction reqs as [|[fd0 ev0] reqs IH]; intros w d Hd Hc Hmax Hmem.
  - exists w, d. cbn [registrations map run_all registered length].
    rewrite app_nil_r, Z.add_0_r. auto 10.
  - cbn [length] in Hmax, Hmem.
    destruct (env_realloc (env w) (tick w)) as [junk|] eqn:Hr.
    2:{ exfalso. apply (Hmem 0%nat); [lia|]. rewrite Nat.add_0_r. exact Hr. }
    assert (Hlt : n_pfd d < INT_MAX) by lia.
    destruct (wp_elim _ _ _
                (hmcfgusb_add_pfd_accepted_frame dev fd0 ev0 w d junk Hd Hc Hlt Hr))
      as (r & w1 & Hrun & -> & Hd1 & Hq1 & _ & _ & Ht1 & He1).
    set (d1 := set_pfd (Some (default [] (pfd d) ++ [Pollfd fd0 ev0 0]))
                 (set_n_pfd (n_pfd d + 1) d)) in *.
    assert (Hl1 : devs w1 !! dev = Some d1) by (rewrite Hd1; apply lookup_insert_eq).
    assert (Hc1 : pfd_consistent d1).
    { unfold pfd_consistent in *. subst d1. wsimpl. cbn [default from_option id].
      rewrite length_app. cbn [length]. lia. }
    destruct (IH w1 d1 Hl1 Hc1) as (w' & d' & Hrest & Hd' & Hl' & Hn' & Hc' & Hu' & Hh' & Ht' & Ho' & Hq').
    { subst d1. wsimpl. lia. }
    { intros i Hi. rewrite He1, Ht1.
      replace (S (tick w) + i)%nat with (tick w + S i)%nat by lia.
      apply Hmem. lia. }
    exists w', d'. cbn [registrations map run_all run fst snd].
    rewrite Hrun. cbn [fmap option_fmap option_map snd mbind option_bind].
    split; [exact Hrest|]. split; [exact Hd'|]. split.
    { rewrite Hl'. subst d1. wsimpl. cbn [default from_option id registered map fst snd].
      rewrite <- app_assoc. reflexivity. }
    split; [rewrite Hn'; subst d1; wsimpl; cbn [length]; lia|].
    split; [exact Hc'|].
    split; [rewrite Hu'; reflexivity|].
    split; [rewrite Hh'; reflexivity|].
    split; [rewrite Ht'; reflexivity|].
    split; [|congruence].
    intros p Hp. rewrite (Ho' p Hp), Hd1. apply lookup_insert_ne. congruence.
Qed.

Lemma hmcfgusb_add_pfd_in_sequence_witness :
  exists w' d',
    run_all (registrations 0 [(21, 1); (22, 4)]) (channel 0 accept_all calm) = Some w' /\
    devs w' !! 0%nat = Some d' /\
    default [] (pfd d') =
      [Pollfd 3 1 0; Pollfd 20 1 0] ++ registered [(21, 1); (22, 4)] /\
    n_pfd d' = 2 + Z.of_nat 2 /\
    pfd_consistent d' /\
    n_usb_pfd d' = 1 /\ usb_devh d' = Some 7%nat /\ transfer d' = Some 2%nat /\
    (forall p, p <> 0%nat ->
               devs w' !! p = devs (channel 0 accept_all calm) !! p) /\
    quit w' = 0.
Proof.
  apply (hmcfgusb_add_pfd_in_sequence 0 [(21, 1); (22, 4)] (channel 0 accept_all calm)
           the_dev).
  - reflexivity.
  - reflexivity.
  - cbn [n_pfd the_dev length]. unfold INT_MAX. lia.
  - intros i _. discriminate.
Defined.

(** * The bound of the poll step *)

(** A wait call that polls calls poll(2) once. *)
Lemma hmcfgusb_poll_polls_once dev timeout w d l s :
  heap_ok w ->
  devs w !! dev = Some d -> pfd d = Some l -> n_pfd d = Z.of_nat (length l) ->
  wait_bound timeout (env_next_timeout (env w) (tick w)) = Some s ->
  LONG_MIN <= s * 1000 <= LONG_MAX ->
  exists r w' rest,
    hmcfgusb_poll dev timeout w = Some (r, w') /\
    trace w' = trace w ++
      [Libusb_get_next_timeout;
       Poll (Some (map (set_revents 0) l)) (n_pfd d) (wrap_int (s * 1000))] ++ rest /\
    no_poll rest.
Proof.
  intros Hok Hd Hl Hn Hb Hlong.
  destruct (wp_elim _ _ _ (hmcfgusb_poll_polling dev timeout w d l _ Hok Hd Hl Hn Hb Hlong))
    as (r & w' & Hrun & Hout).
  exists r, w'. unfold polling_outcome in Hout.
  destruct (env_poll (env w) (S (tick w))) as [n rev].
  destruct (n <? 0).
  - destruct Hout as (_ & _ & _ & Htr). eexists. split; [exact Hrun|].
    split; [exact Htr|]. repeat constructor.
  - destruct (if n =? 0 then Scan_usb_event
              else scan_list (n_usb_pfd d) 0 (polled rev l)).
    + destruct Hout as (_ & _ & _ & Htr). eexists. split; [exact Hrun|].
      split; [exact Htr|]. destruct (nonzero (quit w)); repeat constructor.
    + destruct Hout as (_ & _ & _ & rest & Htr & Hq).
      eexists. split; [exact Hrun|]. split; [exact Htr|].
      constructor; [reflexivity | exact Hq].
    + destruct Hout as (_ & _ & _ & Htr). exists []. rewrite app_nil_r.
      split; [exact Hrun|]. split; [exact Htr | constructor].
Qed.

(** X16. When libusb has no timer pending, the wait call polls once, for
    the caller's timeout: the bound handed to poll(2) is the timeout in
    milliseconds as long as that fits an int, up to 2147483 s.  From
    2147484 s to 4294967 s the conversion of the long product to the int
    that poll(2) takes (reduction modulo 2^32) wraps around and the bound
    is negative. *)
Theorem hmcfgusb_poll_caller_timeout dev timeout w d l tv :
  heap_ok w ->
  devs w !! dev = Some d -> pfd d = Some l -> n_pfd d = Z.of_nat (length l) ->
  env_next_timeout (env w) (tick w) = (0, tv) ->
  - INT_MAX - 1 <= timeout <= INT_MAX ->
  exists r w' b,
    hmcfgusb_poll dev timeout w = Some (r, w') /\
    poll_bounds (trace w') = poll_bounds (trace w) ++ [b] /\
    (-2147483 <= timeout <= 2147483 -> b = timeout * 1000) /\
    (2147483 < timeout <= 4294967 -> b = timeout * 1000 - 2 ^ 32 /\ b < 0).
Proof.
  intros Hok Hd Hl Hn Ha Hint.
  assert (Hb : wait_bound timeout (env_next_timeout (env w) (tick w)) = Some timeout)
    by (rewrite Ha; reflexivity).
  assert (Hlong : LONG_MIN <= timeout * 1000 <= LONG_MAX)
    by (unfold LONG_MIN, LONG_MAX, INT_MAX in *; lia).
  destruct (hmcfgusb_poll_polls_once dev timeout w d l timeout Hok Hd Hl Hn Hb Hlong)
    as (r & w' & rest & Hrun & Htr & Hq).
  exists r, w', (wrap_int (timeout * 1000)). split; [exact Hrun|]. split.
  { rewrite Htr, !poll_bounds_app, (poll_bounds_no_poll rest Hq), app_nil_r. reflexivity. }
  split.
  - intros H. apply wrap_int_small. lia.
  - intros H. unfold wrap_int.
    replace (timeout * 1000 + 2 ^ 31) with (timeout * 1000 - 2 ^ 31 + 1 * 2 ^ 32) by lia.
    rewrite Z.mod_add by lia. rewrite Z.mod_small by lia. lia.
Qed.

Lemma hmcfgusb_poll_caller_timeout_witness :
  exists r w' b,
    hmcfgusb_poll 0 2147484 (channel 0 accept_all calm) = Some (r, w') /\
    poll_bounds (trace w') = poll_bounds [] ++ [b] /\
    (-2147483 <= 2147484 <= 2147483 -> b = 2147484 * 1000) /\
    (2147483 < 2147484 <= 4294967 -> b = 2147484 * 1000 - 2 ^ 32 /\ b < 0).
Proof.
  apply (hmcfgusb_poll_caller_timeout 0 2147484 (channel 0 accept_all calm) the_dev
           [Pollfd 3 1 0; Pollfd 20 1 0] (Timeval 0 0)).
  - apply heap_ok_channel.
  - reflexivity.
  - reflexivity.
  - reflexivity.
  - reflexivity.
  - unfold INT_MAX. lia.
Defined.

(** * Initialisation next to other channels *)

(** X17. Initialisation that runs to its end keeps the heap in order when
    the three addresses it allocates are unused: the transfers that were
    there keep their callback contexts and handles, and the new transfer
    points to the new context and handle. *)
Theorem hmcfgusb_init_keeps_heap_in_order cb data w d usb :
  heap_ok w ->
  devs w !! brk w = None ->
  cb_datas w !! S (brk w) = None ->
  transfers w !! S (S (brk w)) = None ->
  init_can_succeed w d usb ->
  exists w',
    hmcfgusb_init cb data w = Some (Some (brk w), w') /\
    heap_ok w'.
Proof.
  intros Hok Hfd Hfc Hft Hcan.
  destruct (wp_elim _ _ _ (hmcfgusb_init_spec cb data w d usb Hcan))
    as (r & w' & Hrun & -> & Hq & Hd & Hc & Ht & _).
  exists w'. split; [exact Hrun|].
  intros t tr c Htr Hu. rewrite Ht in Htr. rewrite Hc, Hd.
  destruct (decide (t = S (S (brk w)))) as [->|Hne].
  - rewrite lookup_insert_eq in Htr. injection Htr as <-.
    cbn [user_data receive_transfer] in Hu. injection Hu as <-.
    eexists. split; [apply lookup_insert_eq|].
    intros p [= <-]. eexists. split; [apply lookup_insert_eq|]. right. reflexivity.
  - rewrite lookup_insert_ne in Htr by congruence.
    destruct (Hok t tr c Htr Hu) as (cd & Hcd & Hdev).
    assert (c <> S (brk w)) by congruence.
    exists cd. split; [rewrite lookup_insert_ne by congruence; exact Hcd|].
    intros p Hp. destruct (Hdev p Hp) as (d0 & Hd0 & Hown).
    assert (p <> brk w) by congruence.
    exists d0. split; [rewrite lookup_insert_ne by congruence; exact Hd0 | exact Hown].
Qed.

Lemma hmcfgusb_init_keeps_heap_in_order_witness :
  exists w',
    hmcfgusb_init (Some accept_all) 0 (channel 0 accept_all calm) = Some (Some 3%nat, w') /\
    heap_ok w'.
Proof.
  apply (hmcfgusb_init_keeps_heap_in_order (Some accept_all) 0 (channel 0 accept_all calm)
           hm_cfg_usb [LibusbPollfd 3 1]).
  - apply heap_ok_channel.
  - reflexivity.
  - reflexivity.
  - reflexivity.
  - unfold init_can_succeed, init_can_arm.
    repeat split; try reflexivity; try (vm_compute; discriminate).
    exists [hm_cfg_usb]. split; reflexivity.
Defined.

(** * Wait calls one after the other *)

Lemma same_registrations_refl d : same_registrations d d.
Proof. unfold same_registrations. auto 10. Qed.

Lemma same_registrations_trans d1 d2 d3 :
  same_registrations d1 d2 -> same_registrations d2 d3 -> same_registrations d1 d3.
Proof.
  unfold same_registrations.
  intros (? & ? & ? & ? & ? & Ht2) (? & ? & ? & ? & ? & Ht3).
  repeat (split; [congruence|]).
  destruct Ht3 as [-> | ->]; auto.
Qed.

Lemma same_registrations_consistent d d' :
  same_registrations d d' -> pfd_consistent d -> pfd_consistent d'.
Proof.
  intros (_ & _ & Hn & _ & Hw & _) Hc. unfold pfd_consistent in *. rewrite Hn, Hc.
  f_equal. apply (f_equal length) in Hw. unfold watch_list in Hw.
  rewrite !length_fmap in Hw. congruence.
Qed.

Lemma keeps_channels_refl w : keeps_channels w w.
Proof.
  split; [|split; [reflexivity|split; [eauto | reflexivity]]].
  intros p d Hd. exists d. split; [exact Hd | apply same_registrations_refl].
Qed.

Lemma keeps_channels_trans w1 w2 w3 :
  keeps_channels w1 w2 -> keeps_channels w2 w3 -> keeps_channels w1 w3.
Proof.
  intros (Hd1 & Hc1 & Ht1 & He1) (Hd2 & Hc2 & Ht2 & He2).
  split; [|split; [congruence|split; [|congruence]]].
  - intros p d Hd. destruct (Hd1 p d Hd) as (d2 & Hp2 & Hs2).
    destruct (Hd2 p d2 Hp2) as (d3 & Hp3 & Hs3).
    exists d3. split; [exact Hp3 | eapply same_registrations_trans; eassumption].
  - intros t tr3 H3. destruct (Ht2 t tr3 H3) as (tr2 & H2 & Hu2).
    destruct (Ht1 t tr2 H2) as (tr1 & H1 & Hu1).
    exists tr1. split; [exact H1 | congruence].
Qed.

Lemma keeps_channels_heap w w' :
  devs w' = devs w -> cb_datas w' = cb_datas w -> transfers w' = transfers w ->
  env w' = env w -> keeps_channels w w'.
Proof.
  intros Hd Hc Ht He. split; [|split; [exact Hc|split; [|exact He]]].
  - intros p d Hp. exists d. rewrite Hd. split; [exact Hp | apply same_registrations_refl].
  - intros t tr. rewrite Ht. eauto.
Qed.

(** A handle is rewritten with the registrations it had. *)
Lemma keeps_channels_store p d d' w w' :
  devs w !! p = Some d -> same_registrations d d' ->
  devs w' = <[p:=d']> (devs w) ->
  cb_datas w' = cb_datas w -> transfers w' = transfers w -> env w' = env w ->
  keeps_channels w w'.
Proof.
  intros Hd Hs Hds Hc Ht He. split; [|split; [exact Hc|split; [|exact He]]].
  - intros q d0 Hq. rewrite Hds. destruct (decide (q = p)) as [->|Hne].
    + rewrite Hd in Hq. injection Hq as <-.
      exists d'. split; [apply lookup_insert_eq | exact Hs].
    + exists d0. rewrite lookup_insert_ne by congruence.
      split; [exact Hq | apply same_registrations_refl].
  - intros t tr. rewrite Ht. eauto.
Qed.

(** The heap of transfers changes, the user data do not. *)
Lemma keeps_channels_transfers w w' :
  devs w' = devs w -> cb_datas w' = cb_datas w -> env w' = env w ->
  (forall t tr', transfers w' !! t = Some tr' ->
     exists tr, transfers w !! t = Some tr /\ user_data tr = user_data tr') ->
  keeps_channels w w'.
Proof.
  intros Hd Hc He Ht. split; [|split; [exact Hc|split; [exact Ht | exact He]]].
  intros p d Hp. exists d. rewrite Hd. split; [exact Hp | apply same_registrations_refl].
Qed.

(** What is in order stays in order. *)
Lemma keeps_channels_heap_ok w w' : keeps_channels w w' -> heap_ok w -> heap_ok w'.
Proof.
  intros (Hd & Hc & Ht & _) Hok. apply (heap_ok_shrink w w' Hok Hc Ht).
  intros p d Hp. destruct (Hd p d Hp) as (d' & Hp' & Hs).
  exists d'. split; [exact Hp' | apply Hs].
Qed.

Lemma along_ret {A} (a : A) : along keeps_channels (mret a).
Proof. intros w a' w' [= <- <-]. apply keeps_channels_refl. Qed.

Lemma along_bind {A B} (m : M A) (k : A -> M B) :
  along keeps_channels m -> (forall a, along keeps_channels (k a)) ->
  along keeps_channels (m ≫= k).
Proof.
  intros Hm Hk w b w'. unfold mbind, M_bind.
  destruct (m w) as [[a w1]|] eqn:E; [|discriminate].
  intros Hb. eapply keeps_channels_trans; [eapply Hm, E | eapply Hk, Hb].
Qed.

Lemma along_undefined {A} : along keeps_channels (@undefined A).
Proof. intros w a w'. discriminate. Qed.

(** A computation that does not write the heap. *)
Lemma along_frame {A} (m : M A) :
  (forall w, match m w with
             | Some (_, w') =>
               devs w' = devs w /\ cb_datas w' = cb_datas w /\
               transfers w' = transfers w /\ env w' = env w
             | None => True
             end) ->
  along keeps_channels m.
Proof.
  intros H w a w' E. specialize (H w). rewrite E in H.
  destruct H as (Hd & Hc & Ht & He). apply keeps_channels_heap; assumption.
Qed.

Lemma along_gets {A} (f : world -> A) : along keeps_channels (gets f).
Proof. apply along_frame. intros w. cbn. auto. Qed.

Lemma along_emit e : along keeps_channels (emit e).
Proof. apply along_frame. intros w. cbn. auto. Qed.

Lemma along_ask {A} (o : environment -> nat -> A) : along keeps_channels (ask o).
Proof. apply along_frame. intros w. cbn. auto. Qed.

Lemma along_set_errno v : along keeps_channels (modify (set_errno v)).
Proof. apply along_frame. intros w. cbn. auto. Qed.

Lemma along_set_quit v : along keeps_channels (modify (set_quit v)).
Proof. apply along_frame. intros w. cbn. auto. Qed.

Lemma along_load_dev p : along keeps_channels (load_dev p).
Proof. apply along_frame. intros w. unfold load_dev. destruct (devs w !! p); auto. Qed.

Lemma along_load_cb_data p : along keeps_channels (load_cb_data p).
Proof.
  apply along_frame. intros w. unfold load_cb_data. destruct (cb_datas w !! p); auto.
Qed.

Lemma along_load_transfer p : along keeps_channels (load_transfer p).
Proof.
  apply along_frame. intros w. unfold load_transfer. destruct (transfers w !! p); auto.
Qed.

Lemma along_for_count n i body :
  (forall j, along keeps_channels (body j)) ->
  along keeps_channels (for_count n i body).
Proof.
  intros Hb. revert i. induction n as [|n IH]; intros i; cbn [for_count].
  - apply along_ret.
  - apply along_bind; [apply Hb | intros _; apply IH].
Qed.

(** Lines 220 and 234: the handle's transfer pointer is cleared. *)
Lemma along_clear_transfer p :
  along keeps_channels (d ← load_dev p; store_dev p (set_transfer None d)).
Proof.
  intros w a w'. unfold mbind, M_bind, load_dev, store_dev.
  destruct (devs w !! p) as [d|] eqn:Hd; [|discriminate]. rewrite Hd.
  intros [= <- <-].
  apply (keeps_channels_store p d (set_transfer None d) w _ Hd); try reflexivity.
  unfold same_registrations. wsimpl. auto 10.
Qed.

(** Line 377: the readiness of one entry is cleared. *)
Lemma along_clear_revents dev i :
  along keeps_channels (e ← load_pfd dev i; store_pfd dev i (set_revents 0 e)).
Proof.
  intros w a w'. unfold load_pfd, store_pfd, mbind, M_bind, load_dev, store_dev.
  destruct (devs w !! dev) as [d|] eqn:Hd; [|discriminate].
  destruct (pfd d) as [l|] eqn:Hl; [|discriminate].
  destruct (i <? 0); [discriminate|].
  destruct (l !! Z.to_nat i) as [e|] eqn:He; [|discriminate].
  unfold mret, M_ret. rewrite Hd, Hl. cbn [orb].
  destruct (Z.of_nat (length l) <=? i); [discriminate|]. rewrite Hd.
  intros [= <- <-].
  eapply (keeps_channels_store dev d _ w _ Hd); try reflexivity.
  unfold same_registrations, watch_list. wsimpl. rewrite Hl. cbn [null default from_option id].
  repeat (split; [reflexivity|]). split; [|left; reflexivity].
  rewrite list_fmap_insert. apply list_insert_id.
  rewrite list_lookup_fmap, He. reflexivity.
Qed.

(** poll(2) writes the readiness of the entries, and nothing else. *)
Lemma write_revents_watch_list rev k l :
  (fun e => (fd e, events e)) <$> write_revents rev k l =
  (fun e => (fd e, events e)) <$> l.
Proof.
  unfold write_revents. rewrite fmap_app, fmap_imap.
  rewrite <- (take_drop k l) at 3. rewrite fmap_app. f_equal.
  rewrite <- imap_const. apply imap_ext. intros j e _. reflexivity.
Qed.

Lemma along_poll p ms : along keeps_channels (poll p ms).
Proof.
  intros w a w'. unfold poll, mbind, M_bind, load_dev, store_dev, emit, modify, ask,
    mret, M_ret, undefined.
  destruct (devs w !! p) as [d|] eqn:Hd; [|discriminate]. wsimpl.
  destruct (env_poll (env w) (tick w)) as [n rev].
  destruct (n <? 0).
  { intros [= <- <-]. apply keeps_channels_heap; reflexivity. }
  destruct (pfd d) as [l|] eqn:Hl.
  - destruct (Z.of_nat (length l) <? n_pfd d); [discriminate|]. wsimpl. rewrite Hd.
    intros [= <- <-].
    eapply (keeps_channels_store p d _ w _ Hd); try reflexivity.
    unfold same_registrations, watch_list. wsimpl. rewrite Hl.
    cbn [null default from_option id].
    repeat (split; [reflexivity|]). split; [|left; reflexivity].
    apply write_revents_watch_list.
  - destruct (0 <? n_pfd d); [discriminate|].
    intros [= <- <-]. apply keeps_channels_heap; reflexivity.
Qed.

(** Submission and release of a transfer. *)
Lemma along_submit_transfer t : along keeps_channels (libusb_submit_transfer t).
Proof.
  intros w a w'. unfold libusb_submit_transfer, mbind, M_bind, emit, modify, load_transfer,
    ask, when, store_transfer, mret, M_ret. wsimpl.
  destruct (transfers w !! t) as [tr|] eqn:Ht; [|discriminate]. cbv beta iota. wsimpl.
  destruct (env_submit_transfer (env w) (tick w) =? 0); wsimpl.
  - rewrite Ht. intros [= <- <-]. apply keeps_channels_transfers; try reflexivity.
    wsimpl. intros t0 tr0. apply (lookup_insert_same_user_data _ t tr); [exact Ht | reflexivity].
  - intros [= <- <-]. apply keeps_channels_heap; reflexivity.
Qed.

Lemma along_free_transfer t : along keeps_channels (libusb_free_transfer t).
Proof.
  intros w a w'. unfold libusb_free_transfer, mbind, M_bind, emit, modify, load_transfer.
  wsimpl. destruct (transfers w !! t) as [tr|] eqn:Ht; [|discriminate].
  intros [= <- <-]. apply keeps_channels_transfers; try reflexivity.
  wsimpl. intros t0 tr0. apply lookup_delete_same_user_data.
Qed.

(** Decomposes a computation along its syntax. *)
Ltac along_step :=
  first
    [ apply along_ret
    | apply along_undefined
    | apply along_gets
    | apply along_emit
    | apply along_ask
    | apply along_set_errno
    | apply along_set_quit
    | apply along_clear_transfer
    | apply along_clear_revents
    | apply along_poll
    | apply along_submit_transfer
    | apply along_free_transfer
    | apply along_load_dev
    | apply along_load_cb_data
    | apply along_load_transfer
    | apply along_for_count; intros
    | apply along_bind; [ | intros]
    | lazymatch goal with
      | |- along _ (if ?c then _ else _) => destruct c
      | |- along _ (match ?x with _ => _ end) => destruct x
      end
    | progress unfold when, perror, hexdump, fprintf_stderr, load_pfd,
        mul_long, consumer_of, resubmit, report_quit ].

Ltac along_go := repeat along_step.

Lemma free_dev_transfer_along cb_data : along keeps_channels (free_dev_transfer cb_data).
Proof.
  unfold free_dev_transfer. destruct cb_data as [c|]; [|along_go].
  apply along_bind; [along_go|]. intros cd. destruct (dev cd) as [p|]; [|along_go].
  apply along_bind; [along_go|]. intros d. destruct (transfer d) as [t|]; [|along_go].
  apply along_bind; [along_go|]. intros _. apply along_clear_transfer.
Qed.

Lemma hmcfgusb_interrupt_along t : along keeps_channels (hmcfgusb_interrupt t).
Proof.
  unfold hmcfgusb_interrupt. repeat first [apply free_dev_transfer_along | along_step].
Qed.

(** A completion is filled in and handed to the callback. *)
Lemma deliver_along c : along keeps_channels (deliver c).
Proof.
  intros w a w'. unfold deliver.
  rewrite (bind_Some _ _ w (transfers w !! c_transfer c) w) by reflexivity.
  destruct (transfers w !! c_transfer c) as [tr|] eqn:Ht;
    [|intros [= <- <-]; apply keeps_channels_refl].
  destruct (submitted tr); [|intros [= <- <-]; apply keeps_channels_refl].
  rewrite (bind_Some _ _ w tt
             (set_transfers (<[c_transfer c:=complete c tr]> (transfers w)) w))
    by (unfold store_transfer; rewrite Ht; reflexivity).
  intros H. eapply keeps_channels_trans; [|eapply hmcfgusb_interrupt_along, H].
  apply keeps_channels_transfers; try reflexivity.
  wsimpl. intros t0 tr0.
  apply (lookup_insert_same_user_data _ _ tr); [exact Ht | reflexivity].
Qed.

Lemma dispatch_along cs : along keeps_channels (dispatch cs).
Proof.
  induction cs as [|c cs IH]; cbn [dispatch]; [along_go|].
  apply along_bind; [apply deliver_along | intros _; exact IH].
Qed.

Lemma service_and_report_along usb_event :
  along keeps_channels (service_and_report usb_event).
Proof.
  unfold service_and_report, libusb_handle_events_timeout_completed.
  repeat first [apply dispatch_along | along_step].
Qed.

Lemma scan_revents_along n dev : forall fd_n,
  along keeps_channels (scan_revents n fd_n dev).
Proof.
  induction n as [|n IH]; intros fd_n; cbn [scan_revents]; [along_go|].
  repeat first [apply IH | along_step].
Qed.

Lemma hmcfgusb_poll_along dev timeout : along keeps_channels (hmcfgusb_poll dev timeout).
Proof.
  unfold hmcfgusb_poll, for_lt.
  repeat first [apply service_and_report_along | apply scan_revents_along | along_step].
Qed.

(** On a handle whose count matches its array a wait call is defined. *)
Lemma hmcfgusb_poll_defined dev timeout w d l :
  heap_ok w ->
  devs w !! dev = Some d -> pfd d = Some l -> n_pfd d = Z.of_nat (length l) ->
  (forall s, wait_bound timeout (env_next_timeout (env w) (tick w)) = Some s ->
             LONG_MIN <= s * 1000 <= LONG_MAX) ->
  exists r w', hmcfgusb_poll dev timeout w = Some (r, w').
Proof.
  intros Hok Hd Hl Hn Hs.
  destruct (wait_bound timeout (env_next_timeout (env w) (tick w))) as [s|] eqn:Hb.
  - destruct (wp_elim _ _ _
                (hmcfgusb_poll_polling dev timeout w d l s Hok Hd Hl Hn Hb (Hs s eq_refl)))
      as (r & w' & Hrun & _). eauto.
  - unfold wait_bound in Hb.
    destruct (env_next_timeout (env w) (tick w)) as [err tv] eqn:Ha.
    destruct (Z.ltb_spec err 0).
    + destruct (wp_elim _ _ _ (hmcfgusb_poll_query_fails dev timeout w err tv Ha H))
        as (r & w' & Hrun & _). eauto.
    + destruct (Z.eqb_spec err 0); [discriminate|].
      destruct tv as [sec usec]. cbn [tv_sec tv_usec] in Hb.
      destruct (Z.eqb_spec sec 0); [|discriminate].
      destruct (Z.eqb_spec usec 0); [|discriminate]. subst sec usec.
      assert (Hpos : 0 < err) by lia.
      destruct (wp_elim _ _ _ (hmcfgusb_poll_timer_due dev timeout w err Hok Ha Hpos))
        as (r & w' & Hrun & _). eauto.
Qed.

Lemma wait_bound_in_range timeout e k s :
  timers_in_range e -> is_int timeout ->
  wait_bound timeout (env_next_timeout e k) = Some s ->
  LONG_MIN <= s * 1000 <= LONG_MAX.
Proof.
  intros Hr Hi. specialize (Hr k). unfold wait_bound.
  destruct (env_next_timeout e k) as [err tv]. cbn [snd] in Hr.
  destruct (err <? 0); [discriminate|].
  destruct (err =? 0).
  - intros [= <-]. unfold is_int, INT_MAX, LONG_MIN, LONG_MAX in *. lia.
  - destruct ((tv_sec tv =? 0) && (tv_usec tv =? 0)); [discriminate|].
    intros [= <-]. exact Hr.
Qed.

(** X18. Wait calls can follow one another without end.  On a heap in
    order and a handle whose count matches its array, any number of wait
    calls in a row is defined, whatever poll(2) answers, whatever libusb
    completes and whatever the consumer decides, as long as the timers
    and timeouts are within range; afterwards the heap is in order again
    and every handle has the connection, the counts and the registered
    descriptors and interest masks it had.  A wait call changes of a
    handle only the readiness of its entries and, when the engine gives
    up, the transfer pointer, which it clears. *)
Theorem hmcfgusb_poll_repeatedly dev timeouts : forall w d l,
  heap_ok w ->
  devs w !! dev = Some d -> pfd d = Some l -> n_pfd d = Z.of_nat (length l) ->
  timers_in_range (env w) ->
  Forall is_int timeouts ->
  exists w' d',
    run_all (waits dev timeouts) w = Some w' /\
    heap_ok w' /\
    devs w' !! dev = Some d' /\ same_registrations d d' /\ pfd_consistent d' /\
    keeps_channels w w' /\
    sticky (quit w) (quit w').
Proof.
  induction timeouts as [|timeout timeouts IH]; intros w d l Hok Hd Hl Hn Hr Hts.
  - exists w, d. cbn [waits map run_all].
    split; [reflexivity|]. split; [exact Hok|]. split; [exact Hd|].
    split; [apply same_registrations_refl|].
    split; [unfold pfd_consistent; rewrite Hl; exact Hn|].
    split; [apply keeps_channels_refl | left; reflexivity].
  - apply Forall_cons in Hts as [Ht Hts].
    destruct (hmcfgusb_poll_defined dev timeout w d l Hok Hd Hl Hn) as (r & w1 & Hrun).
    { intros s. apply wait_bound_in_range; assumption. }
    pose proof (hmcfgusb_poll_along dev timeout w r w1 Hrun) as Hk.
    pose proof (hmcfgusb_poll_sticky dev timeout w r w1 Hrun) as Hq.
    pose proof (keeps_channels_heap_ok w w1 Hk Hok) as Hok1.
    destruct Hk as (Hds & Hc & Htr & He).
    destruct (Hds dev d Hd) as (d1 & Hd1 & Hs1).
    assert (Hc1 : pfd_consistent d1).
    { apply (same_registrations_consistent d d1 Hs1).
      unfold pfd_consistent. rewrite Hl. exact Hn. }
    assert (exists l1, pfd d1 = Some l1) as (l1 & Hl1).
    { destruct Hs1 as (_ & _ & _ & Hnull & _). rewrite Hl in Hnull.
      destruct (pfd d1); [eauto | discriminate]. }
    destruct (IH w1 d1 l1 Hok1 Hd1 Hl1) as (w' & d' & Hrest & Hok' & Hd' & Hs' & Hc' & Hk' & Hq').
    { unfold pfd_consistent in Hc1. rewrite Hl1 in Hc1. exact Hc1. }
    { rewrite He. exact Hr. }
    { exact Hts. }
    exists w', d'. cbn [waits map run_all run]. rewrite Hrun.
    cbn [fmap option_fmap option_map snd mbind option_bind].
    split; [exact Hrest|]. split; [exact Hok'|]. split; [exact Hd'|].
    split; [eapply same_registrations_trans; eassumption|].
    split; [exact Hc'|].
    split; [eapply keeps_channels_trans; [|exact Hk']; repeat split; assumption|].
    eapply quit_rel_trans; eassumption.
Qed.

Lemma hmcfgusb_poll_repeatedly_witness :
  exists w' d',
    run_all (waits 0 [5; 0; 2147483647]) (channel 0 reject_all one_buffer) = Some w' /\
    heap_ok w' /\
    devs w' !! 0%nat = Some d' /\ same_registrations the_dev d' /\ pfd_consistent d' /\
    keeps_channels (channel 0 reject_all one_buffer) w' /\
    sticky 0 (quit w').
Proof.
  apply (hmcfgusb_poll_repeatedly 0 [5; 0; 2147483647] (channel 0 reject_all one_buffer)
           the_dev [Pollfd 3 1 0; Pollfd 20 1 0]).
  - apply heap_ok_channel.
  - reflexivity.
  - reflexivity.
  - reflexivity.
  - intros k. cbn. unfold LONG_MIN, LONG_MAX. lia.
  - repeat constructor; unfold is_int, INT_MAX; lia.
Defined.

(** * The hex dumps of the receive path *)

(** X19. The completion callback dumps a buffer only when the status is
    "completed": with a consumer registered, exactly when the debug
    switch is on, under the label "USB > "; without a consumer always,
    under the label "> ", whatever the debug switch says. *)
Theorem hmcfgusb_interrupt_hexdumps p t tr cd d w :
  wired p t tr cd d w ->
  exists w' rest,
    hmcfgusb_interrupt t w = Some (tt, w') /\
    trace w' = trace w ++ rest /\
    List.filter is_hexdump rest = dumped w cd tr.
Proof.
  intros Hw.
  destruct (wp_elim _ _ _ (hmcfgusb_interrupt_cases p t tr cd d w Hw))
    as ([] & w' & Hrun & H).
  cbv zeta in H. destruct H as (_ & _ & _ & _ & rest & Htr & _ & _ & Hdump).
  exists w', rest. auto.
Qed.

Lemma hmcfgusb_interrupt_hexdumps_witness :
  exists w' rest,
    hmcfgusb_interrupt 2 unattended = Some (tt, w') /\
    trace w' = [] ++ rest /\
    List.filter is_hexdump rest = [Hexdump [x48; x4d] 2 "> "].
Proof.
  apply (hmcfgusb_interrupt_hexdumps 0 2 (the_transfer LIBUSB_TRANSFER_COMPLETED false)
           (CbData (Some 0%nat) None 0) the_dev unattended).
  unfold wired. split; [reflexivity|]. split; [|auto].
  exists 1%nat. split; reflexivity.
Defined.

(** * What initialisation never does *)

Section Alphabet.
Context (P : event -> Prop).

Lemma says_refl w : says P w w.
Proof. exists []. rewrite app_nil_r. auto. Qed.

Lemma says_trans w1 w2 w3 : says P w1 w2 -> says P w2 w3 -> says P w1 w3.
Proof.
  intros (r1 & H1 & F1) (r2 & H2 & F2). exists (r1 ++ r2).
  rewrite H2, H1, <- app_assoc. split; [reflexivity | apply Forall_app; auto].
Qed.

Lemma says_ret {A} (a : A) : along (says P) (mret a).
Proof. intros w a' w' [= <- <-]. apply says_refl. Qed.

Lemma says_bind {A B} (m : M A) (k : A -> M B) :
  along (says P) m -> (forall a, along (says P) (k a)) -> along (says P) (m ≫= k).
Proof.
  intros Hm Hk w b w'. unfold mbind, M_bind.
  destruct (m w) as [[a w1]|] eqn:E; [|discriminate].
  intros Hb. eapply says_trans; [eapply Hm, E | eapply Hk, Hb].
Qed.

Lemma says_undefined {A} : along (says P) (@undefined A).
Proof. intros w a w'. discriminate. Qed.

(** A computation that calls nothing. *)
Lemma says_silent {A} (m : M A) :
  (forall w, match m w with Some (_, w') => trace w' = trace w | None => True end) ->
  along (says P) m.
Proof.
  intros H w a w' E. specialize (H w). rewrite E in H.
  exists []. rewrite app_nil_r. auto.
Qed.

Lemma says_emit e : P e -> along (says P) (emit e).
Proof. intros He w a w' [= <- <-]. exists [e]. wsimpl. auto. Qed.

Lemma says_gets {A} (f : world -> A) : along (says P) (gets f).
Proof. apply says_silent. reflexivity. Qed.

Lemma says_ask {A} (o : environment -> nat -> A) : along (says P) (ask o).
Proof. apply says_silent. reflexivity. Qed.

Lemma says_modify f : (forall w, trace (f w) = trace w) -> along (says P) (modify f).
Proof. intros H. apply says_silent. intros w. apply H. Qed.

Lemma says_load_dev p : along (says P) (load_dev p).
Proof. apply says_silent. intros w. unfold load_dev. destruct (devs w !! p); auto. Qed.

Lemma says_store_dev p d : along (says P) (store_dev p d).
Proof. apply says_silent. intros w. unfold store_dev. destruct (devs w !! p); auto. Qed.

Lemma says_store_cb_data p c : along (says P) (store_cb_data p c).
Proof.
  apply says_silent. intros w. unfold store_cb_data. destruct (cb_datas w !! p); auto.
Qed.

Lemma says_load_transfer p : along (says P) (load_transfer p).
Proof.
  apply says_silent. intros w. unfold load_transfer. destruct (transfers w !! p); auto.
Qed.

Lemma says_store_transfer p t : along (says P) (store_transfer p t).
Proof.
  apply says_silent. intros w. unfold store_transfer. destruct (transfers w !! p); auto.
Qed.

Lemma says_for_count n i body :
  (forall j, along (says P) (body j)) -> along (says P) (for_count n i body).
Proof.
  intros Hb. revert i. induction n as [|n IH]; intros i; cbn [for_count].
  - apply says_ret.
  - apply says_bind; [apply Hb | intros _; apply IH].
Qed.
End Alphabet.

(** Decomposes a computation along its syntax; the calls it meets are
    checked against the alphabet by evaluation. *)
Ltac says_step :=
  first
    [ apply says_ret
    | apply says_undefined
    | apply says_gets
    | apply says_ask
    | apply says_emit; reflexivity
    | apply says_load_dev
    | apply says_store_dev
    | apply says_store_cb_data
    | apply says_load_transfer
    | apply says_store_transfer
    | apply says_modify; intros; reflexivity
    | apply says_for_count; intros
    | apply says_bind; [ | intros]
    | lazymatch goal with
      | |- along _ (if ?c then _ else _) => destruct c
      | |- along _ (match ?x with _ => _ end) => destruct x
      | |- along _ (let '(_, _) := ?x in _) => destruct x
      end
    | progress unfold when, perror, hexdump, fprintf_stderr, load_pfd, store_pfd,
        incr_int, malloc_dev, malloc_cb_data, malloc_pfd, free_dev,
        libusb_alloc_transfer, libusb_fill_interrupt_transfer, libusb_submit_transfer,
        libusb_free_transfer, libusb_get_pollfds, copy_usb_pfd, for_lt ].

Ltac says_go := repeat says_step.

Lemma hmcfgusb_find_loop_says n : forall i l,
  along (says (fun e => is_release e = false)) (hmcfgusb_find_loop n i l).
Proof.
  induction n as [|n IH]; intros i l; cbn [hmcfgusb_find_loop]; [says_go|].
  repeat first [apply IH | says_step].
Qed.

Lemma hmcfgusb_find_says : along (says (fun e => is_release e = false)) hmcfgusb_find.
Proof.
  unfold hmcfgusb_find. repeat first [apply hmcfgusb_find_loop_says | says_step].
Qed.

Lemma hmcfgusb_prepare_int_says devh cb_data :
  along (says (fun e => is_release e = false)) (hmcfgusb_prepare_int devh cb_data).
Proof. unfold hmcfgusb_prepare_int. says_go. Qed.

Lemma count_usb_pfd_says p usb :
  along (says (fun e => is_release e = false)) (count_usb_pfd p usb).
Proof. induction usb as [|u usb IH]; cbn [count_usb_pfd]; repeat first [apply IH | says_step]. Qed.

(** X20. Initialisation never closes the device, releases the interface,
    cancels a transfer or shuts libusb down.  Whatever makes it fail,
    what it has started, opened or claimed by then stays so. *)
Theorem hmcfgusb_init_never_releases cb data w r w' :
  hmcfgusb_init cb data w = Some (r, w') ->
  exists rest,
    trace w' = trace w ++ rest /\
    Forall (fun e => is_release e = false) rest.
Proof.
  revert w r w'. change (along (says (fun e => is_release e = false)) (hmcfgusb_init cb data)).
  unfold hmcfgusb_init.
  repeat first
    [ apply hmcfgusb_find_says | apply hmcfgusb_prepare_int_says
    | apply count_usb_pfd_says | says_step ].
Qed.

Lemma hmcfgusb_init_never_releases_witness :
  exists w',
    hmcfgusb_init (Some accept_all) 0 (boot only_taken) = Some (None, w') /\
    exists rest,
      trace w' = trace (boot only_taken) ++ rest /\
      Forall (fun e => is_release e = false) rest.
Proof.
  eexists. split; [vm_compute; reflexivity|].
  apply (hmcfgusb_init_never_releases (Some accept_all) 0 (boot only_taken) None).
  vm_compute. reflexivity.
Defined.

(** * The handle after closing *)

(** X21. Closing frees the handle: a send, a registration or a second
    close on it afterwards reads freed memory and has no defined
    behaviour. *)
Theorem hmcfgusb_close_ends_handle p d w o :
  devs w !! p = Some d ->
  (forall t, transfer d = Some t -> is_Some (transfers w !! t)) ->
  handle_of o = Some p ->
  exists w',
    hmcfgusb_close p w = Some (tt, w') /\
    devs w' !! p = None /\
    run o w' = None /\
    run_all [Op_close p; o] w = None.
Proof.
  intros Hd Hlive Ho.
  destruct (wp_elim _ _ _ (hmcfgusb_close_spec p d w Hd Hlive))
    as ([] & w' & Hrun & _ & Hds & _).
  assert (Hgone : devs w' !! p = None) by (rewrite Hds; apply lookup_delete_eq).
  assert (Hload : forall {B} (k : hmcfgusb_dev -> M B) w0,
            devs w0 !! p = None -> (load_dev p ≫= k) w0 = None).
  { intros B k w0 H0. apply bind_None. unfold load_dev. rewrite H0. reflexivity. }
  assert (Hnext : run o w' = None).
  { destruct o; try discriminate; injection Ho as ->; cbn [run].
    - unfold hmcfgusb_send.
      rewrite (bind_Some _ _ w' (debug w') w') by reflexivity.
      unfold when. destruct (nonzero (debug w')).
      + rewrite (bind_Some _ _ w' tt _) by reflexivity.
        rewrite Hload by (wsimpl; exact Hgone). reflexivity.
      + rewrite (bind_Some _ _ w' tt w') by reflexivity.
        rewrite Hload by exact Hgone. reflexivity.
    - unfold hmcfgusb_add_pfd. rewrite Hload by exact Hgone. reflexivity.
    - unfold hmcfgusb_close. rewrite Hload by exact Hgone. reflexivity. }
  exists w'. split; [exact Hrun|]. split; [exact Hgone|]. split; [exact Hnext|].
  cbn [run_all]. change (run (Op_close p) w) with (snd <$> hmcfgusb_close p w).
  rewrite Hrun. cbn [fmap option_fmap option_map snd mbind option_bind].
  rewrite Hnext. reflexivity.
Qed.

Lemma hmcfgusb_close_ends_handle_witness :
  exists w',
    hmcfgusb_close 0 (channel 0 accept_all calm) = Some (tt, w') /\
    devs w' !! 0%nat = None /\
    run (Op_close 0) w' = None /\
    run_all [Op_close 0; Op_close 0] (channel 0 accept_all calm) = None.
Proof.
  apply (hmcfgusb_close_ends_handle 0 the_dev (channel 0 accept_all calm) (Op_close 0)).
  - reflexivity.
  - intros t Ht. injection Ht as <-. eexists. reflexivity.
  - reflexivity.
Defined.
